(** * comfy-model-manager: presence scanning, remote resolution and the
      retried, staged transfer engine

    A shallow embedding of the Go sources (scanner, search, download manager,
    registry clients, configuration) together with the properties the
    specification states about them.

    Conventions of the embedding.
    - A Go [string] is a Rocq [string] (a sequence of bytes).  [strings.ToLower]
      is modelled on ASCII letters; bytes of 128 and above are left as they
      are, so statements about case folding speak about ASCII messages.
    - A Go [error] is [option string]: [None] is [nil], [Some m] is an error
      whose [Error()] text is [m].  [fmt.Errorf("p: %w", err)] is the
      concatenation of ["p: "] and the text of [err].
    - [int] and [int64] are [Z]; where the code does arithmetic that can wrap
      the wrap-around is written with [wrap64].
    - The operating system, the network and the two registries are a [World]
      that is threaded through every call; every call also emits the list of
      externally visible events it performs, in order. *)

From Stdlib Require Import ZArith Ascii String List Bool Lia Permutation.
From Stdlib Require Import Init.Byte.
From Stdlib Require QArith DecimalString.
From stdpp Require Import gmap strings list.

Local Open Scope Z_scope.

(* ===================================================================== *)
(** ** Go's [strings] package (the functions the sources call)            *)
(* ===================================================================== *)

Module GoStrings.

Definition is_upper (c : ascii) : bool :=
  let n := nat_of_ascii c in (Nat.leb 65 n && Nat.leb n 90)%bool.

Definition lower_ascii (c : ascii) : ascii :=
  if is_upper c then ascii_of_nat (nat_of_ascii c + 32) else c.

Fixpoint ToLower (s : string) : string :=
  match s with
  | EmptyString => EmptyString
  | String c s' => String (lower_ascii c) (ToLower s')
  end.

(** [HasPrefix s p]: [s] begins with [p]. *)
Fixpoint HasPrefix (s p : string) : bool :=
  match p, s with
  | EmptyString, _ => true
  | String _ _, EmptyString => false
  | String b p', String a s' => (Ascii.eqb a b && HasPrefix s' p')%bool
  end.

(** [Contains s sub]: [sub] occurs somewhere within [s]. *)
Fixpoint Contains (s sub : string) : bool :=
  (HasPrefix s sub ||
   match s with
   | EmptyString => false
   | String _ s' => Contains s' sub
   end)%bool.

Definition HasSuffix (s suffix : string) : bool :=
  HasPrefix (String.rev s) (String.rev suffix).

Definition TrimSuffix (s suffix : string) : string :=
  if HasSuffix s suffix
  then String.substring 0 (String.length s - String.length suffix) s
  else s.

(** [strings.Join elems sep] *)
Fixpoint Join (elems : list string) (sep : string) : string :=
  match elems with
  | [] => ""
  | [e] => e
  | e :: rest => e +:+ sep +:+ Join rest sep
  end.

End GoStrings.

(* ===================================================================== *)
(** ** Go's [path/filepath] package on a Unix system                      *)
(* ===================================================================== *)

Module GoFilepath.
Import GoStrings.

Definition is_sep (c : ascii) : bool := Ascii.eqb c "/".

(** [Ext]: scan from the end; stop at a separator; the first dot met
    starts the extension. *)
Fixpoint ext_scan (rev_path acc : string) : string :=
  match rev_path with
  | EmptyString => ""
  | String c r =>
      if is_sep c then ""
      else if Ascii.eqb c "." then String c acc
      else ext_scan r (String c acc)
  end.

Definition Ext (path : string) : string := ext_scan (String.rev path) "".

(** Components of a path between separators. *)
Fixpoint split_sep (s : string) : list string :=
  match s with
  | EmptyString => [""]
  | String c s' =>
      if is_sep c then "" :: split_sep s'
      else match split_sep s' with
           | x :: xs => String c x :: xs
           | [] => [String c ""]
           end
  end.

(** One element of [Clean]'s scan.  [out] is the stack of elements kept so
    far, innermost first. *)
Definition clean_step (rooted : bool) (out : list string) (e : string)
  : list string :=
  if String.eqb e "" then out
  else if String.eqb e "." then out
  else if String.eqb e ".." then
    match out with
    | top :: below => if String.eqb top ".." then e :: out else below
    | [] => if rooted then [] else [e]
    end
  else e :: out.

Definition Clean (path : string) : string :=
  if String.eqb path "" then "."
  else
    let rooted := HasPrefix path "/" in
    let out := fold_left (clean_step rooted) (split_sep path) [] in
    let body := GoStrings.Join (rev out) "/" in
    if rooted then "/" +:+ body
    else if String.eqb body "" then "." else body.

(** [Dir]: everything up to and including the last separator, cleaned. *)
Fixpoint drop_last_elem (rev_path : string) : string :=
  match rev_path with
  | EmptyString => ""
  | String c r => if is_sep c then rev_path else drop_last_elem r
  end.

Definition Dir (path : string) : string :=
  Clean (String.rev (drop_last_elem (String.rev path))).

(** [Join]: leading empty elements are ignored, the rest is joined with
    separators and cleaned. *)
Fixpoint Join (elem : list string) : string :=
  match elem with
  | [] => ""
  | e :: rest =>
      if String.eqb e "" then Join rest
      else Clean (GoStrings.Join elem "/")
  end.

End GoFilepath.

(* ===================================================================== *)
(** ** Data model (config and types of the sources)                       *)
(* ===================================================================== *)

(** Go's [error]. *)
Definition error : Type := option string.

(** [fmt.Errorf (prefix ++ ": %w") err] *)
Definition wrap_error (prefix msg : string) : string := prefix +:+ ": " +:+ msg.

(** [type ModelType string] and its constants. *)
Definition ModelType : Type := string.
Definition ModelTypeCheckpoint : ModelType := "checkpoints".
Definition ModelTypeLora : ModelType := "loras".
Definition ModelTypeVAE : ModelType := "vae".
Definition ModelTypeEmbedding : ModelType := "embeddings".
Definition ModelTypeControlNet : ModelType := "controlnet".
Definition ModelTypeUpscale : ModelType := "upscale_models".
Definition ModelTypeClipVision : ModelType := "clip_vision".

Record Model := mkModel {
  Name : string;
  Type_ : ModelType;
  Hash : string;
  Source : string;
  DownloadURL : string;
  LocalPath : string;
  Size : Z;
  IsPresent : bool
}.

(** [model.IsPresent = b] on a copy of the model. *)
Definition withIsPresent (b : bool) (m : Model) : Model :=
  {| Name := Name m; Type_ := Type_ m; Hash := Hash m; Source := Source m;
     DownloadURL := DownloadURL m; LocalPath := LocalPath m; Size := Size m;
     IsPresent := b |}.

Record SearchResult := mkSearchResult {
  srName : string;
  srSource : string;
  srDownloadURL : string;
  srHash : string;
  srSize : Z;
  srModelType : ModelType
}.

Definition withModelType (t : ModelType) (r : SearchResult) : SearchResult :=
  {| srName := srName r; srSource := srSource r;
     srDownloadURL := srDownloadURL r; srHash := srHash r;
     srSize := srSize r; srModelType := t |}.

Record Config := mkConfig {
  ComfyUIPath : string;
  HuggingFaceToken : string;
  CivitAIToken : string;
  MaxWorkers : Z;
  ModelDirs : gmap string string;
  DownloadTimeout : Z;
  RetryAttempts : Z
}.

(** [time.Minute], [time.Second] in nanoseconds. *)
Definition Second : Z := 1000000000.
Definition Minute : Z := 60 * Second.

Definition DefaultConfig : Config :=
  {| ComfyUIPath := "/workspace/ComfyUI";
     HuggingFaceToken := "";
     CivitAIToken := "";
     MaxWorkers := 3;
     ModelDirs :=
       <[ModelTypeCheckpoint := "models/checkpoints"]>
       (<[ModelTypeLora := "models/loras"]>
       (<[ModelTypeVAE := "models/vae"]>
       (<[ModelTypeEmbedding := "models/embeddings"]>
       (<[ModelTypeControlNet := "models/controlnet"]>
       (<[ModelTypeUpscale := "models/upscale_models"]>
       (<[ModelTypeClipVision := "models/clip_vision"]> ∅))))));
     DownloadTimeout := 30 * Minute;
     RetryAttempts := 3 |}.

Definition GetModelPath (c : Config) (modelType : ModelType) (filename : string)
  : string :=
  let dir := match ModelDirs c !! modelType with
             | Some d => d
             | None => "models/unknown"
             end in
  GoFilepath.Join [ComfyUIPath c; dir; filename].

(** The model record the workflow parser builds for a named reference. *)
Definition referenceOf (c : Config) (t : ModelType) (name : string) : Model :=
  {| Name := name; Type_ := t; Hash := ""; Source := ""; DownloadURL := "";
     LocalPath := GetModelPath c t name; Size := 0; IsPresent := false |}.

Definition DownloadJob : Type := (Model * SearchResult)%type.

(** [DownloadProgress] without its [StartTime], which only feeds the
    printed transfer rate. *)
Record DownloadProgress := mkProgress {
  dpModel : Model;
  Downloaded : Z;
  Total : Z;
  Error : error;
  Completed : bool
}.

(** 64-bit two's complement wrap-around. *)
Definition wrap64 (z : Z) : Z :=
  (z + 9223372036854775808) mod 18446744073709551616 - 9223372036854775808.

(* ===================================================================== *)
(** ** The world outside the program: file system, network, registries    *)
(* ===================================================================== *)

(** What a path names.  [Inaccessible e] is a path every system call on
    which fails with the errno text [e] (for instance [permission denied]
    below an unsearchable directory, or [input/output error]). *)
Inductive entry :=
| RegularFile (data : list byte)
| Directory
| Inaccessible (errno : string).

Record FileInfo := mkFileInfo { fiSize : Z; fiIsDir : bool }.

Inductive StatResult :=
| StatOk (info : FileInfo)
| StatErr (msg : string).

Record Request := mkRequest {
  reqMethod : string;
  reqURL : string;
  reqHeader : list (string * string)
}.

(** How a response body ends once its chunks are consumed: [io.EOF] or a
    read error. *)
Inductive ReadEnd :=
| EOF
| ReadError (msg : string).

(** [resp.Body] as the reader [downloadFile] consumes: the successive
    non-empty results of [Read], then the terminating condition. *)
Record Body := mkBody { chunks : list (list byte); ending : ReadEnd }.

Record Response := mkResponse {
  StatusCode : Z;
  Status : string;
  ContentLength : Z;
  RespBody : Body
}.

(** Result of [httpClient.Do]. *)
Inductive RoundTrip :=
| Responds (resp : Response)
| TransportError (msg : string).

(** A pointer to a [DownloadProgress] on the heap: its index there. *)
Abbreviation loc := nat (only parsing).

Record World := mkWorld {
  (** the file system *)
  files : gmap string entry;
  (** environment failures of [rename], [write] and [mkdir]: the errno text,
      if the call fails for a reason outside the modelled file system
      (cross-device link, disk full, read-only file system, ...) *)
  rename_fault : string -> string -> option string;
  write_fault : string -> option string;
  mkdir_fault : string -> option string;
  (** the network: one handler per round trip still to come *)
  network : list (Request -> RoundTrip);
  (** the registries' answers to [SearchModels] and [GetModelByHash] *)
  hf_search : string -> ModelType -> list SearchResult * error;
  civit_search : string -> ModelType -> list SearchResult * error;
  civit_by_hash : string -> option SearchResult * error;
  (** the download manager's mutable state: the heap of progress objects
      and the table [d.downloads] of pointers to them *)
  heap : list DownloadProgress;
  downloads : gmap string loc
}.

Definition set_files (f : gmap string entry) (w : World) : World :=
  {| files := f; rename_fault := rename_fault w; write_fault := write_fault w;
     mkdir_fault := mkdir_fault w; network := network w;
     hf_search := hf_search w; civit_search := civit_search w;
     civit_by_hash := civit_by_hash w; heap := heap w;
     downloads := downloads w |}.

Definition set_network (n : list (Request -> RoundTrip)) (w : World) : World :=
  {| files := files w; rename_fault := rename_fault w;
     write_fault := write_fault w; mkdir_fault := mkdir_fault w; network := n;
     hf_search := hf_search w; civit_search := civit_search w;
     civit_by_hash := civit_by_hash w; heap := heap w;
     downloads := downloads w |}.

Definition set_heap (h : list DownloadProgress) (w : World) : World :=
  {| files := files w; rename_fault := rename_fault w;
     write_fault := write_fault w; mkdir_fault := mkdir_fault w;
     network := network w; hf_search := hf_search w;
     civit_search := civit_search w; civit_by_hash := civit_by_hash w;
     heap := h; downloads := downloads w |}.

Definition set_downloads (d : gmap string loc) (w : World) : World :=
  {| files := files w; rename_fault := rename_fault w;
     write_fault := write_fault w; mkdir_fault := mkdir_fault w;
     network := network w; hf_search := hf_search w;
     civit_search := civit_search w; civit_by_hash := civit_by_hash w;
     heap := heap w; downloads := d |}.

(** Externally visible steps, in the order the program performs them.
    [EvAttempt k] and [EvAttemptDone k err] bracket the call of
    [performDownload] made by iteration [k] of the retry loop. *)
Inductive Event :=
| EvStat (path : string)
| EvMkdirAll (path : string)
| EvOpen (path : string) (flags : Z)
| EvWrite (path : string) (data : list byte)
| EvRename (old new : string) (err : error)
| EvRequest (req : Request)
| EvSleep (ns : Z)
| EvAttempt (k : Z)
| EvAttemptDone (k : Z) (err : error)
| EvHFSearch (query : string) (t : ModelType)
| EvCivitSearch (query : string) (t : ModelType)
| EvCivitByHash (hash : string).

(** *** The monad of the embedding: state passing with an event log *)

Record Outcome (A : Type) := mkOutcome {
  result : A;
  final : World;
  trace : list Event
}.
Arguments mkOutcome {A} _ _ _.
Arguments result {A} _.
Arguments final {A} _.
Arguments trace {A} _.

Definition M (A : Type) : Type := World -> Outcome A.

Definition ret {A} (a : A) : M A := fun w => mkOutcome a w [].

Definition bind {A B} (m : M A) (k : A -> M B) : M B :=
  fun w =>
    let o1 := m w in
    let o2 := k (result o1) (final o1) in
    mkOutcome (result o2) (final o2) (trace o1 ++ trace o2).

Notation "x <- m ;; k" := (bind m (fun x => k))
  (at level 62, m at next level, right associativity).
Notation "m ;;; k" := (bind m (fun _ => k))
  (at level 62, right associativity).

Definition emit (ev : Event) : M unit := fun w => mkOutcome tt w [ev].
Definition get : M World := fun w => mkOutcome w w [].
Definition modify (f : World -> World) : M unit := fun w => mkOutcome tt (f w) [].

(** *** System calls *)

(** Text of an [*os.PathError]: [op path: errno]. *)
Definition path_error (op path errno : string) : string :=
  op +:+ " " +:+ path +:+ ": " +:+ errno.

(** Text of an [*os.LinkError]: [op old new: errno]. *)
Definition link_error (op old new errno : string) : string :=
  op +:+ " " +:+ old +:+ " " +:+ new +:+ ": " +:+ errno.

Definition ENOENT : string := "no such file or directory".
Definition EISDIR : string := "is a directory".
Definition ENOTDIR : string := "not a directory".
Definition EBADF : string := "bad file descriptor".

Definition Z_length {A} (l : list A) : Z := Z.of_nat (length l).

(** [os.Stat].  The size reported for a directory depends on the file
    system; it is modelled as [0] and no result below depends on it. *)
Definition os_Stat (path : string) : M StatResult :=
  emit (EvStat path) ;;;
  w <- get ;;
  ret match files w !! path with
      | Some (RegularFile d) => StatOk (mkFileInfo (Z_length d) false)
      | Some Directory => StatOk (mkFileInfo 0 true)
      | Some (Inaccessible e) => StatErr (path_error "stat" path e)
      | None => StatErr (path_error "stat" path ENOENT)
      end.

(** [os.MkdirAll path 0755]. *)
Definition os_MkdirAll (path : string) : M error :=
  emit (EvMkdirAll path) ;;;
  w <- get ;;
  match mkdir_fault w path with
  | Some e => ret (Some (path_error "mkdir" path e))
  | None =>
      match files w !! path with
      | Some (RegularFile _) => ret (Some (path_error "mkdir" path ENOTDIR))
      | Some (Inaccessible e) => ret (Some (path_error "mkdir" path e))
      | Some Directory => ret None
      | None => modify (set_files (<[path := Directory]> (files w))) ;;; ret None
      end
  end.

(** Open flags (Linux values). *)
Definition O_WRONLY : Z := 1.
Definition O_CREATE : Z := 64.
Definition O_TRUNC : Z := 512.
Definition O_APPEND : Z := 1024.

Definition has_flag (flags f : Z) : bool := negb (Z.land flags f =? 0).

(** [os.OpenFile path flags 0644] for writing.  The open file is identified
    by its path: nothing renames or removes a file while it is open. *)
Definition os_OpenFile (path : string) (flags : Z) : M error :=
  emit (EvOpen path flags) ;;;
  w <- get ;;
  match files w !! path with
  | Some Directory => ret (Some (path_error "open" path EISDIR))
  | Some (Inaccessible e) => ret (Some (path_error "open" path e))
  | Some (RegularFile d) =>
      if has_flag flags O_TRUNC
      then modify (set_files (<[path := RegularFile []]> (files w))) ;;; ret None
      else ret None
  | None =>
      if has_flag flags O_CREATE
      then modify (set_files (<[path := RegularFile []]> (files w))) ;;; ret None
      else ret (Some (path_error "open" path ENOENT))
  end.

(** [file.Write data] on a file opened by [os_OpenFile]: the bytes go to the
    end of the file (the file was opened with [O_APPEND], or truncated and
    then written sequentially). *)
Definition os_Write (path : string) (data : list byte) : M error :=
  w <- get ;;
  match write_fault w path with
  | Some e => ret (Some (path_error "write" path e))
  | None =>
      match files w !! path with
      | Some (RegularFile d) =>
          emit (EvWrite path data) ;;;
          modify (set_files (<[path := RegularFile (d ++ data)]> (files w))) ;;;
          ret None
      | _ => ret (Some (path_error "write" path EBADF))
      end
  end.

(** [os.Rename old new]. *)
Definition os_Rename (old new : string) : M error :=
  w <- get ;;
  let err :=
    match rename_fault w old new with
    | Some e => Some (link_error "rename" old new e)
    | None =>
        match files w !! old, files w !! new with
        | None, _ => Some (link_error "rename" old new ENOENT)
        | Some (Inaccessible e), _ => Some (link_error "rename" old new e)
        | _, Some (Inaccessible e) => Some (link_error "rename" old new e)
        | Some (RegularFile _), Some Directory =>
            Some (link_error "rename" old new EISDIR)
        | Some Directory, Some (RegularFile _) =>
            Some (link_error "rename" old new ENOTDIR)
        | Some _, _ => None
        end
    end in
  emit (EvRename old new err) ;;;
  match err, files w !! old with
  | None, Some e =>
      modify (set_files (<[new := e]> (delete old (files w)))) ;;; ret None
  | _, _ => ret err
  end.

(** [httpClient.Do req]: the next handler of the network answers. *)
Definition http_Do (req : Request) : M RoundTrip :=
  emit (EvRequest req) ;;;
  w <- get ;;
  match network w with
  | [] => ret (TransportError ("Get " +:+ reqURL req +:+ ": connection refused"))
  | h :: rest => modify (set_network rest) ;;; ret (h req)
  end.

(** [time.Sleep d] *)
Definition time_Sleep (d : Z) : M unit := emit (EvSleep d).

(* ===================================================================== *)
(** ** ModelScanner                                                       *)
(* ===================================================================== *)

(** [fileExists]: [err == nil && !info.IsDir()] *)
Definition fileExists (path : string) : M bool :=
  st <- os_Stat path ;;
  ret match st with
      | StatOk info => negb (fiIsDir info)
      | StatErr _ => false
      end.

(** [dirExists]: [err == nil && info.IsDir()] *)
Definition dirExists (path : string) : M bool :=
  st <- os_Stat path ;;
  ret match st with
      | StatOk info => fiIsDir info
      | StatErr _ => false
      end.

(** The candidate extensions of [checkModelExists], in the order tried. *)
Definition extensions : list string :=
  [".safetensors"; ".ckpt"; ".pt"; ".pth"; ".bin"; ".yaml"; ".json"].

(** The loop [for _, ext := range extensions] of [checkModelExists]; it
    yields the first test path that is a regular file. *)
Fixpoint tryExtensions (dirPath baseNameWithoutExt : string)
    (exts : list string) : M (option string) :=
  match exts with
  | [] => ret None
  | ext :: rest =>
      let testPath := GoFilepath.Join [dirPath; baseNameWithoutExt +:+ ext] in
      found <- fileExists testPath ;;
      if found then ret (Some testPath)
      else tryExtensions dirPath baseNameWithoutExt rest
  end.

(** [checkModelExists]; the result is the pair [(bool, error)] of the
    source.  The assignment [model.LocalPath = testPath] acts on the
    function's own copy of the model and is not visible to the caller. *)
Definition checkModelExists (model : Model) : M (bool * error) :=
  exact <- fileExists (LocalPath model) ;;
  if exact then ret (true, None)
  else
    let baseNameWithoutExt :=
      GoStrings.TrimSuffix (Name model) (GoFilepath.Ext (Name model)) in
    let dirPath := GoFilepath.Dir (LocalPath model) in
    hit <- tryExtensions dirPath baseNameWithoutExt extensions ;;
    match hit with
    | Some _ => ret (true, None)
    | None =>
        isdir <- dirExists (LocalPath model) ;;
        if isdir then ret (true, None) else ret (false, None)
    end.

(** The loop of [ScanModels] with its two accumulators. *)
Fixpoint scanLoop (models present missing : list Model)
  : M (list Model * list Model * error) :=
  match models with
  | [] => ret (present, missing, None)
  | model :: rest =>
      r <- checkModelExists model ;;
      match snd r with
      | Some e =>
          ret ([], [], Some (wrap_error ("error checking model " +:+ Name model) e))
      | None =>
          let model' := withIsPresent (fst r) model in
          if fst r then scanLoop rest (present ++ [model']) missing
          else scanLoop rest present (missing ++ [model'])
      end
  end.

Definition ScanModels (models : list Model)
  : M (list Model * list Model * error) :=
  scanLoop models [] [].

(* ===================================================================== *)
(** ** ModelManager: searching the registries                             *)
(* ===================================================================== *)

Definition suffixes : list string :=
  ["_fp16"; "_fp32"; "-fp16"; "-fp32"; "_pruned"; "-pruned"].

Definition cleanModelName (name : string) : string :=
  let name := GoStrings.TrimSuffix name (GoFilepath.Ext name) in
  fold_left GoStrings.TrimSuffix suffixes name.

(** The registry clients seen from [searchModel]: each call is one event
    and the registry's answer. *)
Definition hfClient_SearchModels (query : string) (t : ModelType)
  : M (list SearchResult * error) :=
  emit (EvHFSearch query t) ;;;
  w <- get ;;
  ret (hf_search w query t).

Definition civitClient_SearchModels (query : string) (t : ModelType)
  : M (list SearchResult * error) :=
  emit (EvCivitSearch query t) ;;;
  w <- get ;;
  ret (civit_search w query t).

Definition civitClient_GetModelByHash (hash : string)
  : M (option SearchResult * error) :=
  emit (EvCivitByHash hash) ;;;
  w <- get ;;
  ret (civit_by_hash w hash).

Definition nonempty (s : string) : bool := negb (String.eqb s "").

(** The third stage of [searchModel]: lookup by hash. *)
Definition searchByHash (config : Config) (model : Model)
  : M (option SearchResult) :=
  if nonempty (Hash model) then
    if nonempty (CivitAIToken config) then
      r <- civitClient_GetModelByHash (Hash model) ;;
      match r with
      | (Some result, None) => ret (Some (withModelType (Type_ model) result))
      | _ => ret None
      end
    else ret None
  else ret None.

(** The second stage of [searchModel]: CivitAI by name, then by hash. *)
Definition searchCivit (config : Config) (model : Model) (searchName : string)
  : M (option SearchResult) :=
  r <- civitClient_SearchModels searchName (Type_ model) ;;
  match r with
  | (first :: _, None) => ret (Some first)
  | _ => searchByHash config model
  end.

Definition searchModel (config : Config) (model : Model)
  : M (option SearchResult) :=
  let searchName := cleanModelName (Name model) in
  if nonempty (HuggingFaceToken config) then
    r <- hfClient_SearchModels searchName (Type_ model) ;;
    match r with
    | (first :: _, None) => ret (Some first)
    | _ => searchCivit config model searchName
    end
  else searchCivit config model searchName.

(** [searchModels] starts one goroutine per model; each stores its result
    in the shared map under the mutex.  [order] is the order in which the
    goroutines run: any permutation of [models] is a possible schedule. *)
Fixpoint searchAll (config : Config) (order : list Model)
    (results : gmap string SearchResult) : M (gmap string SearchResult) :=
  match order with
  | [] => ret results
  | model :: rest =>
      r <- searchModel config model ;;
      match r with
      | Some result => searchAll config rest (<[Name model := result]> results)
      | None => searchAll config rest results
      end
  end.

Definition searchModels (config : Config) (order : list Model)
  : M (gmap string SearchResult) :=
  searchAll config order ∅.

(* ===================================================================== *)
(** ** DownloadManager                                                    *)
(* ===================================================================== *)

Definition setDownloaded (n : Z) (p : DownloadProgress) : DownloadProgress :=
  {| dpModel := dpModel p; Downloaded := n; Total := Total p;
     Error := Error p; Completed := Completed p |}.
Definition setTotal (n : Z) (p : DownloadProgress) : DownloadProgress :=
  {| dpModel := dpModel p; Downloaded := Downloaded p; Total := n;
     Error := Error p; Completed := Completed p |}.
Definition setError (e : error) (p : DownloadProgress) : DownloadProgress :=
  {| dpModel := dpModel p; Downloaded := Downloaded p; Total := Total p;
     Error := e; Completed := Completed p |}.
Definition setCompleted (b : bool) (p : DownloadProgress) : DownloadProgress :=
  {| dpModel := dpModel p; Downloaded := Downloaded p; Total := Total p;
     Error := Error p; Completed := b |}.

(** [&DownloadProgress{...}]: a new object on the heap. *)
Definition alloc (p : DownloadProgress) : M loc :=
  w <- get ;;
  modify (set_heap (heap w ++ [p])) ;;;
  ret (length (heap w)).

(** An assignment to a field through the pointer [l]. *)
Definition store (l : loc) (f : DownloadProgress -> DownloadProgress) : M unit :=
  modify (fun w => set_heap (alter f l (heap w)) w).

(** [downloadFile]: the copy loop over the reads of the body.  The result
    [None] means the loop left through [io.EOF]. *)
Fixpoint copyLoop (tempPath : string) (totalSize : Z)
    (onProgress : option (Z -> Z -> M unit))
    (reads : list (list byte)) (ending : ReadEnd) (downloaded : Z) : M error :=
  match reads with
  | [] =>
      match ending with
      | EOF => ret None
      | ReadError e => ret (Some e)
      end
  | buf :: rest =>
      if 0 <? Z_length buf then
        err <- os_Write tempPath buf ;;
        match err with
        | Some e => ret (Some e)
        | None =>
            let downloaded := wrap64 (downloaded + Z_length buf) in
            match onProgress with
            | Some f => f downloaded totalSize
            | None => ret tt
            end ;;;
            copyLoop tempPath totalSize onProgress rest ending downloaded
        end
      else copyLoop tempPath totalSize onProgress rest ending downloaded
  end.

(** [downloadFile reader destPath totalSize onProgress].  The [Seek] to the
    end of a resumed file does not move an append-mode file and is left
    out. *)
Definition downloadFile (reader : Body) (destPath : string) (totalSize : Z)
    (onProgress : option (Z -> Z -> M unit)) : M error :=
  let tempPath := destPath +:+ ".tmp" in
  st <- os_Stat tempPath ;;
  let resumeFrom := match st with StatOk info => fiSize info | StatErr _ => 0 end in
  let flags :=
    match st with
    | StatOk _ => Z.lor (Z.lor O_CREATE O_WRONLY) O_APPEND
    | StatErr _ => Z.lor (Z.lor O_CREATE O_WRONLY) O_TRUNC
    end in
  err <- os_OpenFile tempPath flags ;;
  match err with
  | Some e => ret (Some e)
  | None =>
      err <- copyLoop tempPath totalSize onProgress
               (chunks reader) (ending reader) resumeFrom ;;
      match err with
      | Some e => ret (Some e)
      | None =>
          err <- os_Rename tempPath destPath ;;
          match err with
          | Some e => ret (Some (wrap_error "failed to move temp file" e))
          | None => ret None
          end
      end
  end.

Definition StatusOK : Z := 200.

Definition bearer (token : string) : list (string * string) :=
  [("Authorization", "Bearer " +:+ token)].

(** [HuggingFaceClient.DownloadFile].  [http.NewRequest] is taken to
    succeed: the URL comes from a registry answer. *)
Definition hfClient_DownloadFile (token downloadURL destPath : string)
    (onProgress : option (Z -> Z -> M unit)) : M error :=
  let req := mkRequest "GET" downloadURL
               (if nonempty token then bearer token else []) in
  rt <- http_Do req ;;
  match rt with
  | TransportError e => ret (Some e)
  | Responds resp =>
      if negb (StatusCode resp =? StatusOK)
      then ret (Some (wrap_error "download failed" (Status resp)))
      else downloadFile (RespBody resp) destPath (ContentLength resp) onProgress
  end.

(** [io.ReadAll] of a body, as text; a read error ends it silently. *)
Definition readAll (b : Body) : string :=
  string_of_list_byte (concat (chunks b)).

(** [CivitAIClient.DownloadFile].  When the token is appended to the URL
    the request is built anew, without the header set before. *)
Definition civitClient_DownloadFile (token downloadURL destPath : string)
    (onProgress : option (Z -> Z -> M unit)) : M error :=
  let req :=
    if nonempty token then
      if negb (GoStrings.Contains downloadURL "token=") then
        let sep := if GoStrings.Contains downloadURL "?" then "&" else "?" in
        mkRequest "GET" (downloadURL +:+ sep +:+ "token=" +:+ token) []
      else mkRequest "GET" downloadURL (bearer token)
    else mkRequest "GET" downloadURL [] in
  rt <- http_Do req ;;
  match rt with
  | TransportError e => ret (Some e)
  | Responds resp =>
      if negb (StatusCode resp =? StatusOK)
      then ret (Some ("download failed: " +:+ Status resp +:+ " - "
                      +:+ readAll (RespBody resp)))
      else downloadFile (RespBody resp) destPath (ContentLength resp) onProgress
  end.

(** The progress callback built by [performDownload]. *)
Definition onProgress (progress : loc) (resumeFrom : Z) (downloaded total : Z)
  : M unit :=
  store progress
    (fun p => setTotal total (setDownloaded (wrap64 (downloaded + resumeFrom)) p)).

Definition performDownload (config : Config) (job : DownloadJob)
    (progress : loc) : M error :=
  let model := fst job in
  let searchResult := snd job in
  let tempPath := LocalPath model +:+ ".tmp" in
  st <- os_Stat tempPath ;;
  let resumeFrom := match st with StatOk info => fiSize info | StatErr _ => 0 end in
  match st with
  | StatOk _ => store progress (setDownloaded resumeFrom)
  | StatErr _ => ret tt
  end ;;;
  err <-
    (if String.eqb (srSource searchResult) "huggingface" then
       hfClient_DownloadFile (HuggingFaceToken config)
         (srDownloadURL searchResult) tempPath
         (Some (onProgress progress resumeFrom))
     else if String.eqb (srSource searchResult) "civitai" then
       civitClient_DownloadFile (CivitAIToken config)
         (srDownloadURL searchResult) tempPath
         (Some (onProgress progress resumeFrom))
     else ret (Some ("unknown source: " +:+ srSource searchResult))) ;;
  match err with
  | Some e => ret (Some e)
  | None =>
      err <- os_Rename tempPath (LocalPath model) ;;
      match err with
      | Some e => ret (Some (wrap_error "failed to move downloaded file" e))
      | None => ret None
      end
  end.

Definition unrecoverableErrors : list string :=
  ["404"; "403"; "401"; "not found"; "forbidden"; "unauthorized"].

Definition isUnrecoverableError (err : string) : bool :=
  existsb (fun e => GoStrings.Contains (GoStrings.ToLower err) e)
          unrecoverableErrors.

(** [time.Second * time.Duration(attempt*2)], in nanoseconds. *)
Definition backoff (attempt : Z) : Z := wrap64 (Second * wrap64 (attempt * 2)).

(** The retry loop of [downloadModel],
    [for attempt := 0; attempt < RetryAttempts; attempt++].  [fuel] bounds
    the number of iterations still allowed; [Z.to_nat RetryAttempts] is
    enough (see [retryLoop_fuel]).  [attempt + 1] cannot wrap: [attempt] is
    below [RetryAttempts], itself an [int]. *)
Fixpoint retryLoop (config : Config) (job : DownloadJob) (progress : loc)
    (fuel : nat) (attempt : Z) (lastErr : error) : M error :=
  match fuel with
  | O => ret lastErr
  | S fuel' =>
      if attempt <? RetryAttempts config then
        (if 0 <? attempt then time_Sleep (backoff attempt) else ret tt) ;;;
        emit (EvAttempt attempt) ;;;
        err <- performDownload config job progress ;;
        emit (EvAttemptDone attempt err) ;;;
        match err with
        | None => store progress (setCompleted true) ;;; ret None
        | Some e =>
            store progress (setError (Some e)) ;;;
            if isUnrecoverableError e then ret (Some e)
            else retryLoop config job progress fuel' (attempt + 1) (Some e)
        end
      else ret lastErr
  end.

Definition newProgress (model : Model) : DownloadProgress :=
  {| dpModel := model; Downloaded := 0; Total := 0; Error := None;
     Completed := false |}.

(** The first statements of [downloadModel]: the progress object is created
    and entered in [d.downloads] under the mutex. *)
Definition registerProgress (job : DownloadJob) : M loc :=
  progress <- alloc (newProgress (fst job)) ;;
  modify (fun w => set_downloads (<[Name (fst job) := progress]> (downloads w)) w) ;;;
  ret progress.

Definition downloadModel (config : Config) (job : DownloadJob) : M error :=
  progress <- registerProgress job ;;
  let dir := GoFilepath.Dir (LocalPath (fst job)) in
  err <- os_MkdirAll dir ;;
  match err with
  | Some e => store progress (setError (Some e)) ;;; ret (Some e)
  | None =>
      retryLoop config job progress (Z.to_nat (RetryAttempts config)) 0 None
  end.

(** [GetProgress]: a new map with the same keys and the same pointers. *)
Definition GetProgress : M (gmap string loc) :=
  w <- get ;;
  ret (map_fold (fun k v progressCopy => <[k := v]> progressCopy) ∅ (downloads w)).

(** What a holder of a snapshot reads through the pointer stored under
    [name]. *)
Definition deref (w : World) (snapshot : gmap string loc) (name : string)
  : option DownloadProgress :=
  match snapshot !! name with
  | Some l => heap w !! l
  | None => None
  end.

(* ===================================================================== *)
(** ** Vocabulary of the statements                                       *)
(* ===================================================================== *)

(** What a path names, as the presence check can tell: an inaccessible
    path is neither. *)
Definition is_regular (w : World) (path : string) : bool :=
  match files w !! path with
  | Some (RegularFile _) => true
  | _ => false
  end.

Definition is_directory (w : World) (path : string) : bool :=
  match files w !! path with
  | Some Directory => true
  | _ => false
  end.

(** The test path [checkModelExists] builds for one extension. *)
Definition testPathFor (model : Model) (ext : string) : string :=
  GoFilepath.Join
    [GoFilepath.Dir (LocalPath model);
     GoStrings.TrimSuffix (Name model) (GoFilepath.Ext (Name model)) +:+ ext].

(** The probes of one presence check, in order: the path, and whether a
    directory (rather than a regular file) is looked for. *)
Definition probes (model : Model) : list (string * bool) :=
  (LocalPath model, false)
    :: map (fun ext => (testPathFor model ext, false)) extensions
    ++ [(LocalPath model, true)].

Definition hit (w : World) (p : string * bool) : bool :=
  if snd p then is_directory w (fst p) else is_regular w (fst p).

(** The probes made until the first hit, that one included. *)
Fixpoint upto_first_hit (w : World) (ps : list (string * bool))
  : list (string * bool) :=
  match ps with
  | [] => []
  | p :: rest => if hit w p then [p] else p :: upto_first_hit w rest
  end.

(** The verdict of the presence check on one reference. *)
Definition classifiedPresent (w : World) (model : Model) : bool :=
  fst (result (checkModelExists model w)).

(** *** Resolution, as worded *)

(** A name search matches when it answers without error and with at least
    one result; the match is the first result. *)
Definition nameMatch (answer : list SearchResult * error) : option SearchResult :=
  match answer with
  | (first :: _, None) => Some first
  | _ => None
  end.

(** Resolution of one reference, in words: ask registry A first if and only
    if its credential is configured; if A was skipped or gave no match ask
    registry B; if neither name search matched, the reference carries a hash
    and [hashGate] allows it, look the hash up at registry B.  The result is
    the chosen candidate, if any, and the registry calls made, in order. *)
Definition resolution (hashGate : Config -> bool) (config : Config) (w : World)
    (model : Model) : option SearchResult * list Event :=
  let q := cleanModelName (Name model) in
  let t := Type_ model in
  let askA := nonempty (HuggingFaceToken config) in
  let callsA := if askA then [EvHFSearch q t] else [] in
  match (if askA then nameMatch (hf_search w q t) else None) with
  | Some r => (Some r, callsA)
  | None =>
      match nameMatch (civit_search w q t) with
      | Some r => (Some r, callsA ++ [EvCivitSearch q t])
      | None =>
          if (nonempty (Hash model) && hashGate config)%bool then
            (match civit_by_hash w (Hash model) with
             | (Some r, None) => Some (withModelType t r)
             | _ => None
             end,
             callsA ++ [EvCivitSearch q t; EvCivitByHash (Hash model)])
          else (None, callsA ++ [EvCivitSearch q t])
      end
  end.

(** The hash lookup whenever the reference carries a hash. *)
Definition resolution_as_specified : Config -> World -> Model
    -> option SearchResult * list Event :=
  resolution (fun _ => true).

(** The hash lookup only if registry B's credential is configured too. *)
Definition resolution_with_token_gate : Config -> World -> Model
    -> option SearchResult * list Event :=
  resolution (fun config => nonempty (CivitAIToken config)).

(** *** Traces of a transfer *)

(** Every event the computation emits satisfies [P]. *)
Definition emits_only {A} (P : Event -> Prop) (m : M A) : Prop :=
  forall w, Forall P (trace (m w)).

(** The staging path [performDownload] names, and the path the helper
    [downloadFile] derives from the destination it is given. *)
Definition stagingPath (model : Model) : string := LocalPath model +:+ ".tmp".
Definition helperPath (model : Model) : string := stagingPath model +:+ ".tmp".

(** The footprint of one attempt before its final rename: where it looks,
    opens, writes and renames, and what its requests carry. *)
Definition inner_event (model : Model) (ev : Event) : Prop :=
  match ev with
  | EvStat p => p = stagingPath model \/ p = helperPath model
  | EvOpen p _ => p = helperPath model
  | EvWrite p _ => p = helperPath model
  | EvRename old new _ => old = helperPath model /\ new = stagingPath model
  | EvRequest req =>
      reqMethod req = "GET" /\
      forall k v, In (k, v) (reqHeader req) -> k = "Authorization"
  | _ => False
  end.

(** The trace [body] of one call of [performDownload] that returned [err]:
    the footprint above, followed, if the download itself succeeded, by the
    rename of the staging path to the final path; a failure of that rename
    is returned wrapped. *)
Definition attempt_trace (model : Model) (body : list Event) (err : error)
  : Prop :=
  exists inner,
    Forall (inner_event model) inner /\
    ((body = inner /\ err <> None) \/
     (body = inner ++ [EvRename (stagingPath model) (LocalPath model) None] /\
      err = None) \/
     (exists m,
        body = inner ++ [EvRename (stagingPath model) (LocalPath model) (Some m)] /\
        err = Some (wrap_error "failed to move downloaded file" m))).

(** The continuation a request asks for: the value of its [Range] header,
    if it has one. *)
Definition continuation_offset (req : Request) : option string :=
  match List.find (fun kv => String.eqb (fst kv) "Range") (reqHeader req) with
  | Some kv => Some (snd kv)
  | None => None
  end.

(** The pause before iteration [k] of the retry loop. *)
Definition pause (k : Z) : list Event :=
  if 0 <? k then [EvSleep (backoff k)] else [].

(** The traces of the retry loop from iteration [k] on, for the limit [R]:
    each iteration is its pause, its attempt and the attempt's outcome; the
    loop goes on exactly after an error that [isUnrecoverableError] does not
    recognise, while iterations remain. *)
Inductive Run (R : Z) (model : Model) : Z -> list Event -> Prop :=
| Run_exhausted k :
    R <= k -> Run R model k []
| Run_success k body :
    k < R -> attempt_trace model body None ->
    Run R model k (pause k ++ EvAttempt k :: body ++ [EvAttemptDone k None])
| Run_terminal k body e :
    k < R -> attempt_trace model body (Some e) ->
    isUnrecoverableError e = true ->
    Run R model k (pause k ++ EvAttempt k :: body ++ [EvAttemptDone k (Some e)])
| Run_retry k body e rest :
    k < R -> attempt_trace model body (Some e) ->
    isUnrecoverableError e = false ->
    Run R model (k + 1) rest ->
    Run R model k
      (pause k ++ EvAttempt k :: body ++ EvAttemptDone k (Some e) :: rest).

(** The events of the retry loop itself. *)
Definition is_ctl (ev : Event) : bool :=
  match ev with
  | EvSleep _ | EvAttempt _ | EvAttemptDone _ _ => true
  | _ => false
  end.

Definition is_attempt (ev : Event) : bool :=
  match ev with EvAttempt _ => true | _ => false end.

(** The number of download attempts in a trace. *)
Definition attempts (tr : list Event) : nat :=
  length (List.filter is_attempt tr).

(** *** Terminal signatures, as worded *)

(** [sub] occurs in [s] when case is ignored. *)
Definition occurs_ignoring_case (sub s : string) : Prop :=
  exists before mid after,
    s = before +:+ mid +:+ after /\
    GoStrings.ToLower mid = GoStrings.ToLower sub.

Definition terminal_signatures : list string :=
  ["401"; "403"; "404"; "not found"; "forbidden"; "unauthorized"].

(** The message carries one of the terminal signatures. *)
Definition terminal_classified (msg : string) : Prop :=
  exists sig, In sig terminal_signatures /\ occurs_ignoring_case sig msg.

(** All bytes of the message are ASCII. *)
Definition is_ascii (s : string) : bool :=
  forallb (fun c => Nat.ltb (nat_of_ascii c) 128) (list_ascii_of_string s).

(* ===================================================================== *)
(** ** Scenarios                                                          *)
(* ===================================================================== *)

(** A world with an empty file system, no environment failures, a network
    that answers nothing and registries that know nothing. *)
Definition emptyWorld : World :=
  {| files := ∅;
     rename_fault := fun _ _ => None;
     write_fault := fun _ => None;
     mkdir_fault := fun _ => None;
     network := [];
     hf_search := fun _ _ => ([], None);
     civit_search := fun _ _ => ([], None);
     civit_by_hash := fun _ => (None, None);
     heap := [];
     downloads := ∅ |}.

Definition EACCES : string := "permission denied".

(** A checkpoint referenced by a flat name, and one referenced below a
    subfolder. *)
Definition flatRef : Model :=
  referenceOf DefaultConfig ModelTypeCheckpoint "m.safetensors".

Definition nestedRef : Model :=
  referenceOf DefaultConfig ModelTypeCheckpoint "sub/m.safetensors".

(** Every path the presence check of [flatRef] looks at lies in a directory
    that may not be searched. *)
Definition deniedWorld : World :=
  set_files
    (list_to_map (map (fun p => (fst p, Inaccessible EACCES)) (probes flatRef)))
    emptyWorld.

(** The subfolder of [nestedRef] holds the model with another extension. *)
Definition siblingWorld : World :=
  set_files
    {[ "/workspace/ComfyUI/models/checkpoints/sub/m.ckpt" := RegularFile [x01; x02] ]}
    emptyWorld.

(** The same for the flat reference. *)
Definition flatSiblingWorld : World :=
  set_files
    {[ "/workspace/ComfyUI/models/checkpoints/m.ckpt" := RegularFile [x01; x02] ]}
    emptyWorld.

(** A reference that carries a content hash, and a world in which only the
    hash index of registry B knows the model. *)
Definition hashedRef : Model :=
  {| Name := "m.safetensors"; Type_ := ModelTypeCheckpoint;
     Hash := "9f2ac41d"; Source := ""; DownloadURL := "";
     LocalPath := GetModelPath DefaultConfig ModelTypeCheckpoint "m.safetensors";
     Size := 0; IsPresent := false |}.

Definition byHashCandidate : SearchResult :=
  {| srName := "m.safetensors"; srSource := "civitai";
     srDownloadURL := "https://civitai.com/api/download/models/7";
     srHash := "9f2ac41d"; srSize := 5; srModelType := "" |}.

Definition hashOnlyWorld : World :=
  {| files := ∅;
     rename_fault := fun _ _ => None;
     write_fault := fun _ => None;
     mkdir_fault := fun _ => None;
     network := [];
     hf_search := fun _ _ => ([], None);
     civit_search := fun _ _ => ([], None);
     civit_by_hash := fun h => if String.eqb h "9f2ac41d"
                               then (Some byHashCandidate, None)
                               else (None, None);
     heap := [];
     downloads := ∅ |}.

(** A candidate found at registry A for the flat reference, and the job
    that downloads it. *)
Definition hfCandidate : SearchResult :=
  {| srName := "m.safetensors"; srSource := "huggingface";
     srDownloadURL := "https://huggingface.co/org/repo/resolve/main/m.safetensors";
     srHash := ""; srSize := 5; srModelType := ModelTypeCheckpoint |}.

Definition flatJob : DownloadJob := (flatRef, hfCandidate).

(** The five bytes of the model, as the server sends them: in two reads. *)
Definition payload : list byte := [x01; x02; x03; x04; x05].

(** The server sends the whole file and declares its length. *)
Definition serveAll (req : Request) : RoundTrip :=
  Responds {| StatusCode := 200; Status := "200 OK"; ContentLength := 5;
              RespBody := {| chunks := [[x01; x02; x03]; [x04; x05]];
                             ending := EOF |} |}.

(** The same answer, but the connection breaks after the first read. *)
Definition serveBroken (req : Request) : RoundTrip :=
  Responds {| StatusCode := 200; Status := "200 OK"; ContentLength := 5;
              RespBody := {| chunks := [[x01; x02; x03]];
                             ending := ReadError "unexpected EOF" |} |}.

(** The file is gone. *)
Definition serveGone (req : Request) : RoundTrip :=
  Responds {| StatusCode := 404; Status := "404 Not Found"; ContentLength := 0;
              RespBody := {| chunks := []; ending := EOF |} |}.

Definition healthyWorld : World := set_network [serveAll] emptyWorld.
Definition flakyWorld : World := set_network [serveBroken; serveAll] emptyWorld.
Definition flakierWorld : World :=
  set_network [serveBroken; serveBroken; serveAll] emptyWorld.
Definition goneWorld : World := set_network [serveGone; serveAll] emptyWorld.


(** A configuration with registry B's credential. *)
Definition civitTokenConfig : Config :=
  {| ComfyUIPath := ComfyUIPath DefaultConfig;
     HuggingFaceToken := "";
     CivitAIToken := "secret";
     MaxWorkers := MaxWorkers DefaultConfig;
     ModelDirs := ModelDirs DefaultConfig;
     DownloadTimeout := DownloadTimeout DefaultConfig;
     RetryAttempts := RetryAttempts DefaultConfig |}.

(* ===================================================================== *)
(** ** More of Go's [strings] package                                     *)
(* ===================================================================== *)

Module GoStringsMore.
Import GoStrings.

(** [strings.Split s sep] for a non-empty [sep]: [s] is cut at the
    occurrences of [sep] found from left to right, none overlapping the one
    before.  [skip] counts the bytes of a separator still to be passed
    over; the head of the result is the part being read. *)
Fixpoint split_from (sep : string) (skip : nat) (s : string) : list string :=
  match s with
  | EmptyString => [""]
  | String c s' =>
      match skip with
      | S k => split_from sep k s'
      | O =>
          if HasPrefix s sep
          then "" :: split_from sep (String.length sep - 1) s'
          else match split_from sep 0 s' with
               | part :: parts => String c part :: parts
               | [] => [String c ""]
               end
      end
  end.

Definition Split (s sep : string) : list string := split_from sep 0 s.

Definition is_any_of (chars : string) (c : ascii) : bool :=
  existsb (Ascii.eqb c) (list_ascii_of_string chars).

(** [strings.IndexAny s chars] for ASCII [chars]: the index of the first
    byte of [s] that is one of [chars], or [-1]. *)
Fixpoint IndexAny (s chars : string) : Z :=
  match s with
  | EmptyString => -1
  | String c s' =>
      if is_any_of chars c then 0
      else let i := IndexAny s' chars in
           if i =? -1 then -1 else i + 1
  end.

(** The slice [s[:n]]. *)
Definition slice_to (s : string) (n : Z) : string :=
  String.substring 0 (Z.to_nat n) s.

Definition len (s : string) : Z := Z.of_nat (String.length s).

End GoStringsMore.

(* ===================================================================== *)
(** ** WorkflowParser                                                     *)
(* ===================================================================== *)

(** A decoded JSON value of [map[string]interface{}], as far as the parser
    tells values apart: a string, or anything else (number, boolean, null,
    array, object). *)
Inductive Value :=
| VString (s : string)
| VOther.

(** A workflow node.  [Inputs] lists the entries of the Go map in the order
    an iteration over it visits them; Go fixes no such order. *)
Record WorkflowNode := mkNode {
  ClassType : string;
  Inputs : list (string * Value)
}.

(** [node.Inputs[key].(string)] *)
Definition inputString (node : WorkflowNode) (key : string) : option string :=
  match List.find (fun kv => String.eqb (fst kv) key) (Inputs node) with
  | Some (_, VString s) => Some s
  | _ => None
  end.

(** [findEmbeddings]: the loop over [parts[1:]]. *)
Fixpoint embeddingsOfParts (parts : list string) : list string :=
  match parts with
  | [] => []
  | part :: rest =>
      let idx := GoStringsMore.IndexAny part " ,():" in
      let endIdx := if idx =? -1 then GoStringsMore.len part else idx in
      if 0 <? endIdx then
        let embName := GoStringsMore.slice_to part endIdx in
        let embName :=
          if negb (GoStrings.Contains embName ".") then embName +:+ ".pt"
          else embName in
        embName :: embeddingsOfParts rest
      else embeddingsOfParts rest
  end.

Definition findEmbeddings (text : string) : list string :=
  embeddingsOfParts (tl (GoStringsMore.Split text "embedding:")).

(** [fmt.Sprintf("%s:%s", modelType, name)] *)
Definition modelKey (t : ModelType) (name : string) : string :=
  t +:+ ":" +:+ name.

(** [extractCheckpoint], [extractLora], [extractVAE], [extractControlNet],
    [extractClipVision], [extractUpscaleModel]: they differ in the input
    read and in the type stored. *)
Definition extractNamed (config : Config) (inputKey : string) (t : ModelType)
    (node : WorkflowNode) (modelMap : gmap string Model) : gmap string Model :=
  match inputString node inputKey with
  | Some name => <[modelKey t name := referenceOf config t name]> modelMap
  | None => modelMap
  end.

Definition extractCheckpoint (config : Config) :=
  extractNamed config "ckpt_name" ModelTypeCheckpoint.
Definition extractLora (config : Config) :=
  extractNamed config "lora_name" ModelTypeLora.
Definition extractVAE (config : Config) :=
  extractNamed config "vae_name" ModelTypeVAE.
Definition extractControlNet (config : Config) :=
  extractNamed config "control_net_name" ModelTypeControlNet.
Definition extractClipVision (config : Config) :=
  extractNamed config "clip_name" ModelTypeClipVision.
Definition extractUpscaleModel (config : Config) :=
  extractNamed config "model_name" ModelTypeUpscale.

(** [extractEmbeddings]: every string input is searched. *)
Definition extractEmbeddings (config : Config) (node : WorkflowNode)
    (modelMap : gmap string Model) : gmap string Model :=
  fold_left
    (fun acc (kv : string * Value) =>
       match snd kv with
       | VString text =>
           fold_left
             (fun acc' embedding =>
                <[modelKey ModelTypeEmbedding embedding
                  := referenceOf config ModelTypeEmbedding embedding]> acc')
             (findEmbeddings text) acc
       | VOther => acc
       end)
    (Inputs node) modelMap.

Definition class_is (node : WorkflowNode) (names : list string) : bool :=
  existsb (String.eqb (ClassType node)) names.

(** The [switch node.ClassType] of [extractModels]. *)
Definition extractNode (config : Config) (modelMap : gmap string Model)
    (node : WorkflowNode) : gmap string Model :=
  if class_is node ["CheckpointLoaderSimple"; "CheckpointLoader"]
  then extractCheckpoint config node modelMap
  else if class_is node ["LoraLoader"; "LoraLoaderModelOnly"]
  then extractLora config node modelMap
  else if class_is node ["VAELoader"] then extractVAE config node modelMap
  else if class_is node ["ControlNetLoader"]
  then extractControlNet config node modelMap
  else if class_is node ["CLIPVisionLoader"]
  then extractClipVision config node modelMap
  else if class_is node ["UpscaleModelLoader"]
  then extractUpscaleModel config node modelMap
  else extractEmbeddings config node modelMap.

(** The map [extractModels] builds; [workflow] lists the nodes in the order
    the iteration over the Go map visits them. *)
Definition extractModelMap (config : Config) (workflow : list WorkflowNode)
  : gmap string Model :=
  fold_left (extractNode config) workflow ∅.

(** [extractModels]: the values of the map, in the order of one iteration
    over it. *)
Definition extractModels (config : Config) (workflow : list WorkflowNode)
  : list Model :=
  map snd (map_to_list (extractModelMap config workflow)).

(* ===================================================================== *)
(** ** HuggingFaceClient and CivitAIClient: what they accept and return   *)
(* ===================================================================== *)

(** [fmt.Sprintf("%d", n)] *)
Definition itoa (n : Z) : string :=
  DecimalString.NilZero.string_of_int (Z.to_int n).

Definition modelExts : list string :=
  [".safetensors"; ".ckpt"; ".pt"; ".pth"; ".bin"].

(** [HuggingFaceClient.isModelFile] *)
Definition isModelFile (filename : string) (modelType : ModelType) : bool :=
  let lower := GoStrings.ToLower filename in
  let hasModelExt := existsb (GoStrings.HasSuffix lower) modelExts in
  if negb hasModelExt then false
  else if String.eqb modelType ModelTypeVAE then GoStrings.Contains lower "vae"
  else if String.eqb modelType ModelTypeLora then
    (GoStrings.Contains lower "lora" || negb (GoStrings.Contains lower "vae"))%bool
  else if String.eqb modelType ModelTypeCheckpoint then
    (negb (GoStrings.Contains lower "vae")
     && negb (GoStrings.Contains lower "lora"))%bool
  else true.

(** The [lfs] object of a repository file. *)
Record HFLFS := mkLFS {
  lfsSize : Z;
  lfsSHA256 : string;
  lfsPointerSize : Z
}.

Record HFRepoFile := mkRepoFile {
  RFilename : string;
  rfSize : Z;
  BlobID : string;
  LFS : option HFLFS
}.

(** [HFModel]; of its fields the client reads the [ID] only. *)
Record HFModel := mkHFModel { hfID : string }.

(** The search result [getModelFiles] builds for one accepted file. *)
Definition resultOfRepoFile (model : HFModel) (modelType : ModelType)
    (file : HFRepoFile) : SearchResult :=
  let result :=
    {| srName := RFilename file;
       srSource := "huggingface";
       srDownloadURL := "https://huggingface.co/" +:+ hfID model
                        +:+ "/resolve/main/" +:+ RFilename file;
       srHash := "";
       srSize := rfSize file;
       srModelType := modelType |} in
  match LFS file with
  | Some lfs =>
      {| srName := srName result; srSource := srSource result;
         srDownloadURL := srDownloadURL result; srHash := lfsSHA256 lfs;
         srSize := lfsSize lfs; srModelType := srModelType result |}
  | None => result
  end.

(** The loop over the decoded files in [getModelFiles]. *)
Fixpoint resultsOfRepoFiles (model : HFModel) (modelType : ModelType)
    (files : list HFRepoFile) (results : list SearchResult)
  : list SearchResult :=
  match files with
  | [] => results
  | file :: rest =>
      if isModelFile (RFilename file) modelType
      then resultsOfRepoFiles model modelType rest
             (results ++ [resultOfRepoFile model modelType file])
      else resultsOfRepoFiles model modelType rest results
  end.

(** A file of a CivitAI model version.  [SizeKB] is the exact value of the
    decoded [float64]. *)
Record CivitAIModelFile := mkCivitFile {
  cfID : Z;
  cfName : string;
  cfSizeKB : QArith_base.Q;
  cfType : string;
  cfFormat : string;
  PickleScanResult : string;
  VirusScanResult : string;
  cfSHA256 : string;
  cfDownloadURL : string
}.

Record CivitAIModelVersion := mkCivitVersion {
  cvID : Z;
  cvName : string;
  cvFiles : list CivitAIModelFile
}.

Record CivitAIModel := mkCivitModel {
  cmID : Z;
  cmName : string;
  cmType : string;
  ModelVersions : list CivitAIModelVersion
}.

(** [int64(file.SizeKB * 1024)]: the product by a power of two is exact, the
    conversion drops the fraction. *)
Definition sizeInBytes (sizeKB : QArith_base.Q) : Z :=
  Z.quot (QArith_base.Qnum sizeKB * 1024) (Z.pos (QArith_base.Qden sizeKB)).

Definition validFormats : list string :=
  ["SafeTensor"; "PickleTensor"; "Model"; "Other"].

(** [CivitAIClient.isValidFile] *)
Definition isValidFile (file : CivitAIModelFile) : bool :=
  if (nonempty (VirusScanResult file)
      && negb (String.eqb (VirusScanResult file) "Success"))%bool
  then false
  else if ((GoStrings.HasSuffix (GoStrings.ToLower (cfName file)) ".ckpt"
            || GoStrings.HasSuffix (GoStrings.ToLower (cfName file)) ".pt")
           && (nonempty (PickleScanResult file)
               && negb (String.eqb (PickleScanResult file) "Success")))%bool
  then false
  else existsb (String.eqb (cfFormat file)) validFormats.

(** [CivitAIClient.getDownloadURL] *)
Definition getDownloadURL (file : CivitAIModelFile) : string :=
  if nonempty (cfDownloadURL file) then cfDownloadURL file
  else "https://civitai.com/api/download/models/" +:+ itoa (cfID file).

Definition resultOfCivitFile (modelType : ModelType) (file : CivitAIModelFile)
  : SearchResult :=
  {| srName := cfName file;
     srSource := "civitai";
     srDownloadURL := getDownloadURL file;
     srHash := cfSHA256 file;
     srSize := sizeInBytes (cfSizeKB file);
     srModelType := modelType |}.

(** The three nested loops of [CivitAIClient.SearchModels] over the decoded
    answer: items, their versions, their files. *)
Definition resultsOfCivitItems (items : list CivitAIModel)
    (modelType : ModelType) : list SearchResult :=
  flat_map
    (fun model =>
       flat_map
         (fun version =>
            flat_map
              (fun file =>
                 if isValidFile file then [resultOfCivitFile modelType file]
                 else [])
              (cvFiles version))
         (ModelVersions model))
    items.



(** The header both clients set when a token is configured. *)
Definition authorization (token : string) : list (string * string) :=
  if nonempty token then bearer token else [].

Section DecodedAnswers.

(** [json.NewDecoder(resp.Body).Decode] for the two answers below: the
    decoded value, or the decoder's error. *)
Variable decodeRepoFiles : Body -> list HFRepoFile * error.
Variable decodeVersion : Body -> CivitAIModelVersion * error.

(** [HuggingFaceClient.getModelFiles] *)
Definition getModelFiles (token : string) (model : HFModel)
    (modelType : ModelType) : M (list SearchResult * error) :=
  let filesURL :=
    "https://huggingface.co/api/models/" +:+ hfID model +:+ "/tree/main" in
  rt <- http_Do (mkRequest "GET" filesURL (authorization token)) ;;
  match rt with
  | TransportError e => ret ([], Some e)
  | Responds resp =>
      if negb (StatusCode resp =? StatusOK)
      then ret ([], Some (wrap_error "failed to get model files" (Status resp)))
      else
        match decodeRepoFiles (RespBody resp) with
        | (_, Some e) => ret ([], Some e)
        | (files, None) => ret (resultsOfRepoFiles model modelType files [], None)
        end
  end.

(** The loop of [HuggingFaceClient.SearchModels] over the decoded models: a
    model whose files cannot be listed is skipped. *)
Fixpoint collectModelFiles (token : string) (hfModels : list HFModel)
    (modelType : ModelType) (results : list SearchResult)
  : M (list SearchResult) :=
  match hfModels with
  | [] => ret results
  | model :: rest =>
      r <- getModelFiles token model modelType ;;
      match snd r with
      | Some _ => collectModelFiles token rest modelType results
      | None => collectModelFiles token rest modelType (results ++ fst r)
      end
  end.


End DecodedAnswers.

(* ===================================================================== *)
(** ** ModelScanner: hashes and model information                         *)
(* ===================================================================== *)

Definition O_RDONLY : Z := 0.

(** [os.Open path]: a directory can be opened, reading it fails. *)
Definition os_Open (path : string) : M error :=
  emit (EvOpen path O_RDONLY) ;;;
  w <- get ;;
  ret match files w !! path with
      | Some (RegularFile _) | Some Directory => None
      | Some (Inaccessible e) => Some (path_error "open" path e)
      | None => Some (path_error "open" path ENOENT)
      end.

(** [file.Read] into a buffer of [count] bytes at [offset] of an open file:
    a read of a regular file yields the bytes asked for, up to the end of
    the file.  The end of the file ([io.EOF]) is no error for the callers
    below and is returned as [None]. *)
Definition file_ReadAt (path : string) (offset count : Z)
  : M (list byte * error) :=
  w <- get ;;
  ret match files w !! path with
      | Some (RegularFile d) =>
          (firstn (Z.to_nat count) (skipn (Z.to_nat offset) d), None)
      | _ => ([], Some (path_error "read" path EISDIR))
      end.

(** What [io.Copy(hasher, file)] feeds to the hasher. *)
Definition file_ReadAll (path : string) : M (list byte * error) :=
  w <- get ;;
  ret match files w !! path with
      | Some (RegularFile d) => (d, None)
      | _ => ([], Some (path_error "read" path EISDIR))
      end.

(** [file.Stat().Size()] of an open file. *)
Definition file_Size (path : string) : M Z :=
  w <- get ;;
  ret match files w !! path with
      | Some (RegularFile d) => Z_length d
      | _ => 0
      end.

Definition MiB : Z := 1024 * 1024.

Definition withSize (n : Z) (m : Model) : Model :=
  {| Name := Name m; Type_ := Type_ m; Hash := Hash m; Source := Source m;
     DownloadURL := DownloadURL m; LocalPath := LocalPath m; Size := n;
     IsPresent := IsPresent m |}.

Definition withHash (h : string) (m : Model) : Model :=
  {| Name := Name m; Type_ := Type_ m; Hash := h; Source := Source m;
     DownloadURL := DownloadURL m; LocalPath := LocalPath m; Size := Size m;
     IsPresent := IsPresent m |}.

Section Hashing.

(** [hex.EncodeToString(h.Sum(nil))] after the bytes were written to an
    [md5.New()], resp. [sha256.New()]. *)
Variable md5hex : list byte -> string.
Variable sha256hex : list byte -> string.

(** [calculateQuickHash], on the file opened at [path]. *)
Definition calculateQuickHash (path : string) : M (string * error) :=
  r <- file_ReadAt path 0 MiB ;;
  match snd r with
  | Some e => ret ("", Some e)
  | None =>
      size <- file_Size path ;;
      if 2 * MiB <? size then
        r' <- file_ReadAt path (size - MiB) MiB ;;
        match snd r' with
        | Some e => ret ("", Some e)
        | None => ret (sha256hex (fst r ++ fst r'), None)
        end
      else ret (sha256hex (fst r), None)
  end.

(** [CalculateModelHash] *)
Definition CalculateModelHash (path hashType : string) : M (string * error) :=
  err <- os_Open path ;;
  match err with
  | Some e => ret ("", Some e)
  | None =>
      if String.eqb (GoStrings.ToLower hashType) "md5" then
        r <- file_ReadAll path ;;
        match snd r with
        | Some e => ret ("", Some e)
        | None => ret (md5hex (fst r), None)
        end
      else if String.eqb (GoStrings.ToLower hashType) "sha256" then
        r <- file_ReadAll path ;;
        match snd r with
        | Some e => ret ("", Some e)
        | None => ret (sha256hex (fst r), None)
        end
      else calculateQuickHash path
  end.

(** [GetModelInfo] *)
Definition GetModelInfo (model : Model) : M (Model * error) :=
  st <- os_Stat (LocalPath model) ;;
  match st with
  | StatErr e => ret (model, Some e)
  | StatOk info =>
      let model := withSize (fiSize info) model in
      if Size model <? 100 * 1024 * 1024 then
        r <- CalculateModelHash (LocalPath model) "sha256" ;;
        match snd r with
        | None => ret (withHash (fst r) model, None)
        | Some _ => ret (model, None)
        end
      else ret (model, None)
  end.

End Hashing.

(* ===================================================================== *)
(** ** DownloadManager: the job queue                                     *)
(* ===================================================================== *)

(** The loop of [DownloadModels] that queues the jobs. *)
Fixpoint queueJobs (models : list Model)
    (searchResults : gmap string SearchResult) : list DownloadJob :=
  match models with
  | [] => []
  | model :: rest =>
      match searchResults !! Name model with
      | Some result => (model, result) :: queueJobs rest searchResults
      | None => queueJobs rest searchResults
      end
  end.

(** [downloadWorker]: the loop over the jobs a worker receives; the list
    returned is what it sends on the [errors] channel. *)
Fixpoint downloadWorker (config : Config) (jobs : list DownloadJob)
  : M (list error) :=
  match jobs with
  | [] => ret []
  | job :: rest =>
      err <- downloadModel config job ;;
      let sent :=
        match err with
        | Some e => Some (wrap_error ("failed to download " +:+ Name (fst job)) e)
        | None => None
        end in
      errs <- downloadWorker config rest ;;
      ret (sent :: errs)
  end.

(** [fmt.Sprintf("%v", errs)] for a slice of errors. *)
Definition formatErrors (errs : list string) : string :=
  "[" +:+ GoStrings.Join errs " " +:+ "]".

(** [DownloadModels].  Without a worker nobody reads the queue and the
    [errors] channel is closed empty.  With workers the jobs are taken from
    the queue in order; the schedule modelled is the one in which each job
    runs to its end before the next is taken, as with a single worker. *)
Definition DownloadModels (config : Config) (models : list Model)
    (searchResults : gmap string SearchResult) : M error :=
  let jobs := queueJobs models searchResults in
  if 0 <? MaxWorkers config then
    errs <- downloadWorker config jobs ;;
    let downloadErrors := omap id errs in
    if 0 <? Z_length downloadErrors
    then ret (Some (wrap_error "download errors" (formatErrors downloadErrors)))
    else ret None
  else ret None.

(* ===================================================================== *)
(** ** ModelManager.ProcessWorkflow                                       *)
(* ===================================================================== *)

(** [ProcessWorkflow] from its second step on: [models] is what
    [ParseWorkflow] returned.  [searchOrder] gives the order in which the
    goroutines of [searchModels] enter their results. *)
Definition ProcessWorkflow (config : Config)
    (searchOrder : list Model -> list Model) (models : list Model) : M error :=
  r <- ScanModels models ;;
  match snd r with
  | Some e => ret (Some (wrap_error "failed to scan models" e))
  | None =>
      let missing := snd (fst r) in
      if (Z_length missing =? 0) then ret None
      else
        searchResults <- searchModels config (searchOrder missing) ;;
        if 0 <? Z.of_nat (size searchResults) then
          err <- DownloadModels config missing searchResults ;;
          match err with
          | Some e => ret (Some (wrap_error "download failed" e))
          | None => ret None
          end
        else ret None
  end.

(** *** Vocabulary for the parser's results *)

(** The seven model types. *)
Definition modelTypes : list ModelType :=
  [ModelTypeCheckpoint; ModelTypeLora; ModelTypeVAE; ModelTypeEmbedding;
   ModelTypeControlNet; ModelTypeUpscale; ModelTypeClipVision].

(** The loader nodes: class of the node, input that names the model, type
    of the model. *)
Definition loaders : list (string * string * ModelType) :=
  [("CheckpointLoaderSimple", "ckpt_name", ModelTypeCheckpoint);
   ("CheckpointLoader", "ckpt_name", ModelTypeCheckpoint);
   ("LoraLoader", "lora_name", ModelTypeLora);
   ("LoraLoaderModelOnly", "lora_name", ModelTypeLora);
   ("VAELoader", "vae_name", ModelTypeVAE);
   ("ControlNetLoader", "control_net_name", ModelTypeControlNet);
   ("CLIPVisionLoader", "clip_name", ModelTypeClipVision);
   ("UpscaleModelLoader", "model_name", ModelTypeUpscale)].

Definition is_loader (node : WorkflowNode) : bool :=
  existsb (fun l => String.eqb (ClassType node) (fst (fst l))) loaders.

(** What one statement [modelMap[key] = Model{...}] does. *)
Definition insertRef (config : Config) (modelMap : gmap string Model)
    (r : ModelType * string) : gmap string Model :=
  <[modelKey (fst r) (snd r) := referenceOf config (fst r) (snd r)]> modelMap.

Definition namedReference (inputKey : string) (t : ModelType)
    (node : WorkflowNode) : list (ModelType * string) :=
  match inputString node inputKey with
  | Some name => [(t, name)]
  | None => []
  end.

(** The references (type and name) a node holds, in the order they are
    entered in the map. *)
Definition nodeReferences (node : WorkflowNode) : list (ModelType * string) :=
  if class_is node ["CheckpointLoaderSimple"; "CheckpointLoader"]
  then namedReference "ckpt_name" ModelTypeCheckpoint node
  else if class_is node ["LoraLoader"; "LoraLoaderModelOnly"]
  then namedReference "lora_name" ModelTypeLora node
  else if class_is node ["VAELoader"]
  then namedReference "vae_name" ModelTypeVAE node
  else if class_is node ["ControlNetLoader"]
  then namedReference "control_net_name" ModelTypeControlNet node
  else if class_is node ["CLIPVisionLoader"]
  then namedReference "clip_name" ModelTypeClipVision node
  else if class_is node ["UpscaleModelLoader"]
  then namedReference "model_name" ModelTypeUpscale node
  else
    flat_map
      (fun kv : string * Value =>
         match snd kv with
         | VString text => map (pair ModelTypeEmbedding) (findEmbeddings text)
         | VOther => []
         end)
      (Inputs node).

(** The characters that end an embedding name. *)
Definition embeddingDelimiters : string := " ,():".

Definition occurs (c : ascii) (s : string) : Prop :=
  In c (list_ascii_of_string s).

(** *** A workflow *)

Definition promptText : string :=
  "a cat, embedding:easynegative, (embedding:bad-hands.pt:1.2)".

Definition checkpointNode : WorkflowNode :=
  mkNode "CheckpointLoaderSimple" [("ckpt_name", VString "sd15.safetensors")].

Definition promptNode : WorkflowNode :=
  mkNode "CLIPTextEncode" [("text", VString promptText); ("clip", VOther)].

Definition loraNode : WorkflowNode :=
  mkNode "LoraLoader"
    [("lora_name", VString "detail.safetensors"); ("strength_model", VOther)].

Definition sampleWorkflow : list WorkflowNode :=
  [checkpointNode; promptNode; loraNode; checkpointNode].

(** *** Registry answers used in the examples *)

Definition tensorFile : HFRepoFile :=
  mkRepoFile "model.safetensors" 135 "b10b" (Some (mkLFS 2132625894 "c0ffee" 135)).

Definition readmeFile : HFRepoFile := mkRepoFile "README.md" 512 "b10c" None.

Definition decodeSample (b : Body) : list HFRepoFile * error :=
  ([readmeFile; tensorFile], None).



(** A scan result that lets a file pass. *)
Definition scanPassed (r : string) : Prop := r = "" \/ r = "Success".

(** Names for which [isValidFile] looks at the pickle scan. *)
Definition pickleChecked (name : string) : bool :=
  (GoStrings.HasSuffix (GoStrings.ToLower name) ".ckpt"
   || GoStrings.HasSuffix (GoStrings.ToLower name) ".pt")%bool.



Definition prunedFile : CivitAIModelFile :=
  {| cfID := 7; cfName := "m.safetensors";
     cfSizeKB := QArith_base.Qmake 4097 2; cfType := "Model";
     cfFormat := "SafeTensor"; PickleScanResult := "Success";
     VirusScanResult := "Success"; cfSHA256 := "9F2AC41D"; cfDownloadURL := "" |}.

Definition infectedFile : CivitAIModelFile :=
  {| cfID := 8; cfName := "m.ckpt";
     cfSizeKB := QArith_base.Qmake 4096 1; cfType := "Model";
     cfFormat := "PickleTensor"; PickleScanResult := "Success";
     VirusScanResult := "Danger"; cfSHA256 := "00"; cfDownloadURL := "" |}.


Definition configFile : CivitAIModelFile :=
  {| cfID := 10; cfName := "m.yaml";
     cfSizeKB := QArith_base.Qmake 1 1; cfType := "Config";
     cfFormat := "Other"; PickleScanResult := "";
     VirusScanResult := ""; cfSHA256 := "02";
     cfDownloadURL := "https://civitai.com/api/download/models/7?type=Config" |}.

Definition sampleVersion : CivitAIModelVersion :=
  mkCivitVersion 7 "v1.0" [infectedFile; configFile; prunedFile].



(** *** Files to hash *)

(** Stand-ins for the two digests in the examples: the kind of digest and
    the number of bytes hashed. *)
Definition sampleDigest (kind : string) (data : list byte) : string :=
  kind +:+ ":" +:+ itoa (Z_length data).

Definition siblingPath : string :=
  "/workspace/ComfyUI/models/checkpoints/m.ckpt".

Definition localModel : Model :=
  {| Name := "m.ckpt"; Type_ := ModelTypeCheckpoint; Hash := ""; Source := "";
     DownloadURL := ""; LocalPath := siblingPath; Size := 0;
     IsPresent := true |}.

(** A file of one MiB of zeros followed by [tail]. *)
Definition firstMiB : list byte := repeat x00 (Z.to_nat MiB).

Definition paddedWorld (tail : list byte) : World :=
  set_files {[ siblingPath := RegularFile (firstMiB ++ tail) ]} emptyWorld.

(** A model directory. *)
Definition directoryWorld : World :=
  set_files {[ LocalPath flatRef := Directory ]} emptyWorld.

(** The bytes [calculateQuickHash] feeds to the hasher for a file with the
    content [d]: the first MiB and, for a file of more than two MiB, the
    last MiB. *)
Definition quickWindow (d : list byte) : list byte :=
  firstn (Z.to_nat MiB) d
  ++ (if 2 * MiB <? Z_length d
      then firstn (Z.to_nat MiB) (skipn (Z.to_nat (Z_length d - MiB)) d)
      else []).

(** *** Vocabulary and scenarios for the job queue *)


(** The step with which [downloadModel] begins the job of a model. *)
Definition jobStart (model : Model) : Event :=
  EvMkdirAll (GoFilepath.Dir (LocalPath model)).



Definition noRetryConfig : Config :=
  {| ComfyUIPath := ComfyUIPath DefaultConfig;
     HuggingFaceToken := "";
     CivitAIToken := "";
     MaxWorkers := MaxWorkers DefaultConfig;
     ModelDirs := ModelDirs DefaultConfig;
     DownloadTimeout := DownloadTimeout DefaultConfig;
     RetryAttempts := 0 |}.

Definition noWorkerConfig : Config :=
  {| ComfyUIPath := ComfyUIPath DefaultConfig;
     HuggingFaceToken := "";
     CivitAIToken := "";
     MaxWorkers := 0;
     ModelDirs := ModelDirs DefaultConfig;
     DownloadTimeout := DownloadTimeout DefaultConfig;
     RetryAttempts := RetryAttempts DefaultConfig |}.



(** A registry that knows [flatRef] by name. *)
Definition catalogWorld : World :=
  {| files := ∅;
     rename_fault := fun _ _ => None;
     write_fault := fun _ => None;
     mkdir_fault := fun _ => None;
     network := [serveGone; serveGone; serveGone];
     hf_search := fun _ _ => ([], None);
     civit_search := fun q _ => if String.eqb q "m" then ([hfCandidate], None)
                                else ([], None);
     civit_by_hash := fun _ => (None, None);
     heap := [];
     downloads := ∅ |}.

(** The steps of [ProcessWorkflow] that only look things up: a [stat] of
    the scan, a query of the search. *)
Definition is_lookup (ev : Event) : Prop :=
  match ev with
  | EvStat _ | EvHFSearch _ _ | EvCivitSearch _ _ | EvCivitByHash _ => True
  | _ => False
  end.

(* ===================================================================== *)
(** * Properties                                                          *)
(* ===================================================================== *)

Module PathExamples.
Import GoStrings GoFilepath.

Example ext_1 : Ext "a/b.c/model.fp16.safetensors" = ".safetensors".
Proof. reflexivity. Qed.
Example ext_2 : Ext "a/b.c/model" = "".
Proof. reflexivity. Qed.
Example clean_1 : Clean "/a//b/./c/../d/" = "/a/b/d".
Proof. reflexivity. Qed.
(** The cases of the table Go's own tests check [Clean] against. *)
Example clean_table :
  map Clean
    ["abc"; "abc/def"; "a/b/c"; "."; ".."; "../.."; "../../abc"; "/abc"; "/";
     ""; "abc/"; "abc/def/"; "a/b/c/"; "./"; "../"; "../../"; "/abc/";
     "abc//def//ghi"; "//abc"; "///abc"; "//abc//"; "abc//";
     "abc/./def"; "/./abc/def"; "abc/.";
     "abc/def/ghi/../jkl"; "abc/def/../ghi/../jkl"; "abc/def/..";
     "abc/def/../.."; "/abc/def/../.."; "abc/def/../../..";
     "/abc/def/../../.."; "abc/def/../../../ghi/jkl/../../../mno"; "/../abc";
     "abc/./../def"; "abc//./../def"; "abc/../../././../def"]
  = ["abc"; "abc/def"; "a/b/c"; "."; ".."; "../.."; "../../abc"; "/abc"; "/";
     "."; "abc"; "abc/def"; "a/b/c"; "."; ".."; "../.."; "/abc";
     "abc/def/ghi"; "/abc"; "/abc"; "/abc"; "abc";
     "abc/def"; "/abc/def"; "abc";
     "abc/def/jkl"; "abc/jkl"; "abc";
     "."; "/"; "..";
     "/"; "../../mno"; "/abc";
     "def"; "def"; "../../def"].
Proof. vm_compute. reflexivity. Qed.
Example dir_table :
  map Dir ["/a/b/"; "a"; "/"; ""; "/a/b"; "a/b/c.x"; "//a"; "a/"]
  = ["/a/b"; "."; "/"; "."; "/a"; "a/b"; "/"; "a"].
Proof. vm_compute. reflexivity. Qed.
Example ext_table :
  map Ext ["a.b"; "a"; "a.b/c"; ".x"; "a."; "a.b.c"; ""; "/x/y.tar.gz"]
  = [".b"; ""; ""; ".x"; "."; ".c"; ""; ".gz"].
Proof. vm_compute. reflexivity. Qed.
Example clean_2 : Clean "../../a/../../b" = "../../../b".
Proof. reflexivity. Qed.
Example clean_3 : Clean "/../a" = "/a".
Proof. reflexivity. Qed.
Example dir_1 : Dir "/w/models/vae/x.pt" = "/w/models/vae".
Proof. reflexivity. Qed.
Example dir_2 : Dir "x.pt" = ".".
Proof. reflexivity. Qed.
Example join_1 : Join ["/w/ComfyUI"; "models/loras"; "sub/x.pt"]
                 = "/w/ComfyUI/models/loras/sub/x.pt".
Proof. reflexivity. Qed.
Example join_2 : Join [""; "a"; ""; "b"] = "a/b".
Proof. reflexivity. Qed.
Example trim_1 : TrimSuffix "model_fp16.safetensors" ".safetensors" = "model_fp16".
Proof. reflexivity. Qed.
Example trim_2 : TrimSuffix "model" "_fp16" = "model".
Proof. reflexivity. Qed.
Example lower_1 : ToLower "404 Not Found" = "404 not found".
Proof. reflexivity. Qed.
Example contains_1 : Contains "download failed: 403 forbidden" "forbidden" = true.
Proof. reflexivity. Qed.
End PathExamples.

(* ===================================================================== *)
(** ** The monad: basic equations                                         *)
(* ===================================================================== *)


Lemma bind_final {A B} (m : M A) (k : A -> M B) w :
  final (bind m k w) = final (k (result (m w)) (final (m w))).
Proof. reflexivity. Qed.

Lemma bind_trace {A B} (m : M A) (k : A -> M B) w :
  trace (bind m k w) = trace (m w) ++ trace (k (result (m w)) (final (m w))).
Proof. reflexivity. Qed.

Lemma outcome_eta {A} (o : Outcome A) :
  o = mkOutcome (result o) (final o) (trace o).
Proof. destruct o; reflexivity. Qed.

Lemma bind_eq {A B} (m : M A) (k : A -> M B) w :
  bind m k w
  = mkOutcome (result (k (result (m w)) (final (m w))))
              (final (k (result (m w)) (final (m w))))
              (trace (m w) ++ trace (k (result (m w)) (final (m w)))).
Proof. reflexivity. Qed.

(* ===================================================================== *)
(** ** Presence scanning                                                  *)
(* ===================================================================== *)

Section Scanner.

Lemma fileExists_eq path w :
  fileExists path w = mkOutcome (is_regular w path) w [EvStat path].
Proof.
  unfold fileExists, is_regular, os_Stat, bind, emit, get, ret; simpl.
  destruct (files w !! path) as [[ | | ]|]; reflexivity.
Qed.

Lemma dirExists_eq path w :
  dirExists path w = mkOutcome (is_directory w path) w [EvStat path].
Proof.
  unfold dirExists, is_directory, os_Stat, bind, emit, get, ret; simpl.
  destruct (files w !! path) as [[ | | ]|]; reflexivity.
Qed.

Lemma upto_first_hit_app w l1 l2 :
  upto_first_hit w (l1 ++ l2)
  = if existsb (hit w) l1 then upto_first_hit w l1
    else l1 ++ upto_first_hit w l2.
Proof.
  induction l1 as [|c cs IH]; simpl; [reflexivity|].
  destruct (hit w c); simpl; [reflexivity|].
  rewrite IH. destruct (existsb (hit w) cs); reflexivity.
Qed.

Lemma upto_first_hit_none w l :
  existsb (hit w) l = false -> upto_first_hit w l = l.
Proof.
  induction l as [|c cs IH]; simpl; [reflexivity|].
  destruct (hit w c); simpl; [discriminate|]. intros H; now rewrite IH.
Qed.

Lemma tryExtensions_eq dirPath base exts w :
  let cands := map (fun ext => (GoFilepath.Join [dirPath; base +:+ ext], false)) exts in
  tryExtensions dirPath base exts w
  = mkOutcome (option_map fst (List.find (hit w) cands)) w
      (map (fun p => EvStat (fst p)) (upto_first_hit w cands)).
Proof.
  induction exts as [|ext rest IH]; [reflexivity|].
  cbn [tryExtensions map List.find upto_first_hit].
  rewrite bind_eq, fileExists_eq. cbn [result final trace].
  unfold hit at 1 3. cbn [fst snd].
  destruct (is_regular w _) eqn:E; [reflexivity|].
  cbv zeta in IH. rewrite IH. reflexivity.
Qed.

Lemma find_existsb {A} (f : A -> bool) l :
  existsb f l = match List.find f l with Some _ => true | None => false end.
Proof. induction l as [|a l IH]; simpl; [reflexivity|]. destruct (f a); auto. Qed.

(** [checkModelExists] decides by the probes in their order, stops at the
    first hit, changes nothing and never reports an error. *)
Lemma checkModelExists_eq model w :
  checkModelExists model w
  = mkOutcome (existsb (hit w) (probes model), None) w
      (map (fun p => EvStat (fst p)) (upto_first_hit w (probes model))).
Proof.
  unfold checkModelExists, probes, testPathFor.
  rewrite bind_eq, fileExists_eq.
  cbn [result final trace existsb upto_first_hit].
  unfold hit at 1 3. cbn [fst snd].
  destruct (is_regular w (LocalPath model)) eqn:E; [reflexivity|].
  rewrite bind_eq, tryExtensions_eq.
  set (cands := map _ extensions).
  cbn [result final trace].
  rewrite existsb_app, upto_first_hit_app, (find_existsb (hit w) cands).
  destruct (List.find (hit w) cands) as [p|] eqn:Ef; cbn [option_map orb].
  - cbn [ret result final trace map fst]. rewrite ?app_nil_r. reflexivity.
  - assert (Hc : existsb (hit w) cands = false)
      by (rewrite find_existsb, Ef; reflexivity).
    rewrite bind_eq, dirExists_eq.
    cbn [result final trace existsb upto_first_hit].
    rewrite (upto_first_hit_none _ _ Hc).
    unfold hit at 1 2. cbn [fst snd].
    destruct (is_directory w (LocalPath model));
      cbn [ret result final trace orb map fst];
      rewrite ?map_app, ?app_nil_r; reflexivity.
Qed.

Lemma classifiedPresent_eq w model :
  classifiedPresent w model = existsb (hit w) (probes model).
Proof. unfold classifiedPresent. now rewrite checkModelExists_eq. Qed.

Lemma scanLoop_eq models : forall present missing w,
  scanLoop models present missing w
  = mkOutcome
      (present ++ map (withIsPresent true)
                      (List.filter (classifiedPresent w) models),
       missing ++ map (withIsPresent false)
                      (List.filter (fun m => negb (classifiedPresent w m)) models),
       None)
      w
      (concat (map (fun m => trace (checkModelExists m w)) models)).
Proof.
  induction models as [|model rest IH]; intros present missing w.
  - cbn. now rewrite !app_nil_r.
  - cbn [scanLoop map List.filter concat].
    rewrite bind_eq, !(classifiedPresent_eq w model).
    generalize (checkModelExists_eq model w).
    generalize (checkModelExists model w). intros o ->.
    cbn [result final trace fst snd].
    destruct (existsb (hit w) (probes model)) eqn:E.
    + rewrite IH. cbn [result final trace negb map].
      rewrite <- app_assoc. reflexivity.
    + rewrite IH. cbn [result final trace negb map].
      rewrite <- app_assoc. reflexivity.
Qed.

End Scanner.

Section ScanModelsProperties.

Lemma ScanModels_eq models w :
  ScanModels models w
  = mkOutcome
      (map (withIsPresent true) (List.filter (classifiedPresent w) models),
       map (withIsPresent false)
           (List.filter (fun m => negb (classifiedPresent w m)) models),
       None)
      w
      (concat (map (fun m => trace (checkModelExists m w)) models)).
Proof. unfold ScanModels. now rewrite scanLoop_eq. Qed.

(** The error exit of [ScanModels] is never taken: whatever the file
    system answers, the scan returns two lists and no error. *)
Lemma ScanModels_never_fails models w :
  snd (result (ScanModels models w)) = None.
Proof. now rewrite ScanModels_eq. Qed.

(** A path whose [stat] fails counts as absent for every probe. *)
Lemma inaccessible_no_hit w path e wantDir :
  files w !! path = Some (Inaccessible e) -> hit w (path, wantDir) = false.
Proof.
  intros H. unfold hit, is_directory, is_regular. cbn [fst snd].
  rewrite H. now destruct wantDir.
Qed.

(** A reference all of whose probes fail is classified missing. *)
Lemma inaccessible_reference_is_missing w model :
  (forall p, In p (probes model) ->
     exists e, files w !! fst p = Some (Inaccessible e)) ->
  classifiedPresent w model = false.
Proof.
  intros H. rewrite classifiedPresent_eq.
  destruct (existsb (hit w) (probes model)) eqn:E; [|reflexivity].
  apply existsb_exists in E as ([path wantDir] & Hin & Hhit).
  destruct (H _ Hin) as (e & He). cbn [fst] in He.
  now rewrite (inaccessible_no_hit _ _ _ _ He) in Hhit.
Qed.

Lemma filter_split_Permutation {A} (f : A -> bool) (l : list A) :
  Permutation (List.filter f l ++ List.filter (fun x => negb (f x)) l) l.
Proof.
  induction l as [|a l IH]; cbn [List.filter]; [constructor|].
  destruct (f a); cbn [negb app].
  - now constructor.
  - symmetry. apply Permutation_cons_app. now symmetry.
Qed.

Lemma filter_split_length {A} (f : A -> bool) (l : list A) :
  (length (List.filter f l) + length (List.filter (fun x => negb (f x)) l)
   = length l)%nat.
Proof.
  rewrite <- length_app. apply Permutation_length, filter_split_Permutation.
Qed.

Lemma withIsPresent_twice b c m :
  withIsPresent b (withIsPresent c m) = withIsPresent b m.
Proof. reflexivity. Qed.

End ScanModelsProperties.

(** C10.  When [ScanModels] succeeds, its two result lists partition the
    input: [present] holds, in input order, exactly the references whose
    presence check answered yes, [missing] holds, in input order, exactly the
    others; every element carries the flag of its list and is otherwise the
    input reference; together the two lists are, up to the flag, a
    rearrangement of the input. *)
Theorem ScanModels_partition (models : list Model) (w : World)
    (present missing : list Model) :
  result (ScanModels models w) = (present, missing, None) ->
  present = map (withIsPresent true)
                (List.filter (classifiedPresent w) models) /\
  missing = map (withIsPresent false)
                (List.filter (fun m => negb (classifiedPresent w m)) models) /\
  Forall (fun m => IsPresent m = true) present /\
  Forall (fun m => IsPresent m = false) missing /\
  (length present + length missing = length models)%nat /\
  Permutation (map (withIsPresent false) (present ++ missing))
              (map (withIsPresent false) models).
Proof.
  rewrite ScanModels_eq. cbn [result]. intros H. injection H as <- <-.
  split; [reflexivity|]. split; [reflexivity|].
  split; [|split; [|split]].
  - apply List.Forall_forall. intros m Hm. apply in_map_iff in Hm.
    destruct Hm as (m0 & <- & _). reflexivity.
  - apply List.Forall_forall. intros m Hm. apply in_map_iff in Hm.
    destruct Hm as (m0 & <- & _). reflexivity.
  - rewrite !length_map. apply filter_split_length.
  - rewrite map_app, !map_map.
    etransitivity; [|apply Permutation_map, filter_split_Permutation].
    rewrite map_app. reflexivity.
Qed.

Lemma ScanModels_partition_witness :
  result (ScanModels [flatRef; nestedRef] flatSiblingWorld)
    = ([withIsPresent true flatRef], [withIsPresent false nestedRef], None) /\
  (length [withIsPresent true flatRef] + length [withIsPresent false nestedRef]
   = length [flatRef; nestedRef])%nat.
Proof.
  assert (H : result (ScanModels [flatRef; nestedRef] flatSiblingWorld)
              = ([withIsPresent true flatRef], [withIsPresent false nestedRef], None))
    by (vm_compute; reflexivity).
  split; [exact H|].
  exact (proj1 (proj2 (proj2 (proj2 (proj2
           (ScanModels_partition _ _ _ _ H)))))).
Defined.

(** C7.  Every [stat] the presence check of the reference makes fails with
    [permission denied]; the strict scan nevertheless succeeds, and the
    reference is returned in the missing list. *)
Theorem ScanModels_hides_access_error :
  Forall (fun p => result (os_Stat (fst p) deniedWorld)
                   = StatErr (path_error "stat" (fst p) EACCES))
         (probes flatRef) /\
  result (ScanModels [flatRef] deniedWorld)
    = ([], [withIsPresent false flatRef], None).
Proof. split; [repeat constructor | vm_compute; reflexivity]. Qed.

(** C6.  The reference [sub/m.safetensors] resolves into the subfolder
    [sub]; that folder holds the regular file [m.ckpt], the same base name
    with an extension of the set.  The second stage of the presence check
    looks below [sub/sub] instead, and the reference is classified
    missing. *)
Theorem checkModelExists_nested_name :
  LocalPath nestedRef
    = "/workspace/ComfyUI/models/checkpoints/sub/m.safetensors" /\
  GoFilepath.Dir (LocalPath nestedRef)
    = "/workspace/ComfyUI/models/checkpoints/sub" /\
  In ".ckpt" extensions /\
  is_regular siblingWorld
    (GoFilepath.Dir (LocalPath nestedRef) +:+ "/m" +:+ ".ckpt") = true /\
  result (checkModelExists nestedRef siblingWorld) = (false, None) /\
  trace (checkModelExists nestedRef siblingWorld)
    = [EvStat "/workspace/ComfyUI/models/checkpoints/sub/m.safetensors";
       EvStat "/workspace/ComfyUI/models/checkpoints/sub/sub/m.safetensors";
       EvStat "/workspace/ComfyUI/models/checkpoints/sub/sub/m.ckpt";
       EvStat "/workspace/ComfyUI/models/checkpoints/sub/sub/m.pt";
       EvStat "/workspace/ComfyUI/models/checkpoints/sub/sub/m.pth";
       EvStat "/workspace/ComfyUI/models/checkpoints/sub/sub/m.bin";
       EvStat "/workspace/ComfyUI/models/checkpoints/sub/sub/m.yaml";
       EvStat "/workspace/ComfyUI/models/checkpoints/sub/sub/m.json";
       EvStat "/workspace/ComfyUI/models/checkpoints/sub/m.safetensors"].
Proof.
  repeat split; try (vm_compute; reflexivity).
  unfold extensions. simpl. tauto.
Qed.

(** For a flat name the second stage finds the sibling file. *)
Example checkModelExists_flat_name :
  checkModelExists flatRef flatSiblingWorld
  = mkOutcome (true, None) flatSiblingWorld
      [EvStat "/workspace/ComfyUI/models/checkpoints/m.safetensors";
       EvStat "/workspace/ComfyUI/models/checkpoints/m.safetensors";
       EvStat "/workspace/ComfyUI/models/checkpoints/m.ckpt"].
Proof. rewrite checkModelExists_eq. vm_compute. reflexivity. Qed.
(* ===================================================================== *)
(** ** Remote resolution                                                  *)
(* ===================================================================== *)

Section Search.

Lemma searchByHash_eq config model w :
  searchByHash config model w
  = if (nonempty (Hash model) && nonempty (CivitAIToken config))%bool
    then mkOutcome
           match civit_by_hash w (Hash model) with
           | (Some r, None) => Some (withModelType (Type_ model) r)
           | _ => None
           end w [EvCivitByHash (Hash model)]
    else mkOutcome None w [].
Proof.
  unfold searchByHash.
  destruct (nonempty (Hash model)); cbn [andb]; [|reflexivity].
  destruct (nonempty (CivitAIToken config)); [|reflexivity].
  rewrite bind_eq. unfold civitClient_GetModelByHash.
  rewrite !bind_eq. cbn [emit get ret result final trace app].
  destruct (civit_by_hash w (Hash model)) as [[r|] [e|]]; reflexivity.
Qed.

Lemma searchCivit_eq config model q w :
  searchCivit config model q w
  = match nameMatch (civit_search w q (Type_ model)) with
    | Some r => mkOutcome (Some r) w [EvCivitSearch q (Type_ model)]
    | None =>
        mkOutcome (result (searchByHash config model w)) w
          (EvCivitSearch q (Type_ model) :: trace (searchByHash config model w))
    end.
Proof.
  unfold searchCivit, civitClient_SearchModels.
  rewrite !bind_eq. cbn [emit get ret result final trace app].
  assert (Hf : final (searchByHash config model w) = w).
  { rewrite searchByHash_eq. now destruct (_ && _)%bool. }
  destruct (civit_search w q (Type_ model)) as [[|first rest] [e|]];
    cbn [nameMatch]; rewrite ?Hf; reflexivity.
Qed.

(** [searchModel] is the resolution with the token gate on the hash
    lookup, and leaves the world as it was. *)
Lemma searchModel_eq config model w :
  searchModel config model w
  = mkOutcome (fst (resolution_with_token_gate config w model)) w
              (snd (resolution_with_token_gate config w model)).
Proof.
  unfold searchModel, resolution_with_token_gate, resolution.
  set (q := cleanModelName (Name model)). set (t := Type_ model).
  assert (HB : searchCivit config model q w
    = match nameMatch (civit_search w q t) with
      | Some r => mkOutcome (Some r) w [EvCivitSearch q t]
      | None =>
          if (nonempty (Hash model) && nonempty (CivitAIToken config))%bool
          then mkOutcome
                 match civit_by_hash w (Hash model) with
                 | (Some r, None) => Some (withModelType t r)
                 | _ => None
                 end w [EvCivitSearch q t; EvCivitByHash (Hash model)]
          else mkOutcome None w [EvCivitSearch q t]
      end).
  { rewrite searchCivit_eq, searchByHash_eq. fold t.
    destruct (nameMatch _); [reflexivity|].
    destruct (_ && _)%bool; reflexivity. }
  destruct (nonempty (HuggingFaceToken config)).
  - unfold hfClient_SearchModels. rewrite !bind_eq.
    cbn [emit get ret result final trace app]. fold t.
    destruct (hf_search w q t) as [[|first rest] [e|]]; cbn [nameMatch];
      try reflexivity; rewrite HB;
      destruct (nameMatch (civit_search w q t)); try reflexivity;
      destruct (_ && _)%bool; reflexivity.
  - rewrite HB.
    destruct (nameMatch (civit_search w q t)); try reflexivity.
    destruct (_ && _)%bool; reflexivity.
Qed.

Lemma searchAll_eq config order : forall results w,
  searchAll config order results w
  = mkOutcome
      (fold_left (fun acc model =>
                    match fst (resolution_with_token_gate config w model) with
                    | Some r => <[Name model := r]> acc
                    | None => acc
                    end) order results)
      w
      (concat (map (fun model => snd (resolution_with_token_gate config w model)) order)).
Proof.
  induction order as [|model rest IH]; intros results w; [reflexivity|].
  cbn [searchAll fold_left map concat].
  rewrite bind_eq, searchModel_eq. cbn [result final trace].
  destruct (fst (resolution_with_token_gate config w model)); now rewrite IH.
Qed.

Lemma fold_results_lookup config w order : forall (results : gmap string SearchResult) name,
  fold_left (fun acc model =>
               match fst (resolution_with_token_gate config w model) with
               | Some r => <[Name model := r]> acc
               | None => acc
               end) order results !! name = None
  <-> results !! name = None /\
      forall model, In model order -> Name model = name ->
        fst (resolution_with_token_gate config w model) = None.
Proof.
  induction order as [|model rest IH]; intros results name; cbn [fold_left].
  - split; [intros H; split; [exact H | intros ? []] | intros [H _]; exact H].
  - rewrite IH. split.
    + intros [H1 H2]. 
      destruct (fst (resolution_with_token_gate config w model)) as [r|] eqn:E.
      * destruct (decide (Name model = name)) as [Heq|Hne].
        -- subst. rewrite lookup_insert_eq in H1. discriminate.
        -- rewrite lookup_insert_ne in H1 by exact Hne.
           split; [exact H1|]. intros m [<-|Hin] Hn; [contradiction|]. now apply H2.
      * split; [exact H1|]. intros m [<-|Hin] Hn; [exact E|]. now apply H2.
    + intros [H1 H2]. split.
      * destruct (fst (resolution_with_token_gate config w model)) as [r|] eqn:E;
          [|exact H1].
        destruct (decide (Name model = name)) as [Heq|Hne].
        -- specialize (H2 model (or_introl eq_refl) Heq). congruence.
        -- now rewrite lookup_insert_ne.
      * intros m Hin Hn. apply H2; [now right | exact Hn].
Qed.

Lemma fold_results_other config w order :
  forall (results : gmap string SearchResult) name,
  (forall model, In model order -> Name model <> name) ->
  fold_left (fun acc model =>
               match fst (resolution_with_token_gate config w model) with
               | Some r => <[Name model := r]> acc
               | None => acc
               end) order results !! name = results !! name.
Proof.
  induction order as [|model rest IH]; intros results name Hne; cbn [fold_left];
    [reflexivity|].
  rewrite IH by (intros m Hm; apply Hne; now right).
  destruct (fst (resolution_with_token_gate config w model)); [|reflexivity].
  apply lookup_insert_ne, Hne. now left.
Qed.

Lemma fold_results_found config w order :
  forall (results : gmap string SearchResult) model r,
  NoDup (map Name order) -> In model order ->
  fst (resolution_with_token_gate config w model) = Some r ->
  fold_left (fun acc model =>
               match fst (resolution_with_token_gate config w model) with
               | Some r => <[Name model := r]> acc
               | None => acc
               end) order results !! Name model = Some r.
Proof.
  induction order as [|m rest IH]; intros results model r Hnd Hin Hr; [destruct Hin|].
  cbn [fold_left]. cbn [map] in Hnd. apply NoDup_cons in Hnd as [Hnotin Hnd].
  destruct Hin as [<-|Hin].
  - rewrite Hr, fold_results_other.
    + apply lookup_insert_eq.
    + intros m' Hm' Heq. apply Hnotin. rewrite <- Heq.
      apply list_elem_of_In, in_map, Hm'.
  - now apply IH.
Qed.

End Search.


(** C8 (as amended).  For every missing reference, [searchModel] asks
    registry A first if and only if its credential is configured; if A was
    skipped or gave no match it asks registry B, whether or not B has a
    credential; the candidate is the first result of the first registry
    that matches; if neither name search matched, a hash lookup at registry B
    is made exactly when the reference carries a hash and registry B's
    credential is configured; nothing else is asked and no error is
    raised.  For every schedule of the concurrent searches, a name is
    absent from the result mapping exactly when no reference of that name
    found a candidate, and with pairwise distinct names each reference that
    found a candidate is mapped to it. *)
Theorem searchModels_resolution (config : Config) (models order : list Model)
    (w : World) :
  Permutation order models ->
  (forall model,
     searchModel config model w
     = mkOutcome (fst (resolution_with_token_gate config w model)) w
                 (snd (resolution_with_token_gate config w model))) /\
  final (searchModels config order w) = w /\
  (forall name,
     result (searchModels config order w) !! name = None
     <-> forall model, In model models -> Name model = name ->
           result (searchModel config model w) = None) /\
  (NoDup (map Name models) ->
   forall model r, In model models ->
     result (searchModel config model w) = Some r ->
     result (searchModels config order w) !! Name model = Some r).
Proof.
  intros Hperm. split; [intros model; apply searchModel_eq|].
  unfold searchModels. rewrite searchAll_eq. cbn [result final].
  split; [reflexivity|]. split.
  - intros name. rewrite fold_results_lookup. split.
    + intros [_ H] model Hin Hn. rewrite searchModel_eq. cbn [result].
      apply H; [|exact Hn]. eapply Permutation_in; [symmetry; exact Hperm | exact Hin].
    + intros H. split; [apply lookup_empty|].
      intros model Hin Hn.
      specialize (H model (Permutation_in _ Hperm Hin) Hn).
      now rewrite searchModel_eq in H.
  - intros Hnd model r Hin Hr. rewrite searchModel_eq in Hr. cbn [result] in Hr.
    apply fold_results_found; [| |exact Hr].
    + apply NoDup_ListNoDup. apply NoDup_ListNoDup in Hnd.
      eapply Permutation_NoDup; [|exact Hnd].
      apply Permutation_map. symmetry. exact Hperm.
    + eapply Permutation_in; [symmetry; exact Hperm | exact Hin].
Qed.

Lemma searchModels_resolution_witness :
  result (searchModels DefaultConfig [flatRef; hashedRef] hashOnlyWorld)
    !! "m.safetensors" = None.
Proof.
  apply (proj1 (proj2 (proj2
           (searchModels_resolution DefaultConfig [hashedRef; flatRef]
              [flatRef; hashedRef] hashOnlyWorld
              (perm_swap hashedRef flatRef [])))) "m.safetensors").
  intros model [<-|[<-|[]]] _; vm_compute; reflexivity.
Defined.

(** C8 (as stated) fails.  The reference carries a hash and no name search
    matches, so the resolution as specified makes the hash lookup and finds
    the candidate; [searchModel], without a credential for registry B, makes
    no hash lookup and finds nothing. *)
Lemma searchModel_not_as_specified :
  nonempty (Hash hashedRef) = true /\
  nameMatch (hf_search hashOnlyWorld (cleanModelName (Name hashedRef))
               (Type_ hashedRef)) = None /\
  nameMatch (civit_search hashOnlyWorld (cleanModelName (Name hashedRef))
               (Type_ hashedRef)) = None /\
  In (EvCivitByHash (Hash hashedRef))
     (snd (resolution_as_specified DefaultConfig hashOnlyWorld hashedRef)) /\
  ~ In (EvCivitByHash (Hash hashedRef))
       (trace (searchModel DefaultConfig hashedRef hashOnlyWorld)) /\
  fst (resolution_as_specified DefaultConfig hashOnlyWorld hashedRef)
    = Some (withModelType ModelTypeCheckpoint byHashCandidate) /\
  result (searchModel DefaultConfig hashedRef hashOnlyWorld) = None.
Proof.
  repeat split; try (vm_compute; reflexivity).
  - vm_compute. tauto.
  - vm_compute. intros [H|[]]. discriminate H.
Qed.

(* ===================================================================== *)
(** ** The footprint of one download attempt                              *)
(* ===================================================================== *)

Section Footprint.

Context {A B : Type} (P : Event -> Prop).

Lemma emits_ret (a : A) : emits_only P (ret a).
Proof. intros w. constructor. Qed.

Lemma emits_get : emits_only P get.
Proof. intros w. constructor. Qed.

Lemma emits_modify f : emits_only P (modify f).
Proof. intros w. constructor. Qed.

Lemma emits_emit ev : P ev -> emits_only P (emit ev).
Proof. intros H w. repeat constructor. exact H. Qed.

Lemma emits_bind (m : M A) (k : A -> M B) :
  emits_only P m -> (forall a, emits_only P (k a)) -> emits_only P (bind m k).
Proof.
  intros Hm Hk w. rewrite bind_trace. apply Forall_app. split; [apply Hm | apply Hk].
Qed.

End Footprint.

Ltac emits_step :=
  match goal with
  | |- emits_only _ (bind _ _) => apply emits_bind; [|intros ?]
  | |- emits_only _ (ret _) => apply emits_ret
  | |- emits_only _ get => apply emits_get
  | |- emits_only _ (modify _) => apply emits_modify
  | |- emits_only _ (emit _) => apply emits_emit
  | |- emits_only _ (match ?x with _ => _ end) => destruct x
  | |- emits_only _ (if ?x then _ else _) => destruct x
  end.

Ltac emits := repeat emits_step.

Section FootprintOfAttempt.

Variable model : Model.

Lemma emits_store l f : emits_only (inner_event model) (store l f).
Proof. unfold store. emits. Qed.

Lemma emits_onProgress l r d t : emits_only (inner_event model) (onProgress l r d t).
Proof. apply emits_store. Qed.

Lemma emits_os_Stat p :
  p = stagingPath model \/ p = helperPath model ->
  emits_only (inner_event model) (os_Stat p).
Proof. intros H. unfold os_Stat. emits. exact H. Qed.

Lemma emits_os_OpenFile flags :
  emits_only (inner_event model) (os_OpenFile (helperPath model) flags).
Proof. unfold os_OpenFile. emits; reflexivity. Qed.

Lemma emits_os_Write data :
  emits_only (inner_event model) (os_Write (helperPath model) data).
Proof. unfold os_Write. emits; reflexivity. Qed.

Lemma emits_os_Rename_helper :
  emits_only (inner_event model)
    (os_Rename (helperPath model) (stagingPath model)).
Proof.
  unfold os_Rename. apply emits_bind; [apply emits_get|]. intros w.
  apply emits_bind; [apply emits_emit; split; reflexivity|]. intros _.
  emits.
Qed.

Lemma emits_http_Do req :
  reqMethod req = "GET" ->
  (forall k v, In (k, v) (reqHeader req) -> k = "Authorization") ->
  emits_only (inner_event model) (http_Do req).
Proof. intros H1 H2. unfold http_Do. emits. split; assumption. Qed.

Lemma emits_copyLoop total cb reads ending :
  (forall d t, match cb with
               | Some f => emits_only (inner_event model) (f d t)
               | None => True
               end) ->
  forall downloaded,
  emits_only (inner_event model)
    (copyLoop (helperPath model) total cb reads ending downloaded).
Proof.
  intros Hcb. induction reads as [|buf rest IH]; intros downloaded;
    cbn [copyLoop].
  - emits.
  - destruct (0 <? Z_length buf); [|apply IH].
    apply emits_bind; [apply emits_os_Write|]. intros [e|]; [apply emits_ret|].
    apply emits_bind; [|intros _; apply IH].
    specialize (Hcb (wrap64 (downloaded + Z_length buf)) total).
    destruct cb; [exact Hcb | apply emits_ret].
Qed.

Lemma emits_downloadFile reader total cb :
  (forall d t, match cb with
               | Some f => emits_only (inner_event model) (f d t)
               | None => True
               end) ->
  emits_only (inner_event model)
    (downloadFile reader (stagingPath model) total cb).
Proof.
  intros Hcb. unfold downloadFile. fold (helperPath model).
  apply emits_bind; [apply emits_os_Stat; now right|]. intros st.
  apply emits_bind; [apply emits_os_OpenFile|]. intros [e|]; [apply emits_ret|].
  apply emits_bind; [now apply emits_copyLoop|]. intros [e|]; [apply emits_ret|].
  apply emits_bind; [apply emits_os_Rename_helper|]. intros [e|]; apply emits_ret.
Qed.

Lemma bearer_header token k v : In (k, v) (bearer token) -> k = "Authorization".
Proof. intros [H|[]]. now inversion H. Qed.

Lemma emits_hfClient_DownloadFile token url cb :
  (forall d t, match cb with
               | Some f => emits_only (inner_event model) (f d t)
               | None => True
               end) ->
  emits_only (inner_event model)
    (hfClient_DownloadFile token url (stagingPath model) cb).
Proof.
  intros Hcb. unfold hfClient_DownloadFile.
  apply emits_bind.
  - apply emits_http_Do; [reflexivity|]. cbn [reqHeader].
    destruct (nonempty token); [intros k v; apply bearer_header | intros ? ? []].
  - intros [resp|e]; [|apply emits_ret].
    destruct (negb _); [apply emits_ret | now apply emits_downloadFile].
Qed.

Lemma emits_civitClient_DownloadFile token url cb :
  (forall d t, match cb with
               | Some f => emits_only (inner_event model) (f d t)
               | None => True
               end) ->
  emits_only (inner_event model)
    (civitClient_DownloadFile token url (stagingPath model) cb).
Proof.
  intros Hcb. unfold civitClient_DownloadFile.
  apply emits_bind.
  - apply emits_http_Do.
    + destruct (nonempty token); [destruct (negb _)|]; reflexivity.
    + destruct (nonempty token); [destruct (negb _)|]; cbn [reqHeader];
        intros k v Hkv; try (destruct Hkv; fail); exact (bearer_header _ _ _ Hkv).
  - intros [resp|e]; [|apply emits_ret].
    destruct (negb _); [apply emits_ret | now apply emits_downloadFile].
Qed.

End FootprintOfAttempt.

(** One call of [performDownload]: its trace is the footprint of the
    download followed, if the download succeeded, by the final rename. *)
Lemma performDownload_trace config job progress w :
  attempt_trace (fst job)
    (trace (performDownload config job progress w))
    (result (performDownload config job progress w)).
Proof.
  unfold performDownload. fold (stagingPath (fst job)).
  set (model := fst job). set (tmp := stagingPath model).
  rewrite !bind_eq. cbn [result final trace].
  set (o1 := os_Stat tmp w).
  set (resumeFrom := match result o1 with StatOk info => fiSize info | StatErr _ => 0 end).
  set (o2 := match result o1 with
             | StatOk _ => store progress (setDownloaded resumeFrom)
             | StatErr _ => ret tt
             end (final o1)).
  set (dl := (if String.eqb (srSource (snd job)) "huggingface"
              then hfClient_DownloadFile (HuggingFaceToken config)
                     (srDownloadURL (snd job)) tmp
                     (Some (onProgress progress resumeFrom))
              else if String.eqb (srSource (snd job)) "civitai"
                   then civitClient_DownloadFile (CivitAIToken config)
                          (srDownloadURL (snd job)) tmp
                          (Some (onProgress progress resumeFrom))
                   else ret (Some ("unknown source: " +:+ srSource (snd job))))
               (final o2)).
  assert (H1 : Forall (inner_event model) (trace o1))
    by (apply emits_os_Stat; now left).
  assert (H2 : Forall (inner_event model) (trace o2)).
  { subst o2. destruct (result o1); [apply emits_store | apply emits_ret]. }
  assert (H3 : Forall (inner_event model) (trace dl)).
  { subst dl.
    destruct (String.eqb _ "huggingface");
      [apply emits_hfClient_DownloadFile; intros; apply emits_onProgress|].
    destruct (String.eqb _ "civitai");
      [apply emits_civitClient_DownloadFile; intros; apply emits_onProgress|].
    apply emits_ret. }
  assert (Hin : Forall (inner_event model) (trace o1 ++ trace o2 ++ trace dl)).
  { apply Forall_app; split; [exact H1|]. apply Forall_app; split; assumption. }
  destruct (result dl) as [e|] eqn:Edl.
  - exists (trace o1 ++ trace o2 ++ trace dl). split; [exact Hin|]. left.
    cbn [ret result trace]. rewrite !app_nil_r. split; [reflexivity | discriminate].
  - rewrite !bind_eq. cbn [result final trace].
    set (rn := os_Rename tmp (LocalPath model) (final dl)).
    assert (Hrn : trace rn = [EvRename tmp (LocalPath model) (result rn)]).
    { subst rn. unfold os_Rename. rewrite !bind_eq.
      cbn [get emit result final trace app].
      destruct (rename_fault (final dl) tmp (LocalPath model)) as [e|];
        [reflexivity|].
      destruct (files (final dl) !! tmp) as [[d| |e]|];
        destruct (files (final dl) !! LocalPath model) as [[d'| |e']|];
        reflexivity. }
    exists (trace o1 ++ trace o2 ++ trace dl). split; [exact Hin|]. right.
    rewrite Hrn. destruct (result rn) as [m|]; [right; exists m | left];
      cbn [ret result trace]; rewrite ?app_nil_r, <- ?app_assoc; split; reflexivity.
Qed.
(* ===================================================================== *)
(** ** The retry loop                                                     *)
(* ===================================================================== *)

Section RetryLoop.

Variable config : Config.
Variable job : DownloadJob.
Variable progress : loc.

Let R := RetryAttempts config.
Let model := fst job.

Lemma pause_eq k w :
  (if 0 <? k then time_Sleep (backoff k) else ret tt) w
  = mkOutcome tt w (pause k).
Proof. unfold pause. destruct (0 <? k); reflexivity. Qed.

(** One iteration of the loop, unfolded. *)
Lemma retryLoop_step fuel k last w :
  k < R ->
  let a := performDownload config job progress w in
  retryLoop config job progress (S fuel) k last w
  = match result a with
    | None =>
        mkOutcome None
          (final (store progress (setCompleted true) (final a)))
          (pause k ++ EvAttempt k :: trace a ++ [EvAttemptDone k None])
    | Some e =>
        let w' := final (store progress (setError (Some e)) (final a)) in
        if isUnrecoverableError e then
          mkOutcome (Some e) w'
            (pause k ++ EvAttempt k :: trace a ++ [EvAttemptDone k (Some e)])
        else
          let r := retryLoop config job progress fuel (k + 1) (Some e) w' in
          mkOutcome (result r) (final r)
            (pause k ++ EvAttempt k :: trace a
               ++ EvAttemptDone k (Some e) :: trace r)
    end.
Proof.
  intros Hk a. cbn [retryLoop]. fold R.
  apply Z.ltb_lt in Hk. rewrite Hk.
  rewrite bind_eq, pause_eq. cbn [result final trace].
  rewrite !bind_eq. cbn [emit result final trace]. fold a.
  destruct (result a) as [e|].
  - rewrite !bind_eq. cbn [result final trace store modify app].
    destruct (isUnrecoverableError e); cbn [ret result final trace];
      rewrite ?app_nil_r; reflexivity.
  - rewrite !bind_eq. cbn [result final trace store modify ret app].
    reflexivity.
Qed.

Lemma retryLoop_done fuel k last w :
  R <= k -> retryLoop config job progress fuel k last w = mkOutcome last w [].
Proof.
  intros Hk. destruct fuel; [reflexivity|]. cbn [retryLoop]. fold R.
  apply Z.ltb_ge in Hk. now rewrite Hk.
Qed.

(** The fuel [downloadModel] passes is enough: more fuel changes nothing. *)
Lemma retryLoop_fuel fuel : forall fuel' k last w,
  (Z.to_nat (R - k) <= fuel)%nat -> (Z.to_nat (R - k) <= fuel')%nat ->
  retryLoop config job progress fuel k last w
  = retryLoop config job progress fuel' k last w.
Proof.
  induction fuel as [|fuel IH]; intros fuel' k last w H1 H2.
  - rewrite !retryLoop_done by lia. reflexivity.
  - destruct (Z.lt_ge_cases k R) as [Hk|Hk];
      [|rewrite !retryLoop_done by lia; reflexivity].
    destruct fuel' as [|fuel']; [lia|].
    rewrite !retryLoop_step by exact Hk. cbv zeta.
    destruct (result (performDownload config job progress w)) as [e|];
      [|reflexivity].
    destruct (isUnrecoverableError e); [reflexivity|].
    rewrite (IH fuel') by lia. reflexivity.
Qed.

(** The loop's trace is a [Run]. *)
Lemma retryLoop_Run fuel : forall k last w,
  (Z.to_nat (R - k) <= fuel)%nat ->
  Run R model k (trace (retryLoop config job progress fuel k last w)).
Proof.
  induction fuel as [|fuel IH]; intros k last w Hfuel.
  - rewrite retryLoop_done by lia. apply Run_exhausted. lia.
  - destruct (Z.lt_ge_cases k R) as [Hk|Hk];
      [|rewrite retryLoop_done by lia; now apply Run_exhausted].
    rewrite retryLoop_step by exact Hk. cbv zeta.
    pose proof (performDownload_trace config job progress w) as Ha.
    fold model in Ha.
    destruct (result (performDownload config job progress w)) as [e|].
    + destruct (isUnrecoverableError e) eqn:Eu; cbn [trace].
      * now apply Run_terminal.
      * apply Run_retry; [exact Hk | exact Ha | exact Eu |]. apply IH. lia.
    + cbn [trace]. now apply Run_success.
Qed.

End RetryLoop.

(** [downloadModel] creates the directory and then runs the loop from
    iteration [0]; if the directory cannot be created nothing else
    happens. *)
Lemma downloadModel_trace config job w :
  exists tr,
    trace (downloadModel config job w)
      = EvMkdirAll (GoFilepath.Dir (LocalPath (fst job))) :: tr /\
    (tr = [] \/ Run (RetryAttempts config) (fst job) 0 tr).
Proof.
  unfold downloadModel. rewrite bind_eq.
  assert (Hreg : trace (registerProgress job w) = []) by reflexivity.
  rewrite Hreg. cbn [app trace].
  set (p := result (registerProgress job w)).
  set (w1 := final (registerProgress job w)).
  rewrite bind_eq. cbn [trace].
  assert (Hmk : trace (os_MkdirAll (GoFilepath.Dir (LocalPath (fst job))) w1)
                = [EvMkdirAll (GoFilepath.Dir (LocalPath (fst job)))]).
  { unfold os_MkdirAll. rewrite !bind_eq. cbn [emit get result final trace app].
    destruct (mkdir_fault w1 _); [reflexivity|].
    destruct (files w1 !! _) as [[ | | ]|]; reflexivity. }
  rewrite Hmk. cbn [app].
  destruct (result (os_MkdirAll _ w1)) as [e|].
  - exists []. split; [reflexivity | now left].
  - eexists. split; [reflexivity|]. right. apply retryLoop_Run.
    rewrite Z.sub_0_r. lia.
Qed.

(* ===================================================================== *)
(** ** Reading a run                                                      *)
(* ===================================================================== *)

Section Locate.

Context {X : Type}.

(** Where a marked element of a concatenation lies. *)
Lemma locate_app (x : X) pre post l1 l2 :
  pre ++ x :: post = l1 ++ l2 ->
  (exists mid, l1 = pre ++ x :: mid /\ post = mid ++ l2) \/
  (exists mid, pre = l1 ++ mid /\ l2 = mid ++ x :: post).
Proof.
  revert pre. induction l1 as [|y l1 IH]; intros pre H.
  - right. exists pre. split; [reflexivity | symmetry; exact H].
  - destruct pre as [|p pre]; cbn in H.
    + injection H as -> ->. left. exists l1. split; reflexivity.
    + injection H as -> H. destruct (IH _ H) as [(mid & -> & ->)|(mid & -> & ->)].
      * left. exists mid. split; reflexivity.
      * right. exists mid. split; reflexivity.
Qed.


Lemma locate_cons (x y : X) pre post l :
  pre ++ x :: post = y :: l ->
  (pre = [] /\ x = y /\ post = l) \/
  (exists mid, pre = y :: mid /\ l = mid ++ x :: post).
Proof.
  destruct pre as [|p pre]; cbn; intros H; injection H as -> <-.
  - left. repeat split.
  - right. exists pre. split; reflexivity.
Qed.

Lemma nothing_in_nil (x : X) mid post : [] = mid ++ x :: post -> False.
Proof. destruct mid; discriminate. Qed.

End Locate.

Section ReadingARun.

Variable R : Z.
Variable model : Model.

Lemma string_app_ne (s t : string) : t <> "" -> s <> s +:+ t.
Proof.
  intros Ht. induction s as [|a s IH].
  - intros H. apply Ht. symmetry. exact H.
  - intros H. apply IH. change (String a s = String a (s +:+ t)) in H.
    now injection H.
Qed.


Lemma inner_event_not_ctl ev : inner_event model ev -> is_ctl ev = false.
Proof. destruct ev; cbn; tauto. Qed.

Lemma attempt_trace_not_ctl body err :
  attempt_trace model body err -> Forall (fun ev => is_ctl ev = false) body.
Proof.
  intros (inner & Hin & H).
  assert (Hin' : Forall (fun ev => is_ctl ev = false) inner).
  { eapply List.Forall_impl; [|exact Hin]. apply inner_event_not_ctl. }
  destruct H as [[-> _]|[[-> _]|(m & -> & _)]]; [exact Hin'| |];
    apply Forall_app; split; try exact Hin'; repeat constructor.
Qed.

(** Where an event of one iteration followed by the rest of the run lies. *)
Lemma locate_iteration x pre post k body err rest :
  pre ++ x :: post = pause k ++ EvAttempt k :: body ++ EvAttemptDone k err :: rest ->
  (x = EvSleep (backoff k) /\ pre = [] /\ pause k = [x] /\
   post = EvAttempt k :: body ++ EvAttemptDone k err :: rest) \/
  (x = EvAttempt k /\ pre = pause k /\
   post = body ++ EvAttemptDone k err :: rest) \/
  (exists b1 b2, body = b1 ++ x :: b2 /\ pre = pause k ++ EvAttempt k :: b1 /\
   post = b2 ++ EvAttemptDone k err :: rest) \/
  (x = EvAttemptDone k err /\ pre = pause k ++ EvAttempt k :: body /\ post = rest) \/
  (exists mid, pre = pause k ++ EvAttempt k :: body ++ EvAttemptDone k err :: mid /\
   rest = mid ++ x :: post).
Proof.
  intros H.
  destruct (locate_app _ _ _ _ _ H) as [(mid & Hp & ->)|(mid & -> & H1)].
  - left. unfold pause in *. destruct (0 <? k); [|now apply nothing_in_nil in Hp].
    destruct pre as [|p pre]; [|destruct pre; discriminate].
    cbn in Hp. injection Hp as <- <-. repeat split.
  - symmetry in H1. apply locate_cons in H1.
    destruct H1 as [(-> & -> & ->)|(mid1 & -> & H2)].
    + right; left. rewrite app_nil_r. repeat split.
    + symmetry in H2.
      destruct (locate_app _ _ _ _ _ H2) as [(b2 & -> & ->)|(mid2 & -> & H3)].
      * right; right; left. exists mid1, b2. repeat split.
      * symmetry in H3. apply locate_cons in H3.
        destruct H3 as [(-> & -> & ->)|(mid3 & -> & ->)].
        -- right; right; right; left. rewrite app_nil_r. repeat split.
        -- right; right; right; right. exists mid3. split; reflexivity.
Qed.

Lemma Run_over k tr : Run R model k tr -> R <= k -> tr = [].
Proof. intros H Hk. destruct H; [reflexivity | lia..]. Qed.

Lemma Run_head k tr :
  Run R model k tr -> k < R -> exists tl, tr = pause k ++ EvAttempt k :: tl.
Proof. intros H Hk. destruct H; [lia|eauto..]. Qed.

Lemma attempts_app l1 l2 : attempts (l1 ++ l2) = (attempts l1 + attempts l2)%nat.
Proof. unfold attempts. now rewrite List.filter_app, length_app. Qed.

Lemma attempts_not_ctl l :
  Forall (fun ev => is_ctl ev = false) l -> attempts l = 0%nat.
Proof.
  induction 1 as [|ev l Hev _ IH]; [reflexivity|].
  unfold attempts in *. cbn [List.filter].
  destruct ev; cbn in *; try discriminate; exact IH.
Qed.

Lemma attempts_pause k : attempts (pause k) = 0%nat.
Proof. unfold pause. now destruct (0 <? k). Qed.

(** The number of attempts of a run from iteration [k] is at most the
    number of iterations left. *)
Lemma Run_attempts k tr :
  Run R model k tr -> (attempts tr <= Z.to_nat (R - k))%nat.
Proof.
  induction 1 as [k Hk|k body Hk Hb|k body e Hk Hb He|k body e rest Hk Hb He Hr IH];
    rewrite ?attempts_app, ?attempts_pause; [cbn; lia| | |];
    change (attempts (EvAttempt k :: ?l)) with (S (attempts l));
    rewrite attempts_app, (attempts_not_ctl _ (attempt_trace_not_ctl _ _ Hb)).
  - cbn. lia.
  - cbn. lia.
  - change (attempts (EvAttemptDone k (Some e) :: rest)) with (attempts rest).
    lia.
Qed.

(** Before each attempt: nothing but the pause for the first iteration of
    the run; for a later one the outcome of the attempt before, then the
    pause. *)
Lemma Run_before_attempt k tr :
  Run R model k tr ->
  forall pre j post, tr = pre ++ EvAttempt j :: post ->
  k <= j < R /\
  ((j = k /\ pre = pause k) \/
   (k < j /\ exists pre' e,
      pre = pre' ++ EvAttemptDone (j - 1) (Some e) :: pause j)).
Proof.
  induction 1 as [k Hk|k body Hk Hb|k body e Hk Hb He|k body e rest Hk Hb He Hr IH];
    intros pre j post Heq; [now apply nothing_in_nil in Heq| | |];
    symmetry in Heq; apply locate_iteration in Heq;
    destruct Heq as [(Hx & _)|[(Hx & -> & _)|[(b1 & b2 & -> & _)|[(Hx & _)|(mid & -> & Hrest)]]]];
    try discriminate Hx;
    try (injection Hx as ->; split; [lia | left; split; reflexivity]);
    try (apply attempt_trace_not_ctl in Hb; rewrite Forall_app, Forall_cons in Hb;
         destruct Hb as (_ & Hb & _); discriminate Hb);
    try (now apply nothing_in_nil in Hrest).
  destruct (IH _ _ _ Hrest) as (Hj & [(-> & ->)|(Hlt & pre' & e' & ->)]).
  - split; [lia|]. right. split; [lia|].
    exists (pause k ++ EvAttempt k :: body), e.
    replace (k + 1 - 1) with k by lia. rewrite <- app_assoc. reflexivity.
  - split; [lia|]. right. split; [lia|].
    exists (pause k ++ EvAttempt k :: body ++ EvAttemptDone k (Some e) :: pre'), e'.
    rewrite <- !app_assoc. cbn [app]. rewrite <- !app_assoc. reflexivity.
Qed.

(** After the outcome of an attempt. *)
Lemma Run_after_outcome k tr :
  Run R model k tr -> 0 <= k ->
  forall pre j err post, tr = pre ++ EvAttemptDone j err :: post ->
  k <= j < R /\
  match err with
  | None => post = []
  | Some e =>
      if isUnrecoverableError e then post = []
      else if j + 1 <? R
           then exists post',
                  post = EvSleep (backoff (j + 1)) :: EvAttempt (j + 1) :: post'
           else post = []
  end.
Proof.
  induction 1 as [k Hk|k body Hk Hb|k body e Hk Hb He|k body e rest Hk Hb He Hr IH];
    intros H0 pre j err post Heq; [now apply nothing_in_nil in Heq| | |];
    symmetry in Heq; apply locate_iteration in Heq;
    destruct Heq as [(Hx & _)|[(Hx & _)|[(b1 & b2 & -> & _)|[(Hx & _ & Hpost)|(mid & -> & Hrest)]]]];
    try discriminate Hx;
    try (apply attempt_trace_not_ctl in Hb; rewrite Forall_app, Forall_cons in Hb;
         destruct Hb as (_ & Hb & _); discriminate Hb);
    try (now apply nothing_in_nil in Hrest).
  - injection Hx as -> ->. split; [lia | exact Hpost].
  - injection Hx as -> ->. split; [lia|]. rewrite He. exact Hpost.
  - injection Hx as -> ->. split; [lia|]. rewrite He. subst post.
    destruct (k + 1 <? R) eqn:E.
    + apply Z.ltb_lt in E. destruct (Run_head _ _ Hr E) as (tl & ->).
      unfold pause. assert (E0 : (0 <? k + 1) = true) by (apply Z.ltb_lt; lia).
      rewrite E0. cbn [app]. eauto.
    + apply Z.ltb_ge in E. exact (Run_over _ _ Hr E).
  - destruct (IH ltac:(lia) _ _ _ _ Hrest) as (Hj & Hpost). split; [lia | exact Hpost].
Qed.


End ReadingARun.

(* ===================================================================== *)
(** ** Terminal signatures                                                *)
(* ===================================================================== *)

Section Signatures.
Import GoStrings.

Lemma append_nil_l (s : string) : "" +:+ s = s.
Proof. reflexivity. Qed.

Lemma append_cons (a : ascii) (s t : string) :
  String a s +:+ t = String a (s +:+ t).
Proof. reflexivity. Qed.

Lemma HasPrefix_spec s p :
  HasPrefix s p = true <-> exists rest, s = p +:+ rest.
Proof.
  revert s. induction p as [|b p IH]; intros s.
  - split; [intros _; exists s; reflexivity | now destruct s].
  - destruct s as [|a s]; cbn [HasPrefix].
    + split; [discriminate | intros (rest & H); discriminate H].
    + rewrite andb_true_iff, IH. split.
      * intros (Hab & rest & ->). apply Ascii.eqb_eq in Hab as ->.
        exists rest. reflexivity.
      * intros (rest & H). rewrite append_cons in H. injection H as -> ->.
        split; [apply Ascii.eqb_refl | eauto].
Qed.

Lemma Contains_spec s sub :
  Contains s sub = true <-> exists before after, s = before +:+ sub +:+ after.
Proof.
  induction s as [|a s IH].
  - cbn [Contains]. rewrite orb_false_r, HasPrefix_spec. split.
    + intros (rest & H). exists "", rest. exact H.
    + intros (before & after & H). destruct before; [eauto|discriminate H].
  - cbn [Contains]. rewrite orb_true_iff, HasPrefix_spec, IH. split.
    + intros [(rest & H)|(before & after & ->)].
      * exists "", rest. exact H.
      * exists (String a before), after. reflexivity.
    + intros (before & after & H). destruct before as [|b before].
      * left. eauto.
      * right. rewrite append_cons in H. injection H as -> ->. eauto.
Qed.

Lemma ToLower_app s t : ToLower (s +:+ t) = ToLower s +:+ ToLower t.
Proof.
  induction s as [|a s IH]; [reflexivity|].
  rewrite append_cons. cbn [ToLower]. now rewrite IH, append_cons.
Qed.

Lemma ToLower_app_inv s : forall a b,
  ToLower s = a +:+ b ->
  exists a0 b0, s = a0 +:+ b0 /\ ToLower a0 = a /\ ToLower b0 = b.
Proof.
  intros a. revert s. induction a as [|c a IH]; intros s b H.
  - exists "", s. repeat split. exact H.
  - destruct s as [|d s]; [discriminate H|].
    rewrite append_cons in H. cbn [ToLower] in H. injection H as Hc H.
    destruct (IH _ _ H) as (a0 & b0 & -> & <- & <-).
    exists (String d a0), b0. cbn [ToLower]. rewrite Hc. repeat split.
Qed.

Lemma signatures_lower sig :
  In sig terminal_signatures -> ToLower sig = sig /\ In sig unrecoverableErrors.
Proof.
  intros H. cbn in H.
  repeat (destruct H as [<-|H]; [split; [reflexivity | cbn; tauto]|]).
  destruct H.
Qed.

Lemma unrecoverable_signature sig :
  In sig unrecoverableErrors -> In sig terminal_signatures.
Proof. cbn. tauto. Qed.

(** [isUnrecoverableError] recognises exactly the messages in which one of
    the six signatures occurs, case ignored. *)
Lemma isUnrecoverableError_spec msg :
  isUnrecoverableError msg = true <-> terminal_classified msg.
Proof.
  unfold isUnrecoverableError, terminal_classified, occurs_ignoring_case.
  rewrite existsb_exists. split.
  - intros (sig & Hin & Hc). apply Contains_spec in Hc as (a & b & Hc).
    apply ToLower_app_inv in Hc as (before & rest & -> & <- & Hc).
    apply ToLower_app_inv in Hc as (mid & after & -> & Hm & <-).
    apply unrecoverable_signature in Hin.
    exists sig. split; [exact Hin|]. exists before, mid, after.
    split; [reflexivity|]. rewrite Hm. symmetry.
    now apply signatures_lower.
  - intros (sig & Hin & before & mid & after & -> & Hm).
    apply signatures_lower in Hin as (Hl & Hin).
    exists sig. split; [exact Hin|]. apply Contains_spec.
    exists (ToLower before), (ToLower after).
    rewrite !ToLower_app, Hm, Hl. reflexivity.
Qed.

Lemma isUnrecoverableError_false msg :
  isUnrecoverableError msg = false <-> ~ terminal_classified msg.
Proof.
  rewrite <- isUnrecoverableError_spec.
  destruct (isUnrecoverableError msg); split; congruence.
Qed.

End Signatures.

Lemma wrap64_small z :
  -9223372036854775808 <= z < 9223372036854775808 -> wrap64 z = z.
Proof. intros H. unfold wrap64. rewrite Z.mod_small; lia. Qed.

(** Up to attempt 4611686018 the pause is the attempt number times two
    seconds; the product in nanoseconds then still fits 64 bits. *)
Lemma backoff_seconds k :
  0 <= k <= 4611686018 -> backoff k = k * 2 * Second.
Proof.
  intros H. unfold backoff, Second.
  rewrite (wrap64_small (k * 2)) by lia. rewrite wrap64_small; lia.
Qed.

(* ===================================================================== *)
(** ** Retry policy of a transfer job                                     *)
(* ===================================================================== *)

(** The run of a job after the directory is made. *)
Lemma downloadModel_run config job w pre x post :
  trace (downloadModel config job w) = pre ++ x :: post ->
  is_ctl x = true \/ (exists old new m, x = EvRename old new m) ->
  exists pre',
    pre = EvMkdirAll (GoFilepath.Dir (LocalPath (fst job))) :: pre' /\
    Run (RetryAttempts config) (fst job) 0 (pre' ++ x :: post).
Proof.
  intros Heq Hx.
  destruct (downloadModel_trace config job w) as (tr & Htr & Hrun).
  rewrite Htr in Heq. symmetry in Heq. apply locate_cons in Heq.
  destruct Heq as [(_ & -> & _)|(pre' & -> & ->)].
  - exfalso. destruct Hx as [Hx|(? & ? & ? & Hx)]; discriminate Hx.
  - exists pre'. split; [reflexivity|].
    destruct Hrun as [Hnil|Hrun]; [|exact Hrun].
    symmetry in Hnil. now apply nothing_in_nil in Hnil.
Qed.

(** C3.  The default limit is 3.  A job makes at most [RetryAttempts]
    attempts.  Attempt [0] follows the creation of the directory at once;
    before every later attempt [k] there is, after the failure of attempt
    [k - 1], exactly one pause, of [backoff k] nanoseconds, which is [k * 2]
    seconds as long as that product fits the 64-bit duration
    ([k <= 4611686018]). *)
Theorem retry_limit_and_backoff (config : Config) (job : DownloadJob) (w : World) :
  RetryAttempts DefaultConfig = 3 /\
  Z.of_nat (attempts (trace (downloadModel config job w)))
    <= Z.max 0 (RetryAttempts config) /\
  forall pre k post,
    trace (downloadModel config job w) = pre ++ EvAttempt k :: post ->
    0 <= k < RetryAttempts config /\
    (k = 0 -> pre = [EvMkdirAll (GoFilepath.Dir (LocalPath (fst job)))]) /\
    (1 <= k ->
     exists pre' e,
       pre = pre' ++ [EvAttemptDone (k - 1) (Some e); EvSleep (backoff k)]) /\
    (1 <= k <= 4611686018 ->
     exists pre' e,
       pre = pre' ++ [EvAttemptDone (k - 1) (Some e); EvSleep (k * 2 * Second)]).
Proof.
  split; [reflexivity|]. split.
  - destruct (downloadModel_trace config job w) as (tr & -> & Hrun).
    change (attempts (EvMkdirAll ?d :: tr)) with (attempts tr).
    destruct Hrun as [->|Hrun]; [cbn; lia|].
    apply Run_attempts in Hrun. rewrite Z.sub_0_r in Hrun. lia.
  - intros pre k post Heq.
    destruct (downloadModel_run _ _ _ _ _ _ Heq (or_introl eq_refl))
      as (pre' & -> & Hrun).
    destruct (Run_before_attempt _ _ _ _ Hrun _ _ _ eq_refl)
      as (Hk & [(-> & ->)|(Hlt & p & e & ->)]).
    + split; [exact Hk|]. split; [reflexivity|]. split; intros; lia.
    + assert (Hp : pause k = [EvSleep (backoff k)]).
      { unfold pause. assert (E : (0 <? k) = true) by (apply Z.ltb_lt; lia).
        now rewrite E. }
      rewrite Hp. split; [exact Hk|]. split; [intros; lia|]. split.
      * intros _. exists (EvMkdirAll (GoFilepath.Dir (LocalPath (fst job))) :: p), e.
        reflexivity.
      * intros Hb. rewrite backoff_seconds by lia.
        exists (EvMkdirAll (GoFilepath.Dir (LocalPath (fst job))) :: p), e.
        reflexivity.
Qed.

Lemma retry_limit_and_backoff_witness :
  exists pre post,
    trace (downloadModel DefaultConfig flatJob flakierWorld)
      = pre ++ EvAttempt 2 :: post /\
    exists pre' e,
      pre = pre' ++ [EvAttemptDone 1 (Some e); EvSleep 4000000000].
Proof.
  set (tr := trace (downloadModel DefaultConfig flatJob flakierWorld)).
  exists (firstn 17 tr), (skipn 18 tr).
  assert (H : tr = firstn 17 tr ++ EvAttempt 2 :: skipn 18 tr)
    by (vm_compute; reflexivity).
  split; [exact H|].
  destruct (retry_limit_and_backoff DefaultConfig flatJob flakierWorld)
    as (_ & _ & Hall).
  destruct (Hall _ _ _ H) as (_ & _ & _ & Hsec).
  apply Hsec. lia.
Defined.

(** C4.  For an attempt that failed with the (ASCII) message [e]: if one
    of 401, 403, 404, "not found", "forbidden", "unauthorized" occurs in
    [e], case ignored, the job ends there; otherwise, while the limit allows
    another attempt, the pause and attempt [k + 1] follow, and at the limit
    the job ends. *)
Theorem retry_classification (config : Config) (job : DownloadJob) (w : World)
    (pre : list Event) (k : Z) (e : string) (post : list Event) :
  trace (downloadModel config job w) = pre ++ EvAttemptDone k (Some e) :: post ->
  is_ascii e = true ->
  (terminal_classified e -> post = []) /\
  (~ terminal_classified e -> k + 1 < RetryAttempts config ->
   exists post', post = EvSleep (backoff (k + 1)) :: EvAttempt (k + 1) :: post') /\
  (~ terminal_classified e -> RetryAttempts config <= k + 1 -> post = []).
Proof.
  intros Heq _.
  destruct (downloadModel_run _ _ _ _ _ _ Heq (or_introl eq_refl))
    as (pre' & -> & Hrun).
  destruct (Run_after_outcome _ _ _ _ Hrun (Z.le_refl 0) _ _ _ _ eq_refl)
    as (Hk & Hpost).
  destruct (isUnrecoverableError e) eqn:Eu.
  - apply isUnrecoverableError_spec in Eu.
    split; [intros _; exact Hpost|]. split; intros Hn; contradiction.
  - apply isUnrecoverableError_false in Eu.
    split; [intros Ht; contradiction|]. split; intros _ Hlim.
    + apply Z.ltb_lt in Hlim. rewrite Hlim in Hpost. exact Hpost.
    + apply Z.ltb_ge in Hlim. rewrite Hlim in Hpost. exact Hpost.
Qed.

(** A broken connection is retried: the pause and attempt 1 follow. *)
Lemma retry_classification_witness :
  exists pre post,
    trace (downloadModel DefaultConfig flatJob flakyWorld)
      = pre ++ EvAttemptDone 0 (Some "unexpected EOF") :: post /\
    is_ascii "unexpected EOF" = true /\
    ~ terminal_classified "unexpected EOF" /\
    0 + 1 < RetryAttempts DefaultConfig /\
    exists post', post = EvSleep (backoff (0 + 1)) :: EvAttempt (0 + 1) :: post'.
Proof.
  set (tr := trace (downloadModel DefaultConfig flatJob flakyWorld)).
  exists (firstn 7 tr), (skipn 8 tr).
  assert (H : tr = firstn 7 tr ++ EvAttemptDone 0 (Some "unexpected EOF") :: skipn 8 tr)
    by (vm_compute; reflexivity).
  assert (Hasc : is_ascii "unexpected EOF" = true) by reflexivity.
  assert (Hnt : ~ terminal_classified "unexpected EOF")
    by (apply isUnrecoverableError_false; vm_compute; reflexivity).
  assert (Hlim : 0 + 1 < RetryAttempts DefaultConfig) by (vm_compute; reflexivity).
  repeat (split; [assumption|]).
  exact (proj1 (proj2 (retry_classification DefaultConfig flatJob flakyWorld
                         (firstn 7 tr) 0 "unexpected EOF" (skipn 8 tr) H Hasc))
           Hnt Hlim).
Defined.

(** A 404 ends the job after the first attempt. *)
Example not_found_is_not_retried :
  result (downloadModel DefaultConfig flatJob goneWorld)
    = Some "download failed: 404 Not Found" /\
  attempts (trace (downloadModel DefaultConfig flatJob goneWorld)) = 1%nat.
Proof. split; vm_compute; reflexivity. Qed.




(* ===================================================================== *)
(** ** Staging, resumption and publication                                *)
(* ===================================================================== *)

Lemma in_attempt_body model body err ev :
  attempt_trace model body err -> In ev body ->
  inner_event model ev \/
  exists m, ev = EvRename (stagingPath model) (LocalPath model) m.
Proof.
  intros (inner & Hin & H) Hev.
  rewrite List.Forall_forall in Hin.
  destruct H as [[-> _]|[[-> _]|(m & -> & _)]]; [left; auto| |];
    apply in_app_or in Hev as [Hev|[<-|[]]]; eauto.
Qed.

(** Every request of an attempt is a plain GET whose only possible header
    is the authorization: no attempt tells the server where to continue. *)
Lemma requests_carry_no_offset config job progress w req :
  In (EvRequest req) (trace (performDownload config job progress w)) ->
  reqMethod req = "GET" /\
  forall k v, In (k, v) (reqHeader req) -> k = "Authorization".
Proof.
  intros H.
  destruct (in_attempt_body _ _ _ _ (performDownload_trace config job progress w) H)
    as [Hin|(m & Hm)]; [exact Hin | discriminate Hm].
Qed.

Lemma no_continuation_offset config job progress w req :
  In (EvRequest req) (trace (performDownload config job progress w)) ->
  continuation_offset req = None.
Proof.
  intros H. apply requests_carry_no_offset in H as (_ & H).
  unfold continuation_offset.
  destruct (List.find _ (reqHeader req)) as [[k v]|] eqn:E; [|reflexivity].
  apply List.find_some in E as (Hin & Hk). cbn [fst] in Hk.
  apply H in Hin. subst k. discriminate Hk.
Qed.

(** Every write of an attempt goes to the helper's path, the staging path
    with a second [.tmp] appended, which is not the staging path. *)
Lemma writes_go_to_helper_path config job progress w path data :
  In (EvWrite path data) (trace (performDownload config job progress w)) ->
  path = helperPath (fst job) /\ path <> stagingPath (fst job).
Proof.
  intros H.
  destruct (in_attempt_body _ _ _ _ (performDownload_trace config job progress w) H)
    as [Hin|(m & Hm)]; [|discriminate Hm].
  cbn in Hin. subst path. split; [reflexivity|].
  unfold helperPath. intros Heq. symmetry in Heq. revert Heq.
  now apply string_app_ne.
Qed.

(* ===================================================================== *)
(** ** Resuming on a partial file                                         *)
(* ===================================================================== *)

Section Resumption.

Lemma copyLoop_appends path total l r reads : forall d downloaded w,
  files w !! path = Some (RegularFile d) ->
  (forall p, write_fault w p = None) ->
  let o := copyLoop path total (Some (onProgress l r)) reads EOF downloaded w in
  result o = None /\
  files (final o) = <[path := RegularFile (d ++ concat reads)]> (files w) /\
  rename_fault (final o) = rename_fault w /\
  write_fault (final o) = write_fault w /\
  network (final o) = network w.
Proof.
  induction reads as [|buf rest IH]; intros d downloaded w Hf Hw; cbv zeta.
  - cbn [copyLoop ret result final concat]. rewrite app_nil_r.
    rewrite insert_id by exact Hf. repeat split.
  - cbn [copyLoop concat].
    destruct (0 <? Z_length buf) eqn:Eb.
    + rewrite bind_eq. cbn [result final].
      assert (Hwr : os_Write path buf w
                    = mkOutcome None
                        (set_files (<[path := RegularFile (d ++ buf)]> (files w)) w)
                        [EvWrite path buf]).
      { unfold os_Write. rewrite bind_eq. cbn [get result final trace app].
        rewrite Hw, Hf. reflexivity. }
      rewrite Hwr. cbn [result final]. rewrite bind_eq. cbn [result final].
      set (w1 := final (onProgress l r (wrap64 (downloaded + Z_length buf)) total
                          (set_files (<[path := RegularFile (d ++ buf)]> (files w)) w))).
      assert (Hf1 : files w1 = <[path := RegularFile (d ++ buf)]> (files w))
        by reflexivity.
      assert (Hw1 : forall p, write_fault w1 p = None) by exact Hw.
      assert (Hl : files w1 !! path = Some (RegularFile (d ++ buf)))
        by (rewrite Hf1; apply lookup_insert_eq).
      destruct (IH (d ++ buf) (wrap64 (downloaded + Z_length buf)) w1 Hl Hw1)
        as (H1 & H2 & H3 & H4 & H5).
      split; [exact H1|]. split.
      * rewrite H2, Hf1, insert_insert_eq, <- app_assoc. reflexivity.
      * split; [exact H3|]. split; [exact H4 | exact H5].
    + assert (Hnil : buf = []).
      { destruct buf; [reflexivity|]. cbn in Eb. discriminate Eb. }
      subst buf. cbn [app]. apply (IH d downloaded w Hf Hw).
Qed.

Lemma http_Do_next req w h rest :
  network w = h :: rest ->
  http_Do req w = mkOutcome (h req) (set_network rest w) [EvRequest req].
Proof.
  intros H. unfold http_Do. rewrite !bind_eq.
  cbn [emit get result final trace app]. rewrite H. reflexivity.
Qed.

Lemma os_Rename_file old new w d :
  rename_fault w old new = None ->
  files w !! old = Some (RegularFile d) ->
  files w !! new = None ->
  os_Rename old new w
  = mkOutcome None
      (set_files (<[new := RegularFile d]> (delete old (files w))) w)
      [EvRename old new None].
Proof.
  intros Hr Ho Hn. unfold os_Rename. rewrite !bind_eq.
  cbn [get result final trace app]. rewrite Hr, Ho, Hn. reflexivity.
Qed.

Lemma helper_ne_staging model : helperPath model <> stagingPath model.
Proof.
  unfold helperPath. intros H. symmetry in H. revert H. now apply string_app_ne.
Qed.

Lemma staging_ne_final model : stagingPath model <> LocalPath model.
Proof.
  unfold stagingPath. intros H. symmetry in H. revert H. now apply string_app_ne.
Qed.

Lemma append_assoc (a b c : string) : (a +:+ b) +:+ c = a +:+ (b +:+ c).
Proof.
  induction a as [|x a IH]; [reflexivity|]. now rewrite !append_cons, IH.
Qed.

Lemma helper_ne_final model : helperPath model <> LocalPath model.
Proof.
  unfold helperPath, stagingPath. rewrite append_assoc.
  intros H. symmetry in H. revert H. now apply string_app_ne.
Qed.

(** The helper resumes on a partial file by appending to it whatever the
    body brings. *)
Lemma downloadFile_appends model reads total l r w d0 :
  files w !! helperPath model = Some (RegularFile d0) ->
  files w !! stagingPath model = None ->
  (forall a b, rename_fault w a b = None) ->
  (forall p, write_fault w p = None) ->
  let o := downloadFile (mkBody reads EOF) (stagingPath model) total
             (Some (onProgress l r)) w in
  result o = None /\
  files (final o)
    = <[stagingPath model := RegularFile (d0 ++ concat reads)]>
        (delete (helperPath model) (files w)) /\
  rename_fault (final o) = rename_fault w.
Proof.
  intros Hh Hs Hrf Hwf. cbv zeta. unfold downloadFile.
  fold (helperPath model).
  rewrite bind_eq.
  assert (Hst : os_Stat (helperPath model) w
                = mkOutcome (StatOk (mkFileInfo (Z_length d0) false)) w
                    [EvStat (helperPath model)]).
  { unfold os_Stat. rewrite !bind_eq. cbn [emit get ret result final trace app].
    rewrite Hh. reflexivity. }
  rewrite Hst. cbn [result final fiSize].
  rewrite bind_eq.
  assert (Hop : os_OpenFile (helperPath model)
                  (Z.lor (Z.lor O_CREATE O_WRONLY) O_APPEND) w
                = mkOutcome None w
                    [EvOpen (helperPath model)
                       (Z.lor (Z.lor O_CREATE O_WRONLY) O_APPEND)]).
  { unfold os_OpenFile. rewrite !bind_eq. cbn [emit get result final trace app].
    rewrite Hh. reflexivity. }
  rewrite Hop. cbn [result final chunks ending].
  rewrite bind_eq.
  destruct (copyLoop_appends (helperPath model) total l r reads d0 (Z_length d0) w Hh Hwf)
    as (Hc1 & Hc2 & Hc3 & _ & _).
  set (oc := copyLoop (helperPath model) total (Some (onProgress l r)) reads EOF
               (Z_length d0) w) in *.
  rewrite Hc1. cbn [result final]. rewrite bind_eq.
  rewrite (os_Rename_file _ _ (final oc) (d0 ++ concat reads)).
  - cbn [result final ret set_files files rename_fault].
    split; [reflexivity|]. split; [|exact Hc3].
    rewrite Hc2. rewrite delete_insert_eq. reflexivity.
  - rewrite Hc3. apply Hrf.
  - rewrite Hc2. apply lookup_insert_eq.
  - rewrite Hc2, lookup_insert_ne by apply helper_ne_staging. exact Hs.
Qed.

(** An attempt that finds a partial file of [d0] and receives the body
    [reads] publishes [d0] followed by the whole body. *)
Lemma performDownload_appends config job progress w h rest status total reads d0 :
  srSource (snd job) = "huggingface" ->
  network w = h :: rest ->
  (forall req, h req = Responds (mkResponse StatusOK status total (mkBody reads EOF))) ->
  files w !! helperPath (fst job) = Some (RegularFile d0) ->
  files w !! stagingPath (fst job) = None ->
  files w !! LocalPath (fst job) = None ->
  (forall a b, rename_fault w a b = None) ->
  (forall p, write_fault w p = None) ->
  let o := performDownload config job progress w in
  result o = None /\
  files (final o) !! LocalPath (fst job)
    = Some (RegularFile (d0 ++ concat reads)).
Proof.
  intros Hsrc Hnet Hh Hhelper Hstaging Hfinal Hrf Hwf. cbv zeta.
  unfold performDownload. fold (stagingPath (fst job)).
  set (model := fst job) in *.
  rewrite bind_eq.
  assert (Hst : os_Stat (stagingPath model) w
                = mkOutcome (StatErr (path_error "stat" (stagingPath model) ENOENT)) w
                    [EvStat (stagingPath model)]).
  { unfold os_Stat. rewrite !bind_eq. cbn [emit get ret result final trace app].
    rewrite Hstaging. reflexivity. }
  rewrite Hst. cbn [result final]. rewrite bind_eq. cbn [ret result final].
  cbv beta. rewrite Hsrc.
  change (("huggingface" =? "huggingface")%string) with true. cbv iota.
  destruct (downloadFile_appends model reads total progress 0 (set_network rest w) d0
              Hhelper Hstaging Hrf Hwf) as (Hd1 & Hd2 & Hd3).
  set (od := downloadFile (mkBody reads EOF) (stagingPath model) total
               (Some (onProgress progress 0)) (set_network rest w)) in *.
  assert (Hdl : exists tr,
            hfClient_DownloadFile (HuggingFaceToken config) (srDownloadURL (snd job))
              (stagingPath model) (Some (onProgress progress 0)) w
            = mkOutcome (result od) (final od) tr).
  { unfold hfClient_DownloadFile. rewrite bind_eq.
    rewrite (http_Do_next _ w h rest Hnet), Hh. cbn [result final trace StatusCode].
    change (negb (StatusOK =? StatusOK)) with false. cbv iota.
    cbn [RespBody ContentLength]. fold od. eauto. }
  destruct Hdl as (tr & Hdl).
  rewrite bind_eq, Hdl. cbn [result final]. rewrite Hd1, bind_eq.
  rewrite (os_Rename_file _ _ (final od) (d0 ++ concat reads)).
  - cbn [result final ret set_files files].
    split; [reflexivity | apply lookup_insert_eq].
  - rewrite Hd3. apply Hrf.
  - rewrite Hd2. apply lookup_insert_eq.
  - rewrite Hd2, lookup_insert_ne by apply staging_ne_final.
    rewrite lookup_delete_ne by apply helper_ne_final. exact Hfinal.
Qed.

Example performDownload_appends_example :
  files (final (performDownload DefaultConfig flatJob 0
                  (set_files {[ helperPath flatRef := RegularFile [x01; x02; x03] ]}
                     healthyWorld)))
    !! LocalPath flatRef
  = Some (RegularFile ([x01; x02; x03] ++ concat [[x01; x02; x03]; [x04; x05]])).
Proof.
  refine (proj2 (performDownload_appends DefaultConfig flatJob 0 _ serveAll []
                   "200 OK" 5 [[x01; x02; x03]; [x04; x05]] [x01; x02; x03]
                   _ _ _ _ _ _ _ _)); reflexivity.
Qed.

End Resumption.

(** Every event of a run is an event of the loop itself, part of an
    attempt's footprint, or a final rename. *)
Lemma Run_events R model k tr :
  Run R model k tr ->
  Forall (fun ev => is_ctl ev = true \/ inner_event model ev \/
                    exists m, ev = EvRename (stagingPath model) (LocalPath model) m)
         tr.
Proof.
  assert (Hbody : forall body err, attempt_trace model body err ->
    Forall (fun ev => is_ctl ev = true \/ inner_event model ev \/
                      exists m, ev = EvRename (stagingPath model) (LocalPath model) m)
           body).
  { intros body err Hb. apply List.Forall_forall. intros ev Hev.
    right. exact (in_attempt_body _ _ _ _ Hb Hev). }
  assert (Hpause : forall j,
    Forall (fun ev => is_ctl ev = true \/ inner_event model ev \/
                      exists m, ev = EvRename (stagingPath model) (LocalPath model) m)
           (pause j)).
  { intros j. unfold pause. destruct (0 <? j); repeat constructor. }
  induction 1 as [k Hk|k body Hk Hb|k body e Hk Hb He|k body e rest Hk Hb He Hr IH].
  - constructor.
  - apply Forall_app; split; [apply Hpause|]. constructor; [now left|].
    apply Forall_app; split; [eapply Hbody, Hb|]. repeat constructor.
  - apply Forall_app; split; [apply Hpause|]. constructor; [now left|].
    apply Forall_app; split; [eapply Hbody, Hb|]. repeat constructor.
  - apply Forall_app; split; [apply Hpause|]. constructor; [now left|].
    apply Forall_app; split; [eapply Hbody, Hb|]. constructor; [now left | exact IH].
Qed.

(** For every job: no request of the job asks for a continuation, and
    every write of the job goes to the staging path with a second [.tmp]
    appended. *)
Lemma downloadModel_footprint config job w ev :
  In ev (trace (downloadModel config job w)) ->
  match ev with
  | EvRequest req => continuation_offset req = None
  | EvWrite path _ =>
      path = helperPath (fst job) /\ path <> stagingPath (fst job)
  | _ => True
  end.
Proof.
  intros Hev.
  destruct (downloadModel_trace config job w) as (tr & Htr & Hrun).
  rewrite Htr in Hev. destruct Hev as [<-|Hev]; [exact I|].
  destruct Hrun as [->|Hrun]; [destruct Hev|].
  apply Run_events in Hrun. rewrite List.Forall_forall in Hrun.
  destruct (Hrun _ Hev) as [Hc|[Hi|(m & ->)]]; [| |exact I].
  - destruct ev; try discriminate Hc; exact I.
  - destruct ev; try exact I; cbn in Hi.
    + subst path. split; [reflexivity|].
      unfold helperPath. intros Heq. symmetry in Heq. revert Heq.
      now apply string_app_ne.
    + destruct Hi as (_ & Hh). unfold continuation_offset.
      destruct (List.find _ (reqHeader req)) as [[k v]|] eqn:E; [|reflexivity].
      apply List.find_some in E as (Hin & Hk). cbn [fst] in Hk.
      apply Hh in Hin. subst k. discriminate Hk.
Qed.

(** C1.  The first attempt writes three bytes and breaks.  The second
    attempt sends the same request as the first, with no header and so no
    continuation offset, opens the file for appending and appends the whole
    body the server sends again.  The job succeeds; the final file has
    eight bytes, the declared total is five. *)
Theorem restart_appends_whole_body :
  let run := downloadModel DefaultConfig flatJob flakyWorld in
  let request :=
    mkRequest "GET" "https://huggingface.co/org/repo/resolve/main/m.safetensors" [] in
  let final_path := "/workspace/ComfyUI/models/checkpoints/m.safetensors" in
  let staging := "/workspace/ComfyUI/models/checkpoints/m.safetensors.tmp" in
  let helper := "/workspace/ComfyUI/models/checkpoints/m.safetensors.tmp.tmp" in
  result run = None /\
  trace run
    = [EvMkdirAll "/workspace/ComfyUI/models/checkpoints";
       EvAttempt 0;
       EvStat staging;
       EvRequest request;
       EvStat helper;
       EvOpen helper (Z.lor (Z.lor O_CREATE O_WRONLY) O_TRUNC);
       EvWrite helper [x01; x02; x03];
       EvAttemptDone 0 (Some "unexpected EOF");
       EvSleep 2000000000;
       EvAttempt 1;
       EvStat staging;
       EvRequest request;
       EvStat helper;
       EvOpen helper (Z.lor (Z.lor O_CREATE O_WRONLY) O_APPEND);
       EvWrite helper [x01; x02; x03];
       EvWrite helper [x04; x05];
       EvRename helper staging None;
       EvRename staging final_path None;
       EvAttemptDone 1 None] /\
  continuation_offset request = None /\
  files (final run) !! final_path
    = Some (RegularFile [x01; x02; x03; x01; x02; x03; x04; x05]) /\
  (exists resp, serveAll request = Responds resp /\ ContentLength resp = 5).
Proof.
  cbv zeta. repeat split; try (vm_compute; reflexivity).
  eexists. split; reflexivity.
Qed.

(** C2.  An undisturbed transfer: the bytes in flight are written to the
    staging path with a second [.tmp] appended, and two renames, not one,
    bring the file to its final path. *)
Theorem transfer_stages_twice :
  let run := downloadModel DefaultConfig flatJob healthyWorld in
  let final_path := "/workspace/ComfyUI/models/checkpoints/m.safetensors" in
  let staging := "/workspace/ComfyUI/models/checkpoints/m.safetensors.tmp" in
  let helper := "/workspace/ComfyUI/models/checkpoints/m.safetensors.tmp.tmp" in
  LocalPath (fst flatJob) = final_path /\
  GetModelPath DefaultConfig ModelTypeCheckpoint "m.safetensors" = final_path /\
  result run = None /\
  trace run
    = [EvMkdirAll "/workspace/ComfyUI/models/checkpoints";
       EvAttempt 0;
       EvStat staging;
       EvRequest
         (mkRequest "GET"
            "https://huggingface.co/org/repo/resolve/main/m.safetensors" []);
       EvStat helper;
       EvOpen helper (Z.lor (Z.lor O_CREATE O_WRONLY) O_TRUNC);
       EvWrite helper [x01; x02; x03];
       EvWrite helper [x04; x05];
       EvRename helper staging None;
       EvRename staging final_path None;
       EvAttemptDone 0 None] /\
  files (final run) !! final_path = Some (RegularFile payload) /\
  files (final run) !! staging = None /\
  files (final run) !! helper = None.
Proof. cbv zeta. repeat split; vm_compute; reflexivity. Qed.

(* ===================================================================== *)
(** ** The progress registry                                              *)
(* ===================================================================== *)

Lemma GetProgress_eq w : GetProgress w = mkOutcome (downloads w) w [].
Proof.
  unfold GetProgress. rewrite bind_eq. cbn [get ret result final trace app].
  f_equal.
  apply (map_fold_weak_ind (fun r (m : gmap string loc) => r = m)).
  - reflexivity.
  - intros k v m r _ ->. reflexivity.
Qed.

(** A snapshot holds the registry's own pointers: what the callback of a
    running transfer stores is read through the snapshot taken before. *)
Lemma snapshot_shares_entries w name l p resumeFrom downloaded total :
  downloads w !! name = Some l ->
  heap w !! l = Some p ->
  let snapshot := result (GetProgress w) in
  let w' := final (onProgress l resumeFrom downloaded total w) in
  deref w snapshot name = Some p /\
  deref w' snapshot name
    = Some (setTotal total (setDownloaded (wrap64 (downloaded + resumeFrom)) p)).
Proof.
  intros Hd Hh. cbv zeta. rewrite GetProgress_eq. cbn [result].
  unfold deref. rewrite Hd. split; [exact Hh|].
  unfold onProgress, store, modify. cbn [final set_heap heap].
  rewrite list_lookup_alter_eq, Hh. reflexivity.
Qed.


(* ===================================================================== *)
(** ** Further examples                                                   *)
(* ===================================================================== *)

(** From attempt 4611686019 on the product no longer fits the duration. *)
Example backoff_wraps : backoff 4611686019 = -9223372035709551616.
Proof. reflexivity. Qed.

Example backoff_first_retries :
  backoff 1 = 2 * Second /\ backoff 2 = 4 * Second.
Proof. split; reflexivity. Qed.

(** With registry B's credential the hash lookup is made and succeeds. *)
Example hash_lookup_with_token :
  result (searchModel civitTokenConfig hashedRef hashOnlyWorld)
    = Some (withModelType ModelTypeCheckpoint byHashCandidate) /\
  trace (searchModel civitTokenConfig hashedRef hashOnlyWorld)
    = [EvCivitSearch "m" ModelTypeCheckpoint; EvCivitByHash "9f2ac41d"].
Proof. split; vm_compute; reflexivity. Qed.

Example cleanModelName_examples :
  cleanModelName "model_fp16.safetensors" = "model" /\
  cleanModelName "v1-5-pruned.ckpt" = "v1-5".
Proof. split; reflexivity. Qed.
(* ===================================================================== *)
(** ** The workflow parser                                                *)
(* ===================================================================== *)

Section ParserReferences.

Variable config : Config.

Lemma fold_left_flat_map {A B C} (f : A -> B -> A) (g : C -> list B)
    (l : list C) (a : A) :
  fold_left f (flat_map g l) a = fold_left (fun acc c => fold_left f (g c) acc) l a.
Proof.
  revert a. induction l as [|c l IH]; intros a; [reflexivity|].
  cbn [flat_map]. rewrite fold_left_app. apply IH.
Qed.

Lemma extractNamed_refs inputKey t node modelMap :
  extractNamed config inputKey t node modelMap
  = fold_left (insertRef config) (namedReference inputKey t node) modelMap.
Proof.
  unfold extractNamed, namedReference.
  destruct (inputString node inputKey); reflexivity.
Qed.

Lemma extractEmbeddings_refs node modelMap :
  extractEmbeddings config node modelMap
  = fold_left (insertRef config)
      (flat_map
         (fun kv : string * Value =>
            match snd kv with
            | VString text => map (pair ModelTypeEmbedding) (findEmbeddings text)
            | VOther => []
            end) (Inputs node)) modelMap.
Proof.
  unfold extractEmbeddings. rewrite fold_left_flat_map.
  generalize (Inputs node). intros l. revert modelMap.
  induction l as [|kv l IH]; intros modelMap; [reflexivity|].
  cbn [fold_left]. rewrite IH. f_equal.
  destruct (snd kv) as [text|]; [|reflexivity].
  generalize (findEmbeddings text). intros es. revert modelMap.
  induction es as [|e es IHe]; intros modelMap; [reflexivity|].
  cbn [fold_left map]. apply IHe.
Qed.

Lemma extractNode_refs modelMap node :
  extractNode config modelMap node
  = fold_left (insertRef config) (nodeReferences node) modelMap.
Proof.
  unfold extractNode, nodeReferences,
    extractCheckpoint, extractLora, extractVAE, extractControlNet,
    extractClipVision, extractUpscaleModel.
  repeat (match goal with
          | |- context [if ?b then _ else _] => destruct b
          end; [apply extractNamed_refs|]).
  apply extractEmbeddings_refs.
Qed.

Lemma extractModelMap_refs workflow :
  extractModelMap config workflow
  = fold_left (insertRef config) (flat_map nodeReferences workflow) ∅.
Proof.
  unfold extractModelMap. rewrite fold_left_flat_map.
  generalize (∅ : gmap string Model).
  induction workflow as [|node workflow IH]; intros m; [reflexivity|].
  cbn [fold_left]. rewrite extractNode_refs. apply IH.
Qed.

Lemma namedReference_type inputKey t node r :
  In r (namedReference inputKey t node) -> fst r = t.
Proof.
  unfold namedReference. destruct (inputString node inputKey); cbn.
  - intros [<-|[]]. reflexivity.
  - intros [].
Qed.

Lemma nodeReferences_types node r :
  In r (nodeReferences node) -> In (fst r) modelTypes.
Proof.
  unfold nodeReferences.
  repeat (match goal with
          | |- context [if ?b then _ else _] => destruct b
          end;
          [intros H; apply namedReference_type in H; rewrite H;
           unfold modelTypes; cbn; tauto|]).
  rewrite in_flat_map. intros [kv [_ H]].
  destruct (snd kv); [|destruct H].
  apply in_map_iff in H. destruct H as [e [<- _]].
  unfold modelTypes; cbn; tauto.
Qed.

Lemma modelKey_inj t1 t2 n1 n2 :
  In t1 modelTypes -> In t2 modelTypes ->
  modelKey t1 n1 = modelKey t2 n2 -> t1 = t2 /\ n1 = n2.
Proof.
  unfold modelTypes. cbn [In].
  intros H1 H2 H.
  repeat (destruct H1 as [<-|H1]); try contradiction;
    repeat (destruct H2 as [<-|H2]); try contradiction;
    cbv [modelKey String.append ModelTypeCheckpoint ModelTypeLora ModelTypeVAE
         ModelTypeEmbedding ModelTypeControlNet ModelTypeUpscale
         ModelTypeClipVision] in H;
    first [ discriminate H | injection H as ->; split; reflexivity ].
Qed.

Lemma lookup_references (refs : list (ModelType * string)) k v :
  (forall r, In r refs -> In (fst r) modelTypes) ->
  fold_left (insertRef config) refs ∅ !! k = Some v <->
  exists r, In r refs /\ k = modelKey (fst r) (snd r)
            /\ v = referenceOf config (fst r) (snd r).
Proof.
  induction refs as [|x refs IH] using rev_ind; intros Ht.
  - cbn. rewrite lookup_empty. split; [discriminate|].
    intros [r [[] _]].
  - rewrite fold_left_app. cbn [fold_left]. unfold insertRef at 1.
    assert (Ht' : forall r, In r refs -> In (fst r) modelTypes).
    { intros r Hr. apply Ht, in_or_app. left. exact Hr. }
    destruct (decide (k = modelKey (fst x) (snd x))) as [->|Hne].
    + rewrite lookup_insert_eq. split.
      * intros [= <-]. exists x. split; [apply in_or_app; right; left; reflexivity|].
        split; reflexivity.
      * intros [r [Hr [Hk ->]]]. f_equal.
        apply modelKey_inj in Hk as [<- <-]; [reflexivity| |].
        -- apply Ht, in_or_app. right. left. reflexivity.
        -- apply Ht. exact Hr.
    + rewrite lookup_insert_ne by congruence. rewrite (IH Ht'). split.
      * intros [r [Hr H]]. exists r. split; [apply in_or_app; left; exact Hr|exact H].
      * intros [r [Hr [Hk Hv]]]. exists r.
        apply in_app_or in Hr as [Hr|[<-|[]]]; [tauto|contradiction].
Qed.

Lemma workflow_references_types workflow r :
  In r (flat_map nodeReferences workflow) -> In (fst r) modelTypes.
Proof.
  rewrite in_flat_map. intros [node [_ H]]. eapply nodeReferences_types, H.
Qed.

(** The map built from a workflow holds exactly the references of its
    nodes. *)
Lemma lookup_extractModelMap workflow k v :
  extractModelMap config workflow !! k = Some v <->
  exists node r, In node workflow /\ In r (nodeReferences node)
                 /\ k = modelKey (fst r) (snd r)
                 /\ v = referenceOf config (fst r) (snd r).
Proof.
  rewrite extractModelMap_refs, lookup_references
    by apply workflow_references_types.
  split.
  - intros [r [Hr H]]. apply in_flat_map in Hr as [node [Hn Hr]].
    exists node, r. tauto.
  - intros [node [r [Hn [Hr H]]]]. exists r. split; [|exact H].
    apply in_flat_map. exists node. tauto.
Qed.

Lemma In_extractModels workflow m :
  In m (extractModels config workflow) <->
  exists k, extractModelMap config workflow !! k = Some m.
Proof.
  unfold extractModels. rewrite in_map_iff. split.
  - intros [[k v] [<- H]]. exists k.
    apply elem_of_map_to_list. apply list_elem_of_In. exact H.
  - intros [k H]. exists (k, m). split; [reflexivity|].
    apply list_elem_of_In. apply elem_of_map_to_list. exact H.
Qed.

End ParserReferences.
(** X1. Every model [extractModels] returns is the reference record of its
    own type and name: the type is one of the seven model types, the local
    path is [GetModelPath] of type and name, hash, source and download URL
    are empty, the size is zero and the model is not marked present. *)
Theorem extractModels_sound config workflow m :
  In m (extractModels config workflow) ->
  In (Type_ m) modelTypes /\ m = referenceOf config (Type_ m) (Name m).
Proof.
  intros H. apply In_extractModels in H as [k H].
  apply lookup_extractModelMap in H as [node [r [_ [Hr [_ ->]]]]].
  split; [|reflexivity]. eapply nodeReferences_types, Hr.
Qed.

Lemma extractModels_sound_witness :
  In (referenceOf DefaultConfig ModelTypeEmbedding "easynegative.pt")
     (extractModels DefaultConfig sampleWorkflow)
  /\ In ModelTypeEmbedding modelTypes.
Proof.
  assert (H : In (referenceOf DefaultConfig ModelTypeEmbedding "easynegative.pt")
                 (extractModels DefaultConfig sampleWorkflow)).
  { vm_compute. tauto. }
  split; [exact H|].
  exact (proj1 (extractModels_sound DefaultConfig sampleWorkflow _ H)).
Defined.

(** X2. [extractModels] returns no two models with the same type and
    name, however often a workflow refers to a model. *)
Theorem extractModels_no_duplicates config workflow :
  NoDup (map (fun m => (Type_ m, Name m)) (extractModels config workflow)).
Proof.
  unfold extractModels.
  pose proof (NoDup_fst_map_to_list (extractModelMap config workflow)) as Hnd.
  assert (Hk : forall kv, kv ∈ map_to_list (extractModelMap config workflow) ->
                 fst kv = modelKey (Type_ (snd kv)) (Name (snd kv))).
  { intros [k v] H. apply elem_of_map_to_list in H.
    apply lookup_extractModelMap in H as [node [r [_ [_ [-> ->]]]]].
    reflexivity. }
  revert Hnd Hk. generalize (map_to_list (extractModelMap config workflow)).
  intros l. induction l as [|kv l IH]; intros Hnd Hk.
  - constructor.
  - cbn [map]. cbn [fmap list_fmap] in Hnd. apply NoDup_cons in Hnd as [Hx Hnd].
    apply NoDup_cons. split.
    + intros Hin. apply Hx.
      apply list_elem_of_In in Hin. apply in_map_iff in Hin as [m [Hm Hin]].
      apply in_map_iff in Hin as [kv' [<- Hin]].
      apply list_elem_of_In in Hin.
      rewrite (Hk kv) by left.
      injection Hm as <- <-.
      rewrite <- (Hk kv') by (right; exact Hin).
      apply list_elem_of_fmap. exists kv'. split; [reflexivity|exact Hin].
    + apply IH; [exact Hnd|]. intros kv' H. apply Hk. right. exact H.
Qed.

Lemma loader_reference cls key t node name :
  In (cls, key, t) loaders -> ClassType node = cls ->
  inputString node key = Some name ->
  In (t, name) (nodeReferences node).
Proof.
  unfold loaders. cbn [In]. intros H Hc Hn.
  unfold nodeReferences, class_is. rewrite Hc.
  repeat (destruct H as [H|H];
          [injection H as <- <- <-; cbn [existsb String.eqb Ascii.eqb Bool.eqb orb];
           cbv [String.eqb Ascii.eqb Bool.eqb existsb orb];
           unfold namedReference; rewrite Hn; left; reflexivity|]).
  destruct H.
Qed.

(** X3. A loader node that names its model through the input its class
    reads contributes that model: [extractModels] returns the reference
    record of the loader's type and the name given, whatever else the
    workflow holds. *)
Theorem extractModels_keeps_loader_reference config workflow node cls key t name :
  In (cls, key, t) loaders ->
  In node workflow ->
  ClassType node = cls ->
  inputString node key = Some name ->
  In (referenceOf config t name) (extractModels config workflow).
Proof.
  intros Hl Hn Hc Hi. apply In_extractModels.
  exists (modelKey t name). apply lookup_extractModelMap.
  exists node, (t, name). split; [exact Hn|].
  split; [eapply loader_reference; eassumption|]. split; reflexivity.
Qed.

Lemma extractModels_keeps_loader_reference_witness :
  In (referenceOf DefaultConfig ModelTypeLora "detail.safetensors")
     (extractModels DefaultConfig sampleWorkflow).
Proof.
  apply (extractModels_keeps_loader_reference DefaultConfig sampleWorkflow
           loraNode "LoraLoader" "lora_name" ModelTypeLora "detail.safetensors").
  - vm_compute. tauto.
  - vm_compute. tauto.
  - reflexivity.
  - reflexivity.
Defined.

Lemma not_loader_references node :
  is_loader node = false ->
  nodeReferences node
  = flat_map
      (fun kv : string * Value =>
         match snd kv with
         | VString text => map (pair ModelTypeEmbedding) (findEmbeddings text)
         | VOther => []
         end) (Inputs node).
Proof.
  unfold is_loader, loaders, nodeReferences, class_is.
  cbn [existsb fst]. intros H.
  repeat (apply orb_false_elim in H as [?H H]).
  repeat match goal with
         | E : String.eqb (ClassType node) _ = false |- _ => rewrite E; clear E
         end.
  reflexivity.
Qed.

(** X4. In a node that is no loader, every embedding found in a string
    input is returned by [extractModels] as an embedding model. *)
Theorem extractModels_keeps_embedding config workflow node key text e :
  is_loader node = false ->
  In node workflow ->
  In (key, VString text) (Inputs node) ->
  In e (findEmbeddings text) ->
  In (referenceOf config ModelTypeEmbedding e) (extractModels config workflow).
Proof.
  intros Hl Hn Hi He. apply In_extractModels.
  exists (modelKey ModelTypeEmbedding e). apply lookup_extractModelMap.
  exists node, (ModelTypeEmbedding, e). split; [exact Hn|].
  split; [|split; reflexivity].
  rewrite (not_loader_references _ Hl). apply in_flat_map.
  exists (key, VString text). split; [exact Hi|].
  cbn [snd]. apply in_map. exact He.
Qed.

Lemma extractModels_keeps_embedding_witness :
  In (referenceOf DefaultConfig ModelTypeEmbedding "bad-hands.pt")
     (extractModels DefaultConfig sampleWorkflow).
Proof.
  apply (extractModels_keeps_embedding DefaultConfig sampleWorkflow
           promptNode "text" promptText "bad-hands.pt").
  - reflexivity.
  - vm_compute. tauto.
  - vm_compute. tauto.
  - vm_compute. tauto.
Defined.

(** X5. The map of models built from a workflow does not depend on the
    order in which its nodes are visited, so two visits of the same nodes
    return the same models. *)
Theorem extractModels_order_independent config workflow workflow' :
  Permutation workflow workflow' ->
  extractModelMap config workflow = extractModelMap config workflow'
  /\ Permutation (extractModels config workflow)
                 (extractModels config workflow').
Proof.
  intros Hp.
  assert (E : extractModelMap config workflow = extractModelMap config workflow').
  { apply map_eq. intros k. apply option_eq. intros v.
    rewrite !lookup_extractModelMap. split.
    - intros [node [r [Hn H]]]. exists node, r.
      split; [eapply Permutation_in; eassumption|exact H].
    - intros [node [r [Hn H]]]. exists node, r.
      split; [eapply Permutation_in; [symmetry|]; eassumption|exact H]. }
  split; [exact E|]. unfold extractModels. rewrite E. reflexivity.
Qed.

Lemma extractModels_order_independent_witness :
  extractModelMap DefaultConfig sampleWorkflow
  = extractModelMap DefaultConfig (rev sampleWorkflow).
Proof.
  apply (extractModels_order_independent DefaultConfig sampleWorkflow
           (rev sampleWorkflow)).
  apply Permutation_rev.
Defined.

Section EmbeddingNames.
Import GoStrings GoStringsMore.

Lemma IndexAny_lower s chars : -1 <= IndexAny s chars.
Proof.
  induction s as [|a s IH]; cbn [IndexAny]; [lia|].
  destruct (is_any_of chars a); [lia|].
  destruct (IndexAny s chars =? -1) eqn:E; lia.
Qed.

(** The slice the parser takes of a part stops before the first
    delimiter. *)
Lemma slice_before_delimiter s chars c :
  let idx := IndexAny s chars in
  let endIdx := if idx =? -1 then len s else idx in
  In c (list_ascii_of_string (slice_to s endIdx)) -> is_any_of chars c = false.
Proof.
  unfold slice_to, len. induction s as [|a s IH]; cbn [IndexAny].
  - vm_compute. tauto.
  - destruct (is_any_of chars a) eqn:Ea.
    + change (0 =? -1) with false. cbv iota.
      change (Z.to_nat 0) with O. cbn [String.substring list_ascii_of_string In].
      tauto.
    + pose proof (IndexAny_lower s chars) as Hl.
      destruct (IndexAny s chars =? -1) eqn:E.
      * change (-1 =? -1) with true. cbv iota. cbn [String.length].
        rewrite Nat2Z.id in *. cbn [String.substring list_ascii_of_string In].
        intros [<-|H]; [exact Ea|]. apply IH. exact H.
      * apply Z.eqb_neq in E.
        assert (E' : (IndexAny s chars + 1 =? -1) = false) by (apply Z.eqb_neq; lia).
        rewrite E'.
        rewrite Z2Nat.inj_add by lia. change (Z.to_nat 1) with 1%nat.
        rewrite Nat.add_1_r.
        cbn [String.substring list_ascii_of_string In].
        intros [<-|H]; [exact Ea|]. apply IH. exact H.
Qed.

Lemma slice_nonempty s n : 0 < n -> s <> "" -> slice_to s n <> "".
Proof.
  unfold slice_to. intros Hn Hs. destruct s as [|a s]; [contradiction|].
  destruct (Z.to_nat n) as [|k] eqn:E; [lia|].
  cbn [String.substring]. discriminate.
Qed.

Lemma endIdx_positive_nonempty s chars :
  let idx := IndexAny s chars in
  0 < (if idx =? -1 then len s else idx) -> s <> "".
Proof.
  destruct s; [vm_compute; discriminate|discriminate].
Qed.

Lemma list_ascii_of_string_app s t :
  list_ascii_of_string (s +:+ t) = list_ascii_of_string s ++ list_ascii_of_string t.
Proof.
  induction s as [|a s IH]; [reflexivity|].
  rewrite append_cons. cbn [list_ascii_of_string]. now rewrite IH.
Qed.

Lemma occurs_delimiter c :
  occurs c embeddingDelimiters <-> is_any_of " ,():" c = true.
Proof.
  unfold occurs, is_any_of, embeddingDelimiters. rewrite existsb_exists. split.
  - intros H. exists c. split; [exact H|apply Ascii.eqb_refl].
  - intros [x [Hx E]]. apply Ascii.eqb_eq in E as ->. exact Hx.
Qed.

Lemma embeddingsOfParts_names parts e :
  In e (embeddingsOfParts parts) ->
  e <> "" /\ Contains e "." = true
  /\ forall c, occurs c embeddingDelimiters -> ~ occurs c e.
Proof.
  induction parts as [|part parts IH]; cbn [embeddingsOfParts]; [intros []|].
  set (idx := IndexAny part " ,():").
  set (endIdx := if idx =? -1 then len part else idx).
  destruct (0 <? endIdx) eqn:Hpos; [|exact IH].
  apply Z.ltb_lt in Hpos.
  intros [He|H]; [|exact (IH H)]. clear IH. subst e.
  assert (Hne : slice_to part endIdx <> "").
  { apply slice_nonempty; [exact Hpos|].
    apply (endIdx_positive_nonempty part " ,():"). exact Hpos. }
  assert (Hclean : forall c, occurs c embeddingDelimiters ->
                     ~ occurs c (slice_to part endIdx)).
  { intros c Hc Ho. apply occurs_delimiter in Hc.
    apply (slice_before_delimiter part " ,():") in Ho. congruence. }
  destruct (Contains (slice_to part endIdx) ".") eqn:Hdot; cbn [negb].
  - split; [exact Hne|]. split; [exact Hdot|exact Hclean].
  - split; [|split].
    + destruct (slice_to part endIdx); [contradiction|discriminate].
    + apply Contains_spec. exists (slice_to part endIdx), "pt". reflexivity.
    + intros c Hc Ho. unfold occurs in Ho.
      rewrite list_ascii_of_string_app in Ho. apply in_app_or in Ho as [Ho|Ho].
      * exact (Hclean c Hc Ho).
      * apply occurs_delimiter in Hc.
        cbn in Ho. destruct Ho as [<-|[<-|[<-|[]]]]; discriminate Hc.
Qed.

Lemma split_without_separator sep s :
  Contains s sep = false -> split_from sep 0 s = [s].
Proof.
  induction s as [|a s IH]; [reflexivity|].
  intros H. cbn [Contains] in H. apply orb_false_elim in H as [Hp Hc].
  cbn [split_from]. rewrite Hp, (IH Hc). reflexivity.
Qed.

End EmbeddingNames.

(** X6. Every name [findEmbeddings] returns is non-empty, contains a dot
    (the extension [.pt] is added to a name without one) and holds none of
    the characters that end a name: space, comma, parentheses, colon. *)
Theorem findEmbeddings_names text e :
  In e (findEmbeddings text) ->
  e <> "" /\ GoStrings.Contains e "." = true
  /\ forall c, occurs c embeddingDelimiters -> ~ occurs c e.
Proof.
  unfold findEmbeddings. apply embeddingsOfParts_names.
Qed.

Lemma findEmbeddings_names_witness :
  "easynegative.pt" <> "" /\ GoStrings.Contains "easynegative.pt" "." = true.
Proof.
  assert (H : In "easynegative.pt" (findEmbeddings promptText)).
  { vm_compute. tauto. }
  destruct (findEmbeddings_names promptText "easynegative.pt" H) as [H1 [H2 _]].
  split; [exact H1|exact H2].
Defined.

(** X7. A text in which [embedding:] does not occur yields no embedding. *)
Theorem findEmbeddings_none text :
  GoStrings.Contains text "embedding:" = false -> findEmbeddings text = [].
Proof.
  intros H. unfold findEmbeddings, GoStringsMore.Split.
  rewrite split_without_separator by exact H. reflexivity.
Qed.

Lemma findEmbeddings_none_witness :
  findEmbeddings "a cat, embeddings of words" = [].
Proof.
  apply findEmbeddings_none. reflexivity.
Defined.

(* ===================================================================== *)
(** ** The registry clients                                               *)
(* ===================================================================== *)


(** X8. A file name accepted for a checkpoint query is rejected for a VAE
    query and accepted for a LoRA query. *)
Theorem isModelFile_checkpoint_exclusive filename :
  isModelFile filename ModelTypeCheckpoint = true ->
  isModelFile filename ModelTypeVAE = false
  /\ isModelFile filename ModelTypeLora = true.
Proof.
  unfold isModelFile.
  change (String.eqb ModelTypeCheckpoint ModelTypeVAE) with false.
  change (String.eqb ModelTypeCheckpoint ModelTypeLora) with false.
  change (String.eqb ModelTypeCheckpoint ModelTypeCheckpoint) with true.
  change (String.eqb ModelTypeVAE ModelTypeVAE) with true.
  change (String.eqb ModelTypeLora ModelTypeVAE) with false.
  change (String.eqb ModelTypeLora ModelTypeLora) with true.
  destruct (existsb _ modelExts); cbn [negb]; [|discriminate].
  destruct (GoStrings.Contains (GoStrings.ToLower filename) "vae");
    destruct (GoStrings.Contains (GoStrings.ToLower filename) "lora");
    cbn; intros H; try discriminate H; split; reflexivity.
Qed.

Lemma isModelFile_checkpoint_exclusive_witness :
  isModelFile "SD15.SafeTensors" ModelTypeVAE = false
  /\ isModelFile "SD15.SafeTensors" ModelTypeLora = true.
Proof.
  apply isModelFile_checkpoint_exclusive. reflexivity.
Defined.

Section HuggingFaceListing.

Variable decodeRepoFiles : Body -> list HFRepoFile * error.
Variable token : string.
Variable modelType : ModelType.






End HuggingFaceListing.



(** The listing of a repository whose first listing request was refused:
    the model is skipped, the next one is listed; the size and the hash of
    the file come from its LFS entry. *)
Example collectModelFiles_skips_failed_listing :
  result (collectModelFiles decodeSample ""
            [mkHFModel "org/first"; mkHFModel "org/repo"]
            ModelTypeCheckpoint [] goneWorld)
  = [ {| srName := "model.safetensors"; srSource := "huggingface";
         srDownloadURL :=
           "https://huggingface.co/org/repo/resolve/main/model.safetensors";
         srHash := "c0ffee"; srSize := 2132625894;
         srModelType := ModelTypeCheckpoint |} ].
Proof. vm_compute. reflexivity. Qed.


Lemma scan_passed r :
  (nonempty r && negb (String.eqb r "Success"))%bool = false -> scanPassed r.
Proof.
  unfold scanPassed, nonempty. intros H.
  apply andb_false_iff in H as [H|H]; apply negb_false_iff, String.eqb_eq in H;
    tauto.
Qed.


(** X11. A file [isValidFile] accepts has passed the virus scan, has one of
    the four known formats and, if its name ends in [.ckpt] or [.pt]
    (whatever the case of the letters), has passed the pickle scan.  A scan
    passes with the result [Success] or with no result at all. *)
Theorem isValidFile_sound file :
  isValidFile file = true ->
  scanPassed (VirusScanResult file)
  /\ In (cfFormat file) validFormats
  /\ (pickleChecked (cfName file) = true -> scanPassed (PickleScanResult file)).
Proof.
  unfold isValidFile. fold (pickleChecked (cfName file)).
  destruct (nonempty (VirusScanResult file) && _)%bool eqn:Ev; [discriminate|].
  destruct (pickleChecked (cfName file)) eqn:Ep; cbn [andb].
  - destruct (nonempty (PickleScanResult file) && _)%bool eqn:Es; [discriminate|].
    intros H. split; [exact (scan_passed _ Ev)|]. split.
    + apply existsb_exists in H as [x [Hx E]]. apply String.eqb_eq in E as ->.
      exact Hx.
    + intros _. exact (scan_passed _ Es).
  - intros H. split; [exact (scan_passed _ Ev)|]. split.
    + apply existsb_exists in H as [x [Hx E]]. apply String.eqb_eq in E as ->.
      exact Hx.
    + discriminate.
Qed.

Lemma isValidFile_sound_witness :
  scanPassed (VirusScanResult prunedFile)
  /\ In (cfFormat prunedFile) validFormats.
Proof.
  assert (H : isValidFile prunedFile = true) by reflexivity.
  destruct (isValidFile_sound prunedFile H) as [H1 [H2 _]].
  split; [exact H1|exact H2].
Defined.





(** An answer with an infected file, a configuration file and a model
    file: the infected file is left out; the URL of the model file is made
    from its id, its size is the whole number of bytes. *)
Example resultsOfCivitItems_example :
  resultsOfCivitItems [mkCivitModel 1 "m" "Checkpoint" [sampleVersion]]
    ModelTypeCheckpoint
  = [ resultOfCivitFile ModelTypeCheckpoint configFile;
      {| srName := "m.safetensors"; srSource := "civitai";
         srDownloadURL := "https://civitai.com/api/download/models/7";
         srHash := "9F2AC41D"; srSize := 2097664;
         srModelType := ModelTypeCheckpoint |} ].
Proof. vm_compute. reflexivity. Qed.

Section CivitAIByHash.

Variable decodeVersion : Body -> CivitAIModelVersion * error.
Variable token hash : string.



End CivitAIByHash.





(* ===================================================================== *)
(** ** The scanner: what a scan reads and what it reports                 *)
(* ===================================================================== *)

Section ScanFootprint.

Variable w : World.

Lemma upto_first_hit_length ps :
  (length (upto_first_hit w ps) <= length ps)%nat.
Proof.
  induction ps as [|p ps IH]; cbn [upto_first_hit length]; [lia|].
  destruct (hit w p); cbn [length]; lia.
Qed.

Lemma probes_length model : length (probes model) = 9%nat.
Proof.
  unfold probes. cbn [length]. rewrite length_app, length_map. reflexivity.
Qed.

Lemma checkModelExists_stats model :
  Forall (fun ev => exists path, ev = EvStat path)
         (trace (checkModelExists model w))
  /\ (length (trace (checkModelExists model w)) <= 9)%nat.
Proof.
  rewrite checkModelExists_eq. cbn [trace]. split.
  - apply List.Forall_forall. intros ev H. apply in_map_iff in H as [p [<- _]].
    eexists. reflexivity.
  - rewrite length_map, <- (probes_length model). apply upto_first_hit_length.
Qed.

Lemma classifiedPresent_withIsPresent b model :
  classifiedPresent w (withIsPresent b model) = classifiedPresent w model.
Proof. rewrite !classifiedPresent_eq. reflexivity. Qed.

Lemma filter_all {A} (f : A -> bool) l :
  (forall x, In x l -> f x = true) -> List.filter f l = l.
Proof.
  induction l as [|a l IH]; intros H; [reflexivity|]. cbn [List.filter].
  rewrite (H a) by (left; reflexivity). f_equal. apply IH.
  intros x Hx. apply H. right. exact Hx.
Qed.

Lemma filter_none {A} (f : A -> bool) l :
  (forall x, In x l -> f x = false) -> List.filter f l = [].
Proof.
  induction l as [|a l IH]; intros H; [reflexivity|]. cbn [List.filter].
  rewrite (H a) by (left; reflexivity). apply IH.
  intros x Hx. apply H. right. exact Hx.
Qed.

Lemma classified_of_filter b models x :
  In x (map (withIsPresent b)
          (List.filter (fun m => Bool.eqb (classifiedPresent w m) b) models)) ->
  classifiedPresent w x = b.
Proof.
  intros H. apply in_map_iff in H as [m [<- Hm]].
  apply filter_In in Hm as [_ Hm]. rewrite classifiedPresent_withIsPresent.
  apply Bool.eqb_prop. exact Hm.
Qed.

Lemma filter_present_eq models :
  List.filter (classifiedPresent w) models
  = List.filter (fun m => Bool.eqb (classifiedPresent w m) true) models.
Proof.
  apply filter_ext. intros m. destruct (classifiedPresent w m); reflexivity.
Qed.

Lemma filter_missing_eq models :
  List.filter (fun m => negb (classifiedPresent w m)) models
  = List.filter (fun m => Bool.eqb (classifiedPresent w m) false) models.
Proof.
  apply filter_ext. intros m. destruct (classifiedPresent w m); reflexivity.
Qed.

Lemma map_withIsPresent_id b l :
  (forall x, In x l -> exists m, x = withIsPresent b m) ->
  map (withIsPresent b) l = l.
Proof.
  induction l as [|a l IH]; intros H; [reflexivity|]. cbn [map].
  destruct (H a (or_introl eq_refl)) as [m ->]. rewrite withIsPresent_twice.
  f_equal. apply IH. intros x Hx. apply H. right. exact Hx.
Qed.

Lemma rescan_same b models :
  let l := map (withIsPresent b)
             (List.filter (fun m => Bool.eqb (classifiedPresent w m) b) models) in
  map (withIsPresent b)
      (List.filter (fun m => Bool.eqb (classifiedPresent w m) b) l) = l.
Proof.
  intros l. rewrite filter_all.
  - apply map_withIsPresent_id. intros x Hx. apply in_map_iff in Hx as [m [<- _]].
    exists m. reflexivity.
  - intros x Hx. rewrite (classified_of_filter b models x Hx).
    destruct b; reflexivity.
Qed.

Lemma rescan_other b models :
  let l := map (withIsPresent b)
             (List.filter (fun m => Bool.eqb (classifiedPresent w m) b) models) in
  List.filter (fun m => Bool.eqb (classifiedPresent w m) (negb b)) l = [].
Proof.
  intros l. apply filter_none. intros x Hx.
  rewrite (classified_of_filter b models x Hx). destruct b; reflexivity.
Qed.

End ScanFootprint.

(** X16. A scan only looks: it leaves the world as it found it, every step
    it takes is a [stat], and it takes at most nine of them for each
    reference. *)
Theorem ScanModels_read_only models w :
  final (ScanModels models w) = w
  /\ Forall (fun ev => exists path, ev = EvStat path) (trace (ScanModels models w))
  /\ (length (trace (ScanModels models w)) <= 9 * length models)%nat.
Proof.
  rewrite ScanModels_eq. cbn [final trace]. split; [reflexivity|].
  induction models as [|model models [IH1 IH2]]; cbn [map concat length].
  - split; [constructor|lia].
  - destruct (checkModelExists_stats w model) as [H1 H2]. split.
    + apply Forall_app. split; assumption.
    + rewrite length_app. lia.
Qed.

(** X17. Scanning is stable: a second scan of the models reported present
    reports all of them present again, a second scan of the models reported
    missing reports all of them missing again. *)
Theorem ScanModels_idempotent models w present missing :
  result (ScanModels models w) = (present, missing, None) ->
  result (ScanModels present (final (ScanModels models w))) = (present, [], None)
  /\ result (ScanModels missing (final (ScanModels models w))) = ([], missing, None).
Proof.
  rewrite !ScanModels_eq. cbn [result final]. intros H. injection H as <- <-.
  rewrite !filter_present_eq, !filter_missing_eq.
  rewrite (rescan_same w true models), (rescan_same w false models).
  pose proof (rescan_other w true models) as H1. cbn [negb] in H1. cbv zeta in H1.
  pose proof (rescan_other w false models) as H2. cbn [negb] in H2. cbv zeta in H2.
  rewrite H1, H2. split; reflexivity.
Qed.

Lemma ScanModels_idempotent_witness :
  result (ScanModels [withIsPresent true flatRef] flatSiblingWorld)
  = ([withIsPresent true flatRef], [], None).
Proof.
  refine (proj1 (ScanModels_idempotent [flatRef; nestedRef] flatSiblingWorld
                   [withIsPresent true flatRef] [withIsPresent false nestedRef] _)).
  vm_compute. reflexivity.
Defined.

Lemma hit_classified w model p :
  In p (probes model) -> hit w p = true -> classifiedPresent w model = true.
Proof.
  intros Hp Hh. rewrite classifiedPresent_eq. apply existsb_exists.
  exists p. tauto.
Qed.

(** X18. One successful probe is enough: a reference is reported present
    as soon as its path is a regular file, or a file with the same base
    name and one of the seven extensions lies in the directory of its
    path, or its path is a directory. *)
Theorem ScanModels_present_on_hit models w model p :
  In model models ->
  In p (probes model) ->
  hit w p = true ->
  In (withIsPresent true model) (fst (fst (result (ScanModels models w)))).
Proof.
  intros Hm Hp Hh. rewrite ScanModels_eq. cbn [result fst].
  apply in_map, filter_In. split; [exact Hm|].
  eapply hit_classified; eassumption.
Qed.

Lemma ScanModels_present_on_hit_witness :
  In (withIsPresent true flatRef)
     (fst (fst (result (ScanModels [flatRef] directoryWorld)))).
Proof.
  apply (ScanModels_present_on_hit [flatRef] directoryWorld flatRef
           (LocalPath flatRef, true)).
  - left. reflexivity.
  - vm_compute. tauto.
  - vm_compute. reflexivity.
Defined.

(** X19. A reference is reported missing only if all nine probes failed:
    none of the paths tried is a regular file and its path is no
    directory. *)
Theorem ScanModels_missing_all_probes_fail models w model :
  In model (snd (fst (result (ScanModels models w)))) ->
  Forall (fun p => hit w p = false) (probes model).
Proof.
  rewrite ScanModels_eq. cbn [result fst snd]. intros H.
  apply in_map_iff in H as [m [<- Hm]]. apply filter_In in Hm as [_ Hm].
  rewrite classifiedPresent_eq in Hm. apply negb_true_iff in Hm.
  apply List.Forall_forall. intros p Hp.
  destruct (hit w p) eqn:E; [|reflexivity].
  assert (existsb (hit w) (probes m) = true)
    by (apply existsb_exists; exists p; tauto).
  congruence.
Qed.

Lemma ScanModels_missing_all_probes_fail_witness :
  Forall (fun p => hit flatSiblingWorld p = false)
         (probes (withIsPresent false nestedRef)).
Proof.
  apply (ScanModels_missing_all_probes_fail [flatRef; nestedRef]).
  vm_compute. tauto.
Defined.

(* ===================================================================== *)
(** ** The scanner: hashes and model information                          *)
(* ===================================================================== *)

Lemma lower_ascii_twice c :
  GoStrings.lower_ascii (GoStrings.lower_ascii c) = GoStrings.lower_ascii c.
Proof.
  destruct c as [[] [] [] [] [] [] [] []]; reflexivity.
Qed.

Lemma ToLower_twice s : GoStrings.ToLower (GoStrings.ToLower s) = GoStrings.ToLower s.
Proof.
  induction s as [|c s IH]; [reflexivity|]. cbn [GoStrings.ToLower].
  now rewrite lower_ascii_twice, IH.
Qed.

Section HashProperties.

Variable md5hex : list byte -> string.
Variable sha256hex : list byte -> string.

Lemma calculateQuickHash_regular path d w :
  files w !! path = Some (RegularFile d) ->
  calculateQuickHash sha256hex path w
  = mkOutcome (sha256hex (quickWindow d), None) w [].
Proof.
  intros Hf. unfold calculateQuickHash, file_ReadAt, file_Size, quickWindow.
  rewrite !bind_eq. cbn [get ret result final trace]. rewrite Hf.
  cbn [snd fst]. rewrite !bind_eq. cbn [get ret result final trace].
  rewrite Hf. cbn [app].
  destruct (2 * MiB <? Z_length d).
  - rewrite !bind_eq. cbn [get ret result final trace]. rewrite Hf.
    cbn [snd fst]. rewrite skipn_0. reflexivity.
  - cbn [ret result final trace]. rewrite skipn_0, app_nil_r. reflexivity.
Qed.

Lemma CalculateModelHash_regular path hashType d w :
  files w !! path = Some (RegularFile d) ->
  CalculateModelHash md5hex sha256hex path hashType w
  = mkOutcome
      (if String.eqb (GoStrings.ToLower hashType) "md5" then md5hex d
       else if String.eqb (GoStrings.ToLower hashType) "sha256" then sha256hex d
       else sha256hex (quickWindow d), None)
      w [EvOpen path O_RDONLY].
Proof.
  intros Hf. unfold CalculateModelHash, os_Open, file_ReadAll.
  rewrite !bind_eq. cbn [emit get ret result final trace]. rewrite Hf.
  destruct (String.eqb (GoStrings.ToLower hashType) "md5").
  - rewrite !bind_eq. cbn [get ret result final trace snd fst]. rewrite Hf.
    reflexivity.
  - destruct (String.eqb (GoStrings.ToLower hashType) "sha256").
    + rewrite !bind_eq. cbn [get ret result final trace snd fst]. rewrite Hf.
      reflexivity.
    + rewrite (calculateQuickHash_regular path d w Hf). reflexivity.
Qed.

Lemma CalculateModelHash_lower path hashType w :
  CalculateModelHash md5hex sha256hex path hashType w
  = CalculateModelHash md5hex sha256hex path (GoStrings.ToLower hashType) w.
Proof.
  unfold CalculateModelHash. rewrite ToLower_twice. reflexivity.
Qed.

Lemma quickWindow_small d : Z_length d <= MiB -> quickWindow d = d.
Proof.
  unfold quickWindow, Z_length. intros H.
  assert (E : (2 * MiB <? Z.of_nat (length d)) = false).
  { apply Z.ltb_ge. unfold MiB in *. lia. }
  rewrite E, app_nil_r. apply firstn_all2. lia.
Qed.

Lemma quickWindow_prefix prefix rest :
  Z_length prefix = MiB -> Z_length rest <= MiB ->
  quickWindow (prefix ++ rest) = prefix.
Proof.
  unfold quickWindow, Z_length. intros Hp Hr. rewrite length_app.
  assert (E : (2 * MiB <? Z.of_nat (length prefix + length rest)) = false).
  { apply Z.ltb_ge. lia. }
  rewrite E, app_nil_r.
  rewrite firstn_app.
  replace (Z.to_nat MiB - length prefix)%nat with O by lia.
  rewrite firstn_O, app_nil_r. apply firstn_all2. lia.
Qed.

End HashProperties.

(** X20. For a regular file of at most one MiB, the hash computed for a
    hash type other than [md5] and [sha256] is the SHA-256 digest of the
    whole file. *)
Theorem CalculateModelHash_small_file md5hex sha256hex path hashType d w :
  files w !! path = Some (RegularFile d) ->
  Z_length d <= MiB ->
  GoStrings.ToLower hashType <> "md5" ->
  GoStrings.ToLower hashType <> "sha256" ->
  result (CalculateModelHash md5hex sha256hex path hashType w)
  = (sha256hex d, None)
  /\ result (CalculateModelHash md5hex sha256hex path hashType w)
     = result (CalculateModelHash md5hex sha256hex path "sha256" w).
Proof.
  intros Hf Hd H1 H2.
  rewrite !(CalculateModelHash_regular md5hex sha256hex path _ d w Hf).
  cbn [result]. apply String.eqb_neq in H1, H2. rewrite H1, H2.
  rewrite quickWindow_small by exact Hd. split; reflexivity.
Qed.

Lemma CalculateModelHash_small_file_witness :
  result (CalculateModelHash (sampleDigest "md5") (sampleDigest "sha256")
            siblingPath "quick" flatSiblingWorld)
  = ("sha256:2", None).
Proof.
  refine (proj1 (CalculateModelHash_small_file (sampleDigest "md5")
                   (sampleDigest "sha256") siblingPath "quick" [x01; x02]
                   flatSiblingWorld _ _ _ _)).
  - reflexivity.
  - vm_compute. discriminate.
  - vm_compute. discriminate.
  - vm_compute. discriminate.
Defined.

(** The hash type is matched without regard to the case of its letters. *)
Lemma CalculateModelHash_type_case md5hex sha256hex path hashType w :
  CalculateModelHash md5hex sha256hex path hashType w
  = CalculateModelHash md5hex sha256hex path (GoStrings.ToLower hashType) w.
Proof.
  apply CalculateModelHash_lower.
Qed.

(** X21. The quick hash does not see the second MiB of a file of at most
    two MiB: two such files with the same first MiB have the same quick
    hash, the digest of that first MiB. *)
Theorem quick_hash_ignores_second_MiB md5hex sha256hex path hashType
    prefix rest rest' w w' :
  GoStrings.ToLower hashType <> "md5" ->
  GoStrings.ToLower hashType <> "sha256" ->
  Z_length prefix = MiB ->
  Z_length rest <= MiB ->
  Z_length rest' <= MiB ->
  files w !! path = Some (RegularFile (prefix ++ rest)) ->
  files w' !! path = Some (RegularFile (prefix ++ rest')) ->
  result (CalculateModelHash md5hex sha256hex path hashType w)
  = result (CalculateModelHash md5hex sha256hex path hashType w').
Proof.
  intros H1 H2 Hp Hr Hr' Hf Hf'.
  rewrite (CalculateModelHash_regular md5hex sha256hex path _ _ w Hf).
  rewrite (CalculateModelHash_regular md5hex sha256hex path _ _ w' Hf').
  cbn [result]. apply String.eqb_neq in H1, H2. rewrite H1, H2.
  rewrite !quickWindow_prefix by assumption. reflexivity.
Qed.

Lemma quick_hash_ignores_second_MiB_witness :
  result (CalculateModelHash (sampleDigest "md5") (sampleDigest "sha256")
            siblingPath "quick" (paddedWorld [x01]))
  = result (CalculateModelHash (sampleDigest "md5") (sampleDigest "sha256")
              siblingPath "quick" (paddedWorld [x02; x03])).
Proof.
  apply (quick_hash_ignores_second_MiB (sampleDigest "md5")
           (sampleDigest "sha256") siblingPath "quick" firstMiB
           [x01] [x02; x03]).
  - vm_compute. discriminate.
  - vm_compute. discriminate.
  - vm_compute. reflexivity.
  - vm_compute. discriminate.
  - vm_compute. discriminate.
  - apply lookup_insert_eq.
  - apply lookup_insert_eq.
Defined.

(** X22. For a model whose path is a regular file, [GetModelInfo] reports
    no error, sets the size to the length of the file and, if the file is
    shorter than 100 MiB, the hash to its SHA-256 digest; a longer file
    keeps the hash the model had.  Nothing else of the model changes and no
    file is touched. *)
Theorem GetModelInfo_regular_file md5hex sha256hex model d w :
  files w !! LocalPath model = Some (RegularFile d) ->
  result (GetModelInfo md5hex sha256hex model w)
  = (withHash (if Z_length d <? 100 * MiB then sha256hex d else Hash model)
       (withSize (Z_length d) model), None)
  /\ final (GetModelInfo md5hex sha256hex model w) = w.
Proof.
  intros Hf. unfold GetModelInfo, os_Stat.
  rewrite !bind_eq. cbn [emit get ret result final trace]. rewrite Hf.
  cbn [fiSize withSize Size LocalPath].
  change (100 * 1024 * 1024) with (100 * MiB).
  destruct (Z_length d <? 100 * MiB).
  - rewrite bind_eq.
    rewrite (CalculateModelHash_regular md5hex sha256hex _ "sha256" d w Hf).
    cbn [result final snd fst ret]. split; reflexivity.
  - cbn [ret result final]. split; [|reflexivity].
    destruct model; reflexivity.
Qed.

Lemma GetModelInfo_regular_file_witness :
  result (GetModelInfo (sampleDigest "md5") (sampleDigest "sha256")
            localModel flatSiblingWorld)
  = (withHash "sha256:2" (withSize 2 localModel), None).
Proof.
  refine (proj1 (GetModelInfo_regular_file (sampleDigest "md5")
                   (sampleDigest "sha256") localModel [x01; x02]
                   flatSiblingWorld _)).
  reflexivity.
Defined.

(** X23. For a model whose path does not exist, [GetModelInfo] returns the
    model as it was given, with the error of the [stat]; the file is not
    opened. *)
Theorem GetModelInfo_missing_file md5hex sha256hex model w :
  files w !! LocalPath model = None ->
  GetModelInfo md5hex sha256hex model w
  = mkOutcome
      (model, Some (path_error "stat" (LocalPath model) ENOENT))
      w [EvStat (LocalPath model)].
Proof.
  intros Hf. unfold GetModelInfo, os_Stat.
  rewrite !bind_eq. cbn [emit get ret result final trace]. rewrite Hf.
  reflexivity.
Qed.

Lemma GetModelInfo_missing_file_witness :
  result (GetModelInfo (sampleDigest "md5") (sampleDigest "sha256")
            localModel emptyWorld)
  = (localModel,
     Some "stat /workspace/ComfyUI/models/checkpoints/m.ckpt: no such file or directory").
Proof.
  rewrite (GetModelInfo_missing_file (sampleDigest "md5") (sampleDigest "sha256")
             localModel emptyWorld); reflexivity.
Defined.

(* ===================================================================== *)
(** ** Search names                                                       *)
(* ===================================================================== *)

Lemma append_empty_r (s : string) : s +:+ "" = s.
Proof.
  induction s as [|a s IH]; [reflexivity|].
  rewrite append_cons. f_equal. exact IH.
Qed.

Lemma substring_prefix n s : exists rest, s = String.substring 0 n s +:+ rest.
Proof.
  revert n. induction s as [|a s IH]; intros n.
  - exists "". destruct n; reflexivity.
  - destruct n as [|n].
    + exists (String a s). reflexivity.
    + destruct (IH n) as [rest H]. exists rest.
      cbn [String.substring]. rewrite append_cons. f_equal. exact H.
Qed.

Lemma TrimSuffix_prefix s suffix :
  exists rest, s = GoStrings.TrimSuffix s suffix +:+ rest.
Proof.
  unfold GoStrings.TrimSuffix. destruct (GoStrings.HasSuffix s suffix).
  - apply substring_prefix.
  - exists "". symmetry. apply append_empty_r.
Qed.

Lemma fold_TrimSuffix_prefix l : forall s,
  exists rest, s = fold_left GoStrings.TrimSuffix l s +:+ rest.
Proof.
  induction l as [|suffix l IH]; intros s.
  - exists "". symmetry. apply append_empty_r.
  - cbn [fold_left]. destruct (IH (GoStrings.TrimSuffix s suffix)) as [r1 H1].
    destruct (TrimSuffix_prefix s suffix) as [r2 H2].
    exists (r1 +:+ r2). rewrite <- append_assoc, <- H1. exact H2.
Qed.

(** X24. The name searched for is the beginning of the model's name:
    [cleanModelName] only cuts characters off the end. *)
Theorem cleanModelName_prefix name :
  exists removed, name = cleanModelName name +:+ removed.
Proof.
  unfold cleanModelName.
  destruct (fold_TrimSuffix_prefix suffixes
              (GoStrings.TrimSuffix name (GoFilepath.Ext name))) as [r1 H1].
  destruct (TrimSuffix_prefix name (GoFilepath.Ext name)) as [r2 H2].
  exists (r1 +:+ r2). rewrite <- append_assoc, <- H1. exact H2.
Qed.

(* ===================================================================== *)
(** ** The download manager: edge cases of a job                          *)
(* ===================================================================== *)

Lemma os_MkdirAll_frame dir w w' :
  files w' = files w -> mkdir_fault w' = mkdir_fault w ->
  result (os_MkdirAll dir w') = result (os_MkdirAll dir w)
  /\ trace (os_MkdirAll dir w') = [EvMkdirAll dir]
  /\ network (final (os_MkdirAll dir w')) = network w'
  /\ heap (final (os_MkdirAll dir w')) = heap w'
  /\ downloads (final (os_MkdirAll dir w')) = downloads w'.
Proof.
  intros Hf Hm. unfold os_MkdirAll. rewrite !bind_eq.
  cbn [emit get result final trace]. rewrite Hf, Hm.
  destruct (mkdir_fault w dir); [repeat split|].
  destruct (files w !! dir) as [[d| |e]|]; repeat split.
Qed.

(** X25. With a retry limit of zero or less a job makes no attempt: its
    only step is to create the directory of the model, nothing is
    requested, and the job reports success whenever that directory could
    be created. *)
Theorem downloadModel_without_attempts config job w :
  RetryAttempts config <= 0 ->
  trace (downloadModel config job w) = [jobStart (fst job)]
  /\ result (downloadModel config job w)
     = result (os_MkdirAll (GoFilepath.Dir (LocalPath (fst job))) w)
  /\ network (final (downloadModel config job w)) = network w.
Proof.
  intros HR. unfold downloadModel, jobStart.
  replace (Z.to_nat (RetryAttempts config)) with O by lia.
  rewrite bind_eq.
  set (o := registerProgress job w).
  assert (Ho : trace o = [] /\ files (final o) = files w
               /\ mkdir_fault (final o) = mkdir_fault w
               /\ network (final o) = network w).
  { repeat split. }
  destruct Ho as (Ht & Hf & Hm & Hn).
  destruct (os_MkdirAll_frame (GoFilepath.Dir (LocalPath (fst job))) w (final o) Hf Hm)
    as (H1 & H2 & H3 & _).
  rewrite Ht. cbn [app result final trace]. rewrite bind_eq, H2.
  cbn [result final trace].
  rewrite <- H1.
  destruct (result (os_MkdirAll (GoFilepath.Dir (LocalPath (fst job))) (final o)))
    as [e|] eqn:E.
  - rewrite bind_eq. cbn [store modify ret result final trace app network set_heap].
    rewrite H3, Hn. repeat split.
  - cbn [retryLoop ret result final trace app]. rewrite H3, Hn. repeat split.
Qed.

Lemma downloadModel_without_attempts_witness :
  trace (downloadModel noRetryConfig flatJob healthyWorld) = [jobStart flatRef]
  /\ result (downloadModel noRetryConfig flatJob healthyWorld) = None.
Proof.
  destruct (downloadModel_without_attempts noRetryConfig flatJob healthyWorld)
    as (H1 & H2 & _).
  - vm_compute. discriminate.
  - split; [exact H1|]. rewrite H2. reflexivity.
Defined.



Section FreshDownload.

Variable model : Model.
Variable reads : list (list byte).



End FreshDownload.



(* ===================================================================== *)
(** ** The job queue and the whole run                                    *)
(* ===================================================================== *)






Lemma DownloadModels_no_worker config models searchResults w :
  MaxWorkers config <= 0 ->
  DownloadModels config models searchResults w = mkOutcome None w [].
Proof.
  intros Hw. unfold DownloadModels. apply Z.ltb_ge in Hw. rewrite Hw. reflexivity.
Qed.



Lemma resolution_lookups gate config w model :
  Forall is_lookup (snd (resolution gate config w model)).
Proof.
  unfold resolution.
  destruct (nonempty (HuggingFaceToken config));
    repeat match goal with
           | |- context [match ?x with _ => _ end] => destruct x
           end;
    cbn [snd app]; repeat constructor.
Qed.

Lemma searchModels_lookups config order w :
  final (searchModels config order w) = w
  /\ Forall is_lookup (trace (searchModels config order w)).
Proof.
  unfold searchModels. rewrite searchAll_eq. cbn [final trace].
  split; [reflexivity|].
  induction order as [|model order IH]; [constructor|].
  cbn [map concat]. apply Forall_app. split; [|exact IH].
  apply resolution_lookups.
Qed.

Lemma ScanModels_lookups models w :
  Forall is_lookup (trace (ScanModels models w)).
Proof.
  rewrite ScanModels_eq. cbn [trace].
  induction models as [|model models IH]; [constructor|].
  cbn [map concat]. apply Forall_app. split; [|exact IH].
  rewrite checkModelExists_eq. cbn [trace].
  apply List.Forall_forall. intros ev H. apply in_map_iff in H as [p [<- _]].
  exact I.
Qed.

(** X29. When the scan finds every model of the workflow, the run ends
    there: it reports success, and searches and downloads nothing; its
    steps are those of the scan. *)
Theorem ProcessWorkflow_all_present config searchOrder models w :
  snd (fst (result (ScanModels models w))) = [] ->
  ProcessWorkflow config searchOrder models w
  = mkOutcome None w (trace (ScanModels models w)).
Proof.
  intros Hm. unfold ProcessWorkflow. rewrite bind_eq.
  rewrite (ScanModels_never_fails models w), Hm.
  cbn [Z_length length Z.of_nat Z.eqb ret result final trace].
  rewrite app_nil_r. f_equal. rewrite ScanModels_eq. reflexivity.
Qed.

Lemma ProcessWorkflow_all_present_witness :
  ProcessWorkflow DefaultConfig (fun l => l) [flatRef] flatSiblingWorld
  = mkOutcome None flatSiblingWorld (trace (ScanModels [flatRef] flatSiblingWorld)).
Proof.
  apply ProcessWorkflow_all_present. vm_compute. reflexivity.
Defined.

(** X30. With no worker configured the run never downloads: whatever is
    missing and whatever the search finds, it reports success, all its
    steps are lookups (the [stat]s of the scan and the queries of the
    search), and no file and no progress entry is created. *)
Theorem ProcessWorkflow_without_workers config searchOrder models w :
  MaxWorkers config <= 0 ->
  result (ProcessWorkflow config searchOrder models w) = None
  /\ final (ProcessWorkflow config searchOrder models w) = w
  /\ Forall is_lookup (trace (ProcessWorkflow config searchOrder models w)).
Proof.
  intros Hw. unfold ProcessWorkflow. rewrite bind_eq.
  rewrite (ScanModels_never_fails models w).
  pose proof (ScanModels_lookups models w) as Hs.
  assert (Hf : final (ScanModels models w) = w) by (now rewrite ScanModels_eq).
  rewrite Hf.
  destruct (Z_length (snd (fst (result (ScanModels models w)))) =? 0).
  - cbn [ret result final trace]. rewrite app_nil_r. repeat split. exact Hs.
  - rewrite bind_eq.
    destruct (searchModels_lookups config
                (searchOrder (snd (fst (result (ScanModels models w))))) w)
      as [Hf' Hl].
    rewrite Hf'.
    destruct (0 <? Z.of_nat (size _)).
    + rewrite bind_eq, DownloadModels_no_worker by exact Hw.
      cbn [ret result final trace]. rewrite !app_nil_r.
      repeat split. apply Forall_app. split; assumption.
    + cbn [ret result final trace]. rewrite !app_nil_r.
      repeat split. apply Forall_app. split; assumption.
Qed.

Lemma ProcessWorkflow_without_workers_witness :
  result (ProcessWorkflow noWorkerConfig (fun l => l) [flatRef] catalogWorld) = None
  /\ final (ProcessWorkflow noWorkerConfig (fun l => l) [flatRef] catalogWorld)
     = catalogWorld.
Proof.
  destruct (ProcessWorkflow_without_workers noWorkerConfig (fun l => l)
              [flatRef] catalogWorld) as (H1 & H2 & _).
  - vm_compute. discriminate.
  - split; [exact H1|exact H2].
Defined.
